(** * Burnout detector (main.go): a shallow embedding and its properties

    The program is one Go file: a scoring formula over the submitted form
    fields, a four-way classification of the score, a rule-based advice
    text, one SQLite table and three HTTP handlers.

    Conventions of the embedding.
    - Go's [float64] is Rocq's primitive binary64 [float]; the arithmetic is
      the IEEE 754 arithmetic of the hardware, one rounding per operation
      (the evaluation Go performs on amd64, where no multiply-add is fused).
    - Go's [int] is [Z]; [float64 n] is the conversion [float64(n)].
    - The standard library and the SQLite driver are not part of the
      repository.  [math.Max]/[math.Min] are transcribed from Go's math
      package, [strconv] is an interface with its documented contract, and
      the database is a small state: the [entries] table, if it exists, with
      its AUTOINCREMENT counter.
    - A handler is a function from the request and the world (table, clock,
      time-derived random seed, pending storage faults) to a response and
      the next world. *)

From Stdlib Require Import ZArith List String Ascii Bool Lia.
From Stdlib Require Import Permutation Sorted.
From Stdlib Require Import Floats DecimalString.
Import ListNotations.

Local Open Scope string_scope.
Local Open Scope Z_scope.

(** ** Go's math package *)

Module math.

Definition IsNaN (f : float) : bool := negb (f =? f)%float.

(** [IsInf f sign] for [sign > 0] and [sign < 0]. *)
Definition IsInf_pos (f : float) : bool := (f =? infinity)%float.
Definition IsInf_neg (f : float) : bool := (f =? neg_infinity)%float.

Definition Signbit (f : float) : bool := get_sign f.

(** [math.Max]: +Inf wins, then NaN is contagious, then the sign of
    zeros is looked at, then the larger argument is returned. *)
Definition Max (x y : float) : float :=
  if IsInf_pos x || IsInf_pos y then infinity
  else if IsNaN x || IsNaN y then nan
  else if (x =? 0)%float && (x =? y)%float then
    (if Signbit x then y else x)
  else if (y <? x)%float then x
  else y.

(** [math.Min], symmetrically. *)
Definition Min (x y : float) : float :=
  if IsInf_neg x || IsInf_neg y then neg_infinity
  else if IsNaN x || IsNaN y then nan
  else if (x =? 0)%float && (x =? y)%float then
    (if Signbit x then x else y)
  else if (x <? y)%float then x
  else y.

End math.

(** [float64(n)] for an integer [n]: the nearest binary64, ties to even. *)
Definition float64 (n : Z) : float :=
  SF2Prim (binary_normalize prec emax n 0 false).

(** ** Go's strconv package, as the handler uses it

    [ParseFloat s 64] and [Atoi s] return a value and an error; the handler
    keeps the value and drops the error.  The contract recorded here is the
    documented one: a string that is not syntactically a number yields the
    value 0 together with [ErrSyntax]. *)

Inductive NumError : Type := ErrSyntax | ErrRange.

Class Strconv : Type := {
  ParseFloat : string -> float * option NumError;
  Atoi : string -> Z * option NumError;
  ParseFloat_ErrSyntax :
    forall s, snd (ParseFloat s) = Some ErrSyntax -> fst (ParseFloat s) = 0%float;
  Atoi_ErrSyntax :
    forall s, snd (Atoi s) = Some ErrSyntax -> fst (Atoi s) = 0
}.

(** ** The scoring formula (handleCalculate, "Calculate Burnout Score") *)

Definition sleepPenalty (sleep : float) : float := ((8 - sleep) * 8)%float.

Definition exerciseBonus (exercise : bool) : float :=
  if exercise then 10%float else 0%float.

Definition rawScore (sleep studyHours : float) (deadlines stress : Z)
    (exercise : bool) : float :=
  ((float64 deadlines * 10) +
   (float64 stress * 12) +
   sleepPenalty sleep +
   (studyHours * 3) -
   exerciseBonus exercise)%float.

(** Clamp 0-100. *)
Definition score (sleep studyHours : float) (deadlines stress : Z)
    (exercise : bool) : float :=
  math.Max 0 (math.Min 100 (rawScore sleep studyHours deadlines stress exercise)).

(** [clamp(x, lo, hi)] as the specification uses it: [x] brought into
    [lo, hi].  It is what [score] is compared with, not what it is made of. *)
Definition clamp (x lo hi : float) : float :=
  if (x <? lo)%float then lo else if (hi <? x)%float then hi else x.

(** [score] lies in [0, 100]. *)
Definition in_range (score : float) : Prop :=
  (0 <=? score)%float = true /\ (score <=? 100)%float = true.

(** ** The category of a score (handleCalculate, "Determine Category") *)

Record Category : Type := {
  level : string;
  colorClass : string;
  barColor : string
}.

Definition category (score : float) : Category :=
  if (score <=? 30)%float then
    {| level := "🟢 Healthy";
       colorClass := "text-green-600"; barColor := "bg-green-500" |}
  else if (score <=? 60)%float then
    {| level := "🟡 At Risk";
       colorClass := "text-yellow-600"; barColor := "bg-yellow-500" |}
  else if (score <=? 80)%float then
    {| level := "🟠 High Risk";
       colorClass := "text-orange-600"; barColor := "bg-orange-500" |}
  else
    {| level := "🔴 Severe Burnout";
       colorClass := "text-red-600"; barColor := "bg-red-600" |}.

(** ** generateAIAdvice *)

Definition string_of_int (n : Z) : string := NilZero.string_of_int (Z.to_int n).

Definition intro : list string :=
  [ "Based on your current workload patterns,";
    "Analyzing your physiological and academic inputs,";
    "Correlating your sleep data with stress levels,";
    "My assessment of your current state suggests" ].

(** [rand.Seed(time.Now().UnixNano()); rand.Intn(n)]: the generator's draw,
    which the model takes from the world, reduced to an index below [n]. *)
Definition Intn (draw n : nat) : nat := Nat.modulo draw n.

Definition selectedIntro (draw : nat) : string :=
  List.nth (Intn draw (List.length intro)) intro "".

Definition body (deadlines : Z) (score : float) : string :=
  if (80 <? score)%float then
    "your system is in critical overdrive. The combination of high stress and sleep deprivation is unsustainable. Your cognitive performance is likely degrading."
  else if (60 <? score)%float then
    "you are navigating a high-pressure zone. Managing " ++ string_of_int deadlines ++
    " deadlines with elevated stress is depleting your reserves faster than you can recover."
  else if (30 <? score)%float then
    "you are maintaining functionality but showing early signs of friction. Your sleep schedule needs slight optimization to buffer against upcoming deadlines."
  else
    "you have achieved an optimal balance between academic rigor and personal recovery. Your resilience metrics are currently peak.".

Definition action_sleep : string :=
  "Immediate Priority: Disconnect 1 hour before bed to reclaim REM cycles.".
Definition action_stress : string :=
  "Suggestion: Implement the Pomodoro technique (25/5) to fragment stress accumulation.".
Definition action_triage : string :=
  "Strategy: Triage your deadlines; ask for extensions on low-priority tasks.".
Definition action_default : string :=
  "Recommendation: Maintain current routine but monitor hydration levels.".

Definition action (sleep : float) (deadlines stress : Z) : string :=
  if (sleep <? 5)%float then action_sleep
  else if 3 <? stress then action_stress
  else if 4 <? deadlines then action_triage
  else action_default.

(** [fmt.Sprintf("%s %s %s", selectedIntro, body, action)]. *)
Definition generateAIAdvice (draw : nat) (sleep : float) (deadlines stress : Z)
    (score : float) : string :=
  selectedIntro draw ++ " " ++ body deadlines score ++ " " ++
  action sleep deadlines stress.

(** ** The store: the [entries] table behind [db]

    A REAL column holds a float or NULL: SQLite stores a NaN that is bound
    to a parameter as NULL.  [created_at] is the CURRENT_TIMESTAMP of the
    insertion, kept as seconds since the epoch; its text form in the table
    sorts the same way. *)

Definition sql_real (f : float) : option float :=
  if math.IsNaN f then None else Some f.

Record Row : Type := {
  col_id : Z;
  col_created_at : Z;
  col_sleep : option float;
  col_study_hours : option float;
  col_deadlines : Z;
  col_mood : Z;
  col_stress : Z;
  col_exercise : bool;
  col_score : option float;
  col_level : string;
  col_advice : string
}.

Record Table : Type := {
  rows : list Row;          (* in rowid order *)
  autoincrement : Z         (* largest id handed out so far *)
}.

Definition empty_table : Table := {| rows := []; autoincrement := 0 |}.

(** What a handler can see and change: the table (absent before the
    migration has run), the clock, the draw of the time-seeded generator,
    and the storage faults still to come, one entry per driver call
    ([None]: the call goes through). *)
Record World : Type := {
  entries : option Table;
  now : Z;
  draw : nat;
  faults : list (option string)
}.

Definition with_entries (w : World) (t : option Table) : World :=
  {| entries := t; now := now w; draw := draw w; faults := faults w |}.

Definition with_faults (w : World) (fs : list (option string)) : World :=
  {| entries := entries w; now := now w; draw := draw w; faults := fs |}.

Definition next_fault (w : World) : option string * World :=
  match faults w with
  | [] => (None, w)
  | f :: fs => (f, with_faults w fs)
  end.

(** The values bound to the INSERT of handleCalculate, in its order. *)
Record Values : Type := {
  v_sleep : float;
  v_study_hours : float;
  v_deadlines : Z;
  v_mood : Z;
  v_stress : Z;
  v_exercise : bool;
  v_score : float;
  v_level : string;
  v_advice : string
}.

Inductive Statement : Type :=
| DROP_TABLE_IF_EXISTS_entries
| CREATE_TABLE_IF_NOT_EXISTS_entries
| INSERT_INTO_entries (v : Values).

Definition insert_row (t : Table) (created : Z) (v : Values) : Table :=
  let id := autoincrement t + 1 in
  {| rows := rows t ++
       [ {| col_id := id;
            col_created_at := created;
            col_sleep := sql_real (v_sleep v);
            col_study_hours := sql_real (v_study_hours v);
            col_deadlines := v_deadlines v;
            col_mood := v_mood v;
            col_stress := v_stress v;
            col_exercise := v_exercise v;
            col_score := sql_real (v_score v);
            col_level := v_level v;
            col_advice := v_advice v |} ];
     autoincrement := id |}.

Definition no_such_table : string := "no such table: entries".

(** [db.Exec]: the error it returns, if any, and the world after it. *)
Definition db_Exec (q : Statement) (w : World) : option string * World :=
  match next_fault w with
  | (Some err, w') => (Some err, w')
  | (None, w') =>
      match q with
      | DROP_TABLE_IF_EXISTS_entries => (None, with_entries w' None)
      | CREATE_TABLE_IF_NOT_EXISTS_entries =>
          match entries w' with
          | Some _ => (None, w')
          | None => (None, with_entries w' (Some empty_table))
          end
      | INSERT_INTO_entries v =>
          match entries w' with
          | Some t => (None, with_entries w' (Some (insert_row t (now w') v)))
          | None => (Some no_such_table, w')
          end
      end
  end.

(** ** runMigrations *)

Definition runMigrations (w : World) : option string * World :=
  match db_Exec DROP_TABLE_IF_EXISTS_entries w with
  | (Some err, w1) => (Some err, w1)
  | (None, w1) => db_Exec CREATE_TABLE_IF_NOT_EXISTS_entries w1
  end.

(** [main] up to the point where the server listens: a failed migration is
    fatal ([None]), otherwise the handlers run on the migrated world. *)
Definition startup (w : World) : option World :=
  match runMigrations w with
  | (Some _, _) => None
  | (None, w') => Some w'
  end.

(** ** Requests and responses (net/http, as far as the handlers use it) *)

Record Request : Type := {
  Method : string;
  FormValue : string -> string      (* "" for a field that is not sent *)
}.

(** An argument of [fmt.Sprintf]; a time is kept with the layout it is
    formatted by. *)
Inductive Arg : Type :=
| Str (s : string)
| Float (f : float)
| Int (n : Z)
| Time (layout : string) (t : Z).

Record ChartData : Type := {
  Labels : list string;
  Data : list float
}.

Inductive Body : Type :=
| Plain (msg : string)              (* the text of an [http.Error] *)
| Fragment (args : list Arg)        (* the result template filled with [args] *)
| JSON (c : ChartData).

Record Response : Type := {
  status : Z;
  header : list (string * string);
  resp_body : Body
}.

Definition StatusOK : Z := 200.
Definition StatusMethodNotAllowed : Z := 405.
Definition StatusInternalServerError : Z := 500.

Definition http_Error (msg : string) (code : Z) : Response :=
  {| status := code;
     header := [("Content-Type", "text/plain; charset=utf-8");
                ("X-Content-Type-Options", "nosniff")];
     resp_body := Plain msg |}.

(** ** handleCalculate *)

(** The markup of the reset plan is shortened to its button caption. *)
Definition resetPlan : string := "🔥 Activate 24-Hour Reset Plan".

Section Handlers.

Context {strconv : Strconv}.

(** handleCalculate from "Calculate Burnout Score" on, the form fields
    parsed. *)
Definition calculate (sleep studyHours : float) (deadlines mood stress : Z)
    (exercise : bool) (w : World) : Response * World :=
  let score := score sleep studyHours deadlines stress exercise in
  let cat := category score in
  let advice := generateAIAdvice (draw w) sleep deadlines stress score in
  match
    db_Exec (INSERT_INTO_entries
               {| v_sleep := sleep; v_study_hours := studyHours;
                  v_deadlines := deadlines; v_mood := mood;
                  v_stress := stress; v_exercise := exercise;
                  v_score := score; v_level := level cat;
                  v_advice := advice |}) w
  with
  | (Some err, w') => (http_Error err StatusInternalServerError, w')
  | (None, w') =>
      let rotation := ((score / 100) * 180 - 180)%float in
      let exerciseStr := if exercise then "Yes" else "No" in
      let resetPlanHTML := if (80 <? score)%float then resetPlan else "" in
      let currentDate := Time "Jan 02, 2006" (now w') in
      ({| status := StatusOK;
          header := [("Content-Type", "text/html"); ("HX-Trigger", "newEntry")];
          resp_body :=
            Fragment
              [ Str (barColor cat); Str (colorClass cat); Float rotation;
                Str (colorClass cat); Float score; Str (colorClass cat);
                Str (level cat); Str advice; Float sleep; Int deadlines;
                Int stress; Str exerciseStr; Str resetPlanHTML; Float score;
                Str (level cat); Str advice; currentDate; Float score ] |},
       w')
  end.

Definition handleCalculate (r : Request) (w : World) : Response * World :=
  if negb (Method r =? "POST")%string then
    (http_Error "Method not allowed" StatusMethodNotAllowed, w)
  else
    let sleep := fst (ParseFloat (FormValue r "sleep")) in
    let studyHours := fst (ParseFloat (FormValue r "study")) in
    let deadlines := fst (Atoi (FormValue r "deadlines")) in
    let mood := fst (Atoi (FormValue r "mood")) in
    let stress := fst (Atoi (FormValue r "stress")) in
    let exercise := (FormValue r "exercise" =? "on")%string in
    calculate sleep studyHours deadlines mood stress exercise w.

End Handlers.

(** ** handleChartData *)

(** ORDER BY on [created_at]: a stable insertion sort, so rows with equal
    timestamps keep the order they come in, which is the order of their
    insertion; under LIMIT the rows inserted first are the ones kept of a
    tie.  (SQL leaves the order of a tie open; the properties that depend
    on it say so.) *)
Section OrderBy.

Variable A : Type.
Variable key : A -> Z.
Variable before : Z -> Z -> bool.

Fixpoint insert_by (x : A) (l : list A) : list A :=
  match l with
  | [] => [x]
  | y :: l' => if before (key x) (key y) then x :: l else y :: insert_by x l'
  end.

Definition order_by (l : list A) : list A := fold_right insert_by [] l.

End OrderBy.

Arguments insert_by {A}.
Arguments order_by {A}.

Definition ASC : Z -> Z -> bool := Z.leb.
Definition DESC : Z -> Z -> bool := Z.geb.

(** SELECT created_at, score FROM (SELECT created_at, score FROM entries
    ORDER BY created_at DESC LIMIT [limit]) ORDER BY created_at ASC. *)
Definition RecentSeries (limit : nat) (t : Table) : list (Z * option float) :=
  order_by fst ASC
    (firstn limit
       (order_by fst DESC
          (map (fun r => (col_created_at r, col_score r)) (rows t)))).

Definition db_Query (w : World) : (string + list (Z * option float)) * World :=
  match next_fault w with
  | (Some err, w') => (inl err, w')
  | (None, w') =>
      match entries w' with
      | Some t => (inr (RecentSeries 10 t), w')
      | None => (inl no_such_table, w')
      end
  end.

(** [rows.Scan(&t, &s)]: a NULL score does not convert to a float64. *)
Definition Scan (r : Z * option float) : option (Z * float) :=
  match snd r with
  | Some s => Some (fst r, s)
  | None => None
  end.

Definition two_digits (n : Z) : string :=
  if n <? 10 then "0" ++ string_of_int n else string_of_int n.

(** [t.Format("15:04")], the time of day in UTC. *)
Definition Format_15_04 (t : Z) : string :=
  two_digits ((t mod 86400) / 3600) ++ ":" ++ two_digits ((t mod 3600) / 60).

(** The [for rows.Next()] loop, with the two slices it appends to. *)
Fixpoint scan_rows (rs : list (Z * option float)) (labels : list string)
    (data : list float) : list string * list float :=
  match rs with
  | [] => (labels, data)
  | r :: rest =>
      match Scan r with
      | None => scan_rows rest labels data                       (* continue *)
      | Some (t, s) =>
          scan_rows rest (labels ++ [Format_15_04 t])%list (data ++ [s])%list
      end
  end.

(** encoding/json refuses a float that is NaN or infinite. *)
Definition json_number (f : float) : bool :=
  negb (math.IsNaN f || math.IsInf_pos f || math.IsInf_neg f).

(** The text of its UnsupportedValueError: it names the first float
    refused, as FormatFloat writes it. *)
Definition json_unsupported (data : list float) : string :=
  "json: unsupported value" ++
  match find (fun f => negb (json_number f)) data with
  | Some f =>
      if math.IsNaN f then ": NaN"
      else if math.IsInf_pos f then ": +Inf" else ": -Inf"
  | None => ""
  end.

Definition handleChartData (w : World) : Response * World :=
  match db_Query w with
  | (inl err, w') => (http_Error err StatusInternalServerError, w')
  | (inr rs, w') =>
      let '(labels, data) := scan_rows rs [] [] in
      if forallb json_number data then
        ({| status := StatusOK;
            header := [("Content-Type", "application/json")];
            resp_body := JSON {| Labels := labels; Data := data |} |}, w')
      else
        (http_Error (json_unsupported data) StatusInternalServerError, w')
  end.

(** ** A reference [Strconv]

    [Atoi] follows Go's: an optional sign, then one or more decimal digits,
    the value saturated to the 64-bit range with [ErrRange].  [ParseFloat]
    reads "nan", optionally signed "inf" and "infinity" (in any letter case)
    and decimal numbers with optional fraction and exponent, rounded to the
    nearest binary64; Go's hexadecimal and underscore forms are left out
    and count as malformed here. *)

Module GoStrconv.

Definition is_digit (c : ascii) : bool :=
  (48 <=? nat_of_ascii c)%nat && (nat_of_ascii c <=? 57)%nat.

Definition digit (c : ascii) : Z := Z.of_nat (nat_of_ascii c) - 48.

Definition lower (c : ascii) : ascii :=
  if (65 <=? nat_of_ascii c)%nat && (nat_of_ascii c <=? 90)%nat
  then ascii_of_nat (nat_of_ascii c + 32) else c.

Fixpoint lower_string (s : string) : string :=
  match s with
  | EmptyString => EmptyString
  | String c s' => String (lower c) (lower_string s')
  end.

(** The leading digits of [s] appended to [acc]; how many; the rest. *)
Fixpoint digits (s : string) (acc : Z) (n : Z) : Z * Z * string :=
  match s with
  | String c s' =>
      if is_digit c then digits s' (10 * acc + digit c) (n + 1) else (acc, n, s)
  | EmptyString => (acc, n, s)
  end.

Definition sign (s : string) : bool * string :=
  match s with
  | String "+" s' => (false, s')
  | String "-" s' => (true, s')
  | _ => (false, s)
  end.

(** The integer read and whether it had to be saturated; [None] for a
    string that is not an integer. *)
Definition parse_int (s : string) : option (Z * bool) :=
  let '(neg, ds) := sign s in
  match digits ds 0 0 with
  | (_, 0, _) => None
  | (n, _, EmptyString) =>
      if neg then
        Some (if 2 ^ 63 <? n then (- 2 ^ 63, true) else (- n, false))
      else
        Some (if 2 ^ 63 <=? n then (2 ^ 63 - 1, true) else (n, false))
  | _ => None
  end.

Definition Atoi (s : string) : Z * option NumError :=
  match parse_int s with
  | Some (n, out_of_range) => (n, if out_of_range then Some ErrRange else None)
  | None => (0, Some ErrSyntax)
  end.

(** [n / d], or [n * 10^k] with [d = 1], rounded once to binary64. *)
Definition round_ratio (neg : bool) (n d : Z) : float :=
  let '(q, e, l) := SFdiv_core_binary prec emax n 0 d 0 in
  SF2Prim (binary_round_aux prec emax neg q e l).

Definition decimal (neg : bool) (m e10 : Z) : float :=
  if 0 <=? e10 then round_ratio neg (m * 10 ^ e10) 1
  else round_ratio neg m (10 ^ (- e10)).

Definition exponent (s : string) : option Z :=
  match s with
  | EmptyString => Some 0
  | String c s' =>
      if (lower c =? "e")%char then
        let '(neg, ds) := sign s' in
        match digits ds 0 0 with
        | (_, 0, _) => None
        | (e, _, EmptyString) => Some (if neg then - e else e)
        | _ => None
        end
      else None
  end.

(** The float read and whether it overflowed; [None] for a string that is
    not a number. *)
Definition parse_float (s : string) : option (float * bool) :=
  if (lower_string s =? "nan")%string then Some (nan, false) else
  let '(neg, r) := sign s in
  if (lower_string r =? "inf")%string || (lower_string r =? "infinity")%string
  then Some (if neg then neg_infinity else infinity, false) else
  let '(m1, n1, r1) := digits r 0 0 in
  let '(m, n2, r2) :=
    match r1 with
    | String "." r1' => digits r1' m1 0
    | _ => (m1, 0, r1)
    end in
  if n1 + n2 =? 0 then None else
  match exponent r2 with
  | None => None
  | Some e =>
      let f := decimal neg m (e - n2) in
      Some (f, is_infinity f)
  end.

Definition ParseFloat (s : string) : float * option NumError :=
  match parse_float s with
  | Some (f, out_of_range) => (f, if out_of_range then Some ErrRange else None)
  | None => (0%float, Some ErrSyntax)
  end.

End GoStrconv.

#[export] Instance go_strconv : Strconv.
Proof.
  refine {| ParseFloat := GoStrconv.ParseFloat; Atoi := GoStrconv.Atoi |}.
  - intros s. unfold GoStrconv.ParseFloat.
    destruct (GoStrconv.parse_float s) as [[f []] |]; cbn;
      (discriminate || reflexivity).
  - intros s. unfold GoStrconv.Atoi.
    destruct (GoStrconv.parse_int s) as [[n []] |]; cbn;
      (discriminate || reflexivity).
Defined.

(** ** Notions the properties are stated with *)

(** The position of a binary64 on the line of integers: its value in units
    of 2^-1074, the infinities placed just outside the finite range (NaN has
    no position; 0 stands in). *)
Definition B64_value (x : spec_float) : Z :=
  match x with
  | S754_zero _ => 0
  | S754_nan => 0
  | S754_infinity s => cond_Zopp s (2 ^ 2098)
  | S754_finite s m e => cond_Zopp s (Zpos m * 2 ^ (e + 1074))
  end.

Definition magnitude (m : positive) (e : Z) : Z := Zpos m * 2 ^ (e + 1074).

Definition value (x : float) : Z := B64_value (Prim2SF x).

(** [number x]: [x] is not NaN. *)
Definition number (x : float) : Prop := math.IsNaN x = false.

(** The float64 nearest to 30.0001 and to 80.0001. *)
Definition just_above_30 : float := (300001 / 10000)%float.
Definition just_above_80 : float := (800001 / 10000)%float.

(** The values [calculate] binds to its INSERT. *)
Definition inserted (sleep studyHours : float) (deadlines mood stress : Z)
    (exercise : bool) (w : World) : Values :=
  let s := score sleep studyHours deadlines stress exercise in
  {| v_sleep := sleep; v_study_hours := studyHours;
     v_deadlines := deadlines; v_mood := mood;
     v_stress := stress; v_exercise := exercise;
     v_score := s; v_level := level (category s);
     v_advice := generateAIAdvice (draw w) sleep deadlines stress s |}.

(** A row with its mood blanked, and the table of a world seen that way. *)
Definition forget_mood (r : Row) : Row :=
  {| col_id := col_id r; col_created_at := col_created_at r;
     col_sleep := col_sleep r; col_study_hours := col_study_hours r;
     col_deadlines := col_deadlines r; col_mood := 0;
     col_stress := col_stress r; col_exercise := col_exercise r;
     col_score := col_score r; col_level := col_level r;
     col_advice := col_advice r |}.

Definition rows_but_mood (w : World) : option (list Row) :=
  option_map (fun t => map forget_mood (rows t)) (entries w).

(** The (created_at, score) pairs of a table, in rowid order. *)
Definition series (t : Table) : list (Z * option float) :=
  map (fun r => (col_created_at r, col_score r)) (rows t).

(** The rows of a result set that [Scan] decodes, in their order. *)
Definition decoded (rs : list (Z * option float)) : list (Z * float) :=
  flat_map (fun r => match Scan r with Some p => [p] | None => [] end) rs.

(** The [n] rows inserted last, and the rows before them, as the query
    sees them. *)
Definition last_rows (n : nat) (t : Table) : list (Z * option float) :=
  skipn (List.length (rows t) - n) (series t).

Definition earlier_rows (n : nat) (t : Table) : list (Z * option float) :=
  firstn (List.length (rows t) - n) (series t).

(** ** Rounding, as arithmetic on integers *)

(** Round to nearest, ties to even, of [M / 2^N]. *)
Definition RNE (M N : Z) : Z :=
  let q := M / 2 ^ N in
  let r := M mod 2 ^ N in
  if (2 ^ N <? 2 * r) || ((2 ^ N =? 2 * r) && Z.odd q) then q + 1 else q.

(** What [k] steps of [shr_1] leave of [m]: the quotient by [2^k] and,
    in the two flags, how the remainder compares with half of [2^k]. *)
Definition shr_inv (m : Z) (k : Z) (mrs : shr_record) : Prop :=
  shr_m mrs = m / 2 ^ k /\
  match shr_r mrs, shr_s mrs with
  | false, false => m mod 2 ^ k = 0
  | false, true => 0 < 2 * (m mod 2 ^ k) < 2 ^ k
  | true, false => 2 * (m mod 2 ^ k) = 2 ^ k
  | true, true => 2 ^ k < 2 * (m mod 2 ^ k)
  end.

(** Rounding of [M], counted in units of [2^-(1074 + c)], to a binary64,
    counted in units of [2^-1074]: the mantissa keeps 53 digits, and no
    digit below [2^-1074]. *)
Definition Rnd (c M : Z) : Z :=
  let N := Z.max (Zdigits2 M - 53) c in
  RNE M N * 2 ^ (N - c).

(** Rounding of a signed quantity, saturated at the infinities. *)
Definition round_to (c S : Z) : Z :=
  Z.sgn S * Z.min (2 ^ 2098) (Rnd c (Z.abs S)).

(** [fin x]: a zero or a finite float. *)
Definition fin (x : spec_float) : Prop :=
  match x with
  | S754_zero _ | S754_finite _ _ _ => True
  | _ => False
  end.

(** Sum, difference and product on positions of the line, the infinities
    at [2^2098] and [-2^2098] absorbing. *)
Definition add_ext (a b : Z) : Z :=
  if Z.abs a =? 2 ^ 2098 then a
  else if Z.abs b =? 2 ^ 2098 then b
  else round_to 0 (a + b).

Definition sub_ext (a b : Z) : Z :=
  if Z.abs a =? 2 ^ 2098 then a
  else if Z.abs b =? 2 ^ 2098 then - b
  else round_to 0 (a - b).

Definition mul_ext (a b : Z) : Z :=
  if Z.abs a =? 2 ^ 2098 then a else round_to 1074 (a * b).

(** [below a b]: [a] is at most [b], unless one of them is NaN. *)
Definition below (a b : float) : Prop :=
  number a -> number b -> value a <= value b.

(** [not_above a b]: the comparison [b < a] of the code is false, and where
    both are numbers [a <= b] is true. *)
Definition not_above (a b : float) : Prop :=
  (b <? a)%float = false /\
  (number a -> number b -> (a <=? b)%float = true).

(** ** Sample requests and a sample world *)

Definition sample_row (id created : Z) (score : option float) : Row :=
  {| col_id := id; col_created_at := created;
     col_sleep := Some 6%float; col_study_hours := Some 4%float;
     col_deadlines := 2; col_mood := 3; col_stress := 2;
     col_exercise := true; col_score := score;
     col_level := "🟡 At Risk"; col_advice := "" |}.

(** Three rows, the second with a NULL score, and a healthy storage. *)
Definition sample_world : World :=
  {| entries :=
       Some {| rows := [ sample_row 1 1700000000 (Some 42%float);
                         sample_row 2 1700000060 None;
                         sample_row 3 1700000120 (Some 58%float) ];
               autoincrement := 3 |};
     now := 1700000180;
     draw := 2;
     faults := [] |}.

(** Eleven submissions within one second, with scores 1 to 11. *)
Definition same_second_table : Table :=
  {| rows := map (fun i => sample_row i 1700000000 (Some (float64 i)))
               [1; 2; 3; 4; 5; 6; 7; 8; 9; 10; 11];
     autoincrement := 11 |}.

(** Twelve submissions, two of them in the same second, none of the last
    ten in the second of an earlier one. *)
Definition spaced_table : Table :=
  {| rows := map (fun i => sample_row (fst i) (snd i) (Some (float64 (fst i))))
               [(1, 1700000000); (2, 1700000001); (3, 1700000002);
                (4, 1700000002); (5, 1700000003); (6, 1700000004);
                (7, 1700000005); (8, 1700000006); (9, 1700000007);
                (10, 1700000008); (11, 1700000009); (12, 1700000010)];
     autoincrement := 12 |}.

(** A form as the list of its fields. *)
Definition submission (fields : list (string * string)) : string -> string :=
  fun name =>
    match find (fun kv => (fst kv =? name)%string) fields with
    | Some kv => snd kv
    | None => ""
    end.

Definition GET_calculate : Request :=
  {| Method := "GET"; FormValue := submission [("sleep", "7")] |}.

(** Every numeric field malformed. *)
Definition POST_malformed : Request :=
  {| Method := "POST";
     FormValue := submission [("sleep", "seven"); ("study", "4h");
                              ("deadlines", "two"); ("mood", "");
                              ("stress", "3.5"); ("exercise", "on")] |}.

Definition POST_mood (mood : string) : Request :=
  {| Method := "POST";
     FormValue := submission [("sleep", "6.5"); ("study", "5");
                              ("deadlines", "3"); ("mood", mood);
                              ("stress", "4")] |}.

(** ** Notions of the further properties *)

(** The four bodies of generateAIAdvice. *)
Definition body_overdrive : string :=
  "your system is in critical overdrive. The combination of high stress and sleep deprivation is unsustainable. Your cognitive performance is likely degrading.".

Definition body_pressure (deadlines : Z) : string :=
  "you are navigating a high-pressure zone. Managing " ++ string_of_int deadlines ++
  " deadlines with elevated stress is depleting your reserves faster than you can recover.".

Definition body_friction : string :=
  "you are maintaining functionality but showing early signs of friction. Your sleep schedule needs slight optimization to buffer against upcoming deadlines.".

Definition body_optimal : string :=
  "you have achieved an optimal balance between academic rigor and personal recovery. Your resilience metrics are currently peak.".

(** [resetPlanHTML] of handleCalculate. *)
Definition resetPlanHTML (score : float) : string :=
  if (80 <? score)%float then resetPlan else "".

(** How severe a level is: the place of its label in the chain. *)
Definition severity (level : string) : nat :=
  if (level =? "🟢 Healthy")%string then 0
  else if (level =? "🟡 At Risk")%string then 1
  else if (level =? "🟠 High Risk")%string then 2
  else if (level =? "🔴 Severe Burnout")%string then 3
  else 0.

(** A character that is a letter, a digit, a space or one of , . : ; ( ) / - *)
Definition plain_char (c : ascii) : bool :=
  let n := nat_of_ascii c in
  ((65 <=? n) && (n <=? 90) || (97 <=? n) && (n <=? 122) ||
   (48 <=? n) && (n <=? 57) || (n =? 32) || (n =? 44) || (n =? 46) ||
   (n =? 58) || (n =? 59) || (n =? 40) || (n =? 41) || (n =? 47) || (n =? 45))%nat.

Fixpoint plain (s : string) : bool :=
  match s with
  | EmptyString => true
  | String c s' => plain_char c && plain s'
  end.

Fixpoint mentions (c : ascii) (s : string) : bool :=
  match s with
  | EmptyString => false
  | String c' s' => (c' =? c)%char || mentions c s'
  end.

(** The row an INSERT of [v] at time [created] adds to table [t]. *)
Definition new_row (t : Table) (created : Z) (v : Values) : Row :=
  {| col_id := autoincrement t + 1;
     col_created_at := created;
     col_sleep := sql_real (v_sleep v);
     col_study_hours := sql_real (v_study_hours v);
     col_deadlines := v_deadlines v;
     col_mood := v_mood v;
     col_stress := v_stress v;
     col_exercise := v_exercise v;
     col_score := sql_real (v_score v);
     col_level := v_level v;
     col_advice := v_advice v |}.

(** The ids of a table: increasing along the rows, none above the counter. *)
Definition ids_ok (w : World) : Prop :=
  match entries w with
  | None => True
  | Some t =>
      StronglySorted Z.lt (map col_id (rows t)) /\
      Forall (fun r => col_id r <= autoincrement t) (rows t)
  end.

(** The world right after the migration, and after one submission. *)
Definition fresh_world : World :=
  {| entries := Some empty_table; now := 1700000180; draw := 2; faults := [] |}.

Definition one_entry_world : World :=
  snd (handleCalculate (POST_mood "3") fresh_world).

(** A row as handleCalculate writes it: a score in [0, 100] with its level,
    or a NULL score (a NaN) with the level the chain ends in. *)
Definition row_ok (r : Row) : Prop :=
  match col_score r with
  | Some s => in_range s /\ col_level r = level (category s)
  | None => col_level r = "🔴 Severe Burnout"
  end.

Definition rows_ok (w : World) : Prop :=
  match entries w with
  | None => True
  | Some t => Forall row_ok (rows t)
  end.

(** The world of [one_entry_world] a minute later. *)
Definition later_world : World :=
  {| entries := entries one_entry_world; now := 1700000240;
     draw := 0; faults := [] |}.

(** A world whose storage lets the DROP through and fails the CREATE. *)
Definition failing_create_world : World :=
  {| entries := entries sample_world; now := 1700000180; draw := 2;
     faults := [None; Some "disk I/O error"] |}.

(** [integral x k]: the float [x] is the integer [k]. *)
Definition integral (x : float) (k : Z) : Prop :=
  number x /\ value x = k * 2 ^ 1074.

(** The formula of the score on integers. *)
Definition rawScore_Z (sleep studyHours deadlines stress : Z) (exercise : bool) : Z :=
  deadlines * 10 + stress * 12 + (8 - sleep) * 8 + studyHours * 3 -
  (if exercise then 10 else 0).

Definition score_Z (sleep studyHours deadlines stress : Z) (exercise : bool) : Z :=
  Z.max 0 (Z.min 100 (rawScore_Z sleep studyHours deadlines stress exercise)).

(** The two bits a location stands for, below the last digit kept. *)
Definition loc_code (l : location) : Z :=
  match l with
  | loc_Exact => 0
  | loc_Inexact Lt => 1
  | loc_Inexact Eq => 2
  | loc_Inexact Gt => 3
  end.

(** The needle of the gauge, as handleCalculate turns it. *)
Definition rotation (score : float) : float :=
  ((score / 100) * 180 - 180)%float.

(** * Properties *)

(** ** The order of binary64 values

    A float that is not NaN has a position on the line of integers: its
    value in units of 2^-1074, the infinities placed just outside the finite
    range.  The comparisons of the hardware agree with the order of these
    integers. *)

(** The large powers of two are named before the arithmetic tactics run, so
    that their certificates stay small. *)
Ltac hide_pow k T :=
  let H := fresh "HP" in
  assert (H : 0 < 2 ^ k)
    by (apply Z.pow_pos_nonneg; [reflexivity | discriminate]);
  set (T := 2 ^ k) in *; clearbody T.

Lemma digits2_pos_bounds (m : positive) :
  2 ^ (Zpos (digits2_pos m) - 1) <= Zpos m < 2 ^ Zpos (digits2_pos m).
Proof.
  induction m as [m IH | m IH | ]; cbn [digits2_pos].
  - rewrite Pos2Z.inj_succ.
    replace (Z.succ (Zpos (digits2_pos m)) - 1) with (Z.succ (Zpos (digits2_pos m) - 1)) by lia.
    rewrite !Z.pow_succ_r by lia. lia.
  - rewrite Pos2Z.inj_succ.
    replace (Z.succ (Zpos (digits2_pos m)) - 1) with (Z.succ (Zpos (digits2_pos m) - 1)) by lia.
    rewrite !Z.pow_succ_r by lia. lia.
  - cbn. lia.
Qed.

Lemma valid_finite (s : bool) (m : positive) (e : Z) :
  valid_binary (S754_finite s m e) = true ->
  -1074 <= e <= 971 /\ Zpos m < 2 ^ 53 /\ (-1074 < e -> 2 ^ 52 <= Zpos m).
Proof.
  unfold SpecFloat.valid_binary, bounded, canonical_mantissa, fexp, SpecFloat.emin, prec, emax.
  intros H. apply andb_true_iff in H. destruct H as [H1 H2].
  apply Z.eqb_eq in H1. apply Z.leb_le in H2.
  pose proof (digits2_pos_bounds m) as [Hlo Hhi].
  set (d := Zpos (digits2_pos m)) in *.
  assert (Hd : d <= 53) by lia.
  split; [lia|]. split.
  - eapply Z.lt_le_trans; [exact Hhi|]. apply Z.pow_le_mono_r; lia.
  - intros He. assert (d = 53) by lia. subst d. rewrite H in Hlo. exact Hlo.
Qed.

Lemma magnitude_bounds s m e :
  valid_binary (S754_finite s m e) = true -> 0 < magnitude m e < 2 ^ 2098.
Proof.
  intros H. apply valid_finite in H. destruct H as (He & Hm & _).
  unfold magnitude. split.
  - apply Z.mul_pos_pos; [lia | apply Z.pow_pos_nonneg; lia].
  - replace 2098 with (53 + 2045) by lia. rewrite (Z.pow_add_r 2 53 2045) by lia.
    assert (0 < 2 ^ (e + 1074)) by (apply Z.pow_pos_nonneg; lia).
    assert (2 ^ (e + 1074) <= 2 ^ 2045) by (apply Z.pow_le_mono_r; lia).
    hide_pow 2045%Z T. set (X := 2 ^ (e + 1074)) in *. nia.
Qed.

Lemma magnitude_lt_exp s1 m1 e1 s2 m2 e2 :
  valid_binary (S754_finite s1 m1 e1) = true ->
  valid_binary (S754_finite s2 m2 e2) = true ->
  e1 < e2 -> magnitude m1 e1 < magnitude m2 e2.
Proof.
  intros H1 H2 Hlt.
  apply valid_finite in H1. destruct H1 as (He1 & Hm1 & _).
  apply valid_finite in H2. destruct H2 as (He2 & _ & Hm2).
  specialize (Hm2 ltac:(lia)). unfold magnitude.
  replace (e2 + 1074) with ((e2 - e1 - 1) + (1 + (e1 + 1074))) by lia.
  rewrite (Z.pow_add_r 2 (e2 - e1 - 1)), (Z.pow_add_r 2 1) by lia.
  assert (0 < 2 ^ (e1 + 1074)) by (apply Z.pow_pos_nonneg; lia).
  assert (1 <= 2 ^ (e2 - e1 - 1)) by (apply (Z.pow_le_mono_r 2 0); lia).
  change (2 ^ 1) with 2. change (2 ^ 53) with (2 * 2 ^ 52) in Hm1.
  set (c := 2 ^ 52) in *. set (P := 2 ^ (e1 + 1074)) in *.
  set (K := 2 ^ (e2 - e1 - 1)) in *.
  assert (Zpos m1 * P < 2 * c * P) by nia.
  assert (2 * c * P <= 2 * Zpos m2 * P) by nia.
  assert (2 * Zpos m2 * P <= Zpos m2 * (K * (2 * P))) by nia.
  lia.
Qed.

Lemma magnitude_compare s1 m1 e1 s2 m2 e2 :
  valid_binary (S754_finite s1 m1 e1) = true ->
  valid_binary (S754_finite s2 m2 e2) = true ->
  match e1 ?= e2 with
  | Lt => Lt
  | Gt => Gt
  | Eq => Pos.compare_cont Eq m1 m2
  end = (magnitude m1 e1 ?= magnitude m2 e2).
Proof.
  intros H1 H2. symmetry.
  destruct (Z.compare_spec e1 e2) as [Heq | Hlt | Hgt].
  - subst e2. unfold magnitude.
    rewrite <- Zmult_compare_compat_r
      by (apply Z.lt_gt, Z.pow_pos_nonneg; apply valid_finite in H1; lia).
    reflexivity.
  - apply Z.compare_lt_iff. eapply magnitude_lt_exp; eauto.
  - apply Z.compare_gt_iff. eapply magnitude_lt_exp; eauto.
Qed.

Lemma B64_compare (x y : spec_float) :
  valid_binary x = true -> valid_binary y = true ->
  x <> S754_nan -> y <> S754_nan ->
  SFcompare x y = Some (B64_value x ?= B64_value y).
Proof.
  intros Hx Hy Nx Ny.
  destruct x as [sx | sx | | sx mx ex], y as [sy | sy | | sy my ey];
    try congruence; cbn [SFcompare B64_value].
  - reflexivity.
  - destruct sy; reflexivity.
  - pose proof (magnitude_bounds _ _ _ Hy) as B. fold (magnitude my ey).
    hide_pow 2098%Z T.
    f_equal. symmetry. destruct sy; cbn [cond_Zopp];
      [apply Z.compare_gt_iff | apply Z.compare_lt_iff]; lia.
  - destruct sx; reflexivity.
  - destruct sx, sy; reflexivity.
  - pose proof (magnitude_bounds _ _ _ Hy) as B. fold (magnitude my ey).
    hide_pow 2098%Z T.
    f_equal. symmetry. destruct sx, sy; cbn [cond_Zopp];
      first [apply Z.compare_gt_iff; lia | apply Z.compare_lt_iff; lia].
  - pose proof (magnitude_bounds _ _ _ Hx) as B. fold (magnitude mx ex).
    hide_pow 2098%Z T.
    f_equal. symmetry. destruct sx; cbn [cond_Zopp];
      [apply Z.compare_lt_iff | apply Z.compare_gt_iff]; lia.
  - pose proof (magnitude_bounds _ _ _ Hx) as B. fold (magnitude mx ex).
    hide_pow 2098%Z T.
    f_equal. symmetry. destruct sx, sy; cbn [cond_Zopp];
      first [apply Z.compare_gt_iff; lia | apply Z.compare_lt_iff; lia].
  - pose proof (magnitude_bounds _ _ _ Hx) as Bx.
    pose proof (magnitude_bounds _ _ _ Hy) as By.
    fold (magnitude mx ex) (magnitude my ey). f_equal.
    hide_pow 2098%Z T.
    destruct sx, sy; cbn [cond_Zopp].
    + rewrite Z.compare_opp.
      rewrite <- (magnitude_compare _ _ _ _ _ _ Hy Hx).
      rewrite (Z.compare_antisym ey ex).
      destruct (ey ?= ex); cbn; try reflexivity.
      change (CompOpp (mx ?= my)%positive = (my ?= mx)%positive).
      symmetry. apply Pos.compare_antisym.
    + symmetry. apply Z.compare_lt_iff. lia.
    + symmetry. apply Z.compare_gt_iff. lia.
    + apply (magnitude_compare _ _ _ _ _ _ Hx Hy).
Qed.

Lemma B64_compare_refl (x : spec_float) :
  x <> S754_nan -> SFcompare x x = Some Eq.
Proof.
  destruct x as [s | s | | s m e]; try congruence; intros _; cbn.
  - reflexivity.
  - destruct s; reflexivity.
  - destruct s; rewrite Z.compare_refl;
      change (Pos.compare_cont Eq m m) with (m ?= m)%positive;
      rewrite Pos.compare_refl; reflexivity.
Qed.

Lemma number_iff (x : float) : number x <-> Prim2SF x <> S754_nan.
Proof.
  unfold number, math.IsNaN. rewrite eqb_spec. unfold SFeqb. split.
  - intros H E. rewrite E in H. discriminate H.
  - intros H. rewrite (B64_compare_refl _ H). reflexivity.
Qed.

Lemma not_number (x : float) : math.IsNaN x = true -> x = nan.
Proof.
  intros H. apply Prim2SF_inj.
  destruct (Prim2SF x) eqn:E; try reflexivity;
    assert (N : number x) by (apply number_iff; rewrite E; discriminate);
    unfold number in N; congruence.
Qed.

Lemma compare_value (x y : float) :
  number x -> number y ->
  SFcompare (Prim2SF x) (Prim2SF y) = Some (value x ?= value y).
Proof.
  intros Hx Hy. apply B64_compare;
    auto using Prim2SF_valid; now apply number_iff.
Qed.

Lemma ltb_value (x y : float) :
  number x -> number y -> (x <? y)%float = (value x <? value y).
Proof.
  intros Hx Hy. rewrite ltb_spec. unfold SFltb, Z.ltb.
  rewrite (compare_value x y Hx Hy). reflexivity.
Qed.

Lemma leb_value (x y : float) :
  number x -> number y -> (x <=? y)%float = (value x <=? value y).
Proof.
  intros Hx Hy. rewrite leb_spec. unfold SFleb, Z.leb.
  rewrite (compare_value x y Hx Hy). destruct (value x ?= value y); reflexivity.
Qed.

Lemma eqb_value (x y : float) :
  number x -> number y -> (x =? y)%float = (value x =? value y).
Proof.
  intros Hx Hy. rewrite eqb_spec. unfold SFeqb.
  rewrite (compare_value x y Hx Hy).
  destruct (Z.compare_spec (value x) (value y)), (Z.eqb_spec (value x) (value y));
    (reflexivity || lia).
Qed.

(** A comparison that holds is a comparison of numbers. *)
Lemma compare_nan_l (y : float) :
  SFcompare S754_nan (Prim2SF y) = None.
Proof. reflexivity. Qed.

Lemma compare_nan_r (x : spec_float) : SFcompare x S754_nan = None.
Proof. destruct x; reflexivity. Qed.

Lemma ltb_numbers (x y : float) :
  (x <? y)%float = true -> number x /\ number y.
Proof.
  rewrite ltb_spec. unfold SFltb. intros H.
  split; apply number_iff; intros E; rewrite E in H;
    [rewrite compare_nan_l in H | rewrite compare_nan_r in H]; discriminate.
Qed.

Lemma leb_numbers (x y : float) :
  (x <=? y)%float = true -> number x /\ number y.
Proof.
  rewrite leb_spec. unfold SFleb. intros H.
  split; apply number_iff; intros E; rewrite E in H;
    [rewrite compare_nan_l in H | rewrite compare_nan_r in H]; discriminate.
Qed.

Lemma value_bounds (x : float) : - 2 ^ 2098 <= value x <= 2 ^ 2098.
Proof.
  unfold value. pose proof (Prim2SF_valid x) as V.
  destruct (Prim2SF x) as [s | s | | s m e]; cbn [B64_value].
  - hide_pow 2098%Z T. lia.
  - hide_pow 2098%Z T. destruct s; cbn [cond_Zopp]; lia.
  - hide_pow 2098%Z T. lia.
  - pose proof (magnitude_bounds _ _ _ V) as B. fold (magnitude m e).
    hide_pow 2098%Z T. destruct s; cbn [cond_Zopp]; lia.
Qed.

(** ** math.Min and math.Max on numbers *)

Lemma value_neg_infinity : value neg_infinity = - 2 ^ 2098.
Proof. reflexivity. Qed.

Lemma value_infinity : value infinity = 2 ^ 2098.
Proof. reflexivity. Qed.

Lemma number_neg_infinity : number neg_infinity.
Proof. reflexivity. Qed.

Lemma number_infinity : number infinity.
Proof. reflexivity. Qed.

Lemma Min_number (x y : float) :
  number x -> number y ->
  number (math.Min x y) /\ value (math.Min x y) = Z.min (value x) (value y).
Proof.
  intros Hx Hy. unfold math.Min, math.IsInf_neg.
  rewrite !eqb_value by auto using number_neg_infinity.
  rewrite (ltb_value x y Hx Hy), value_neg_infinity.
  rewrite Hx, Hy. cbn [orb].
  pose proof (value_bounds x). pose proof (value_bounds y).
  pose proof value_neg_infinity as VI. hide_pow 2098%Z T.
  destruct (Z.eqb_spec (value x) (- T)); cbn [orb].
  { split; [exact number_neg_infinity | rewrite VI; lia]. }
  destruct (Z.eqb_spec (value y) (- T)).
  { split; [exact number_neg_infinity | rewrite VI; lia]. }
  match goal with |- context [if ?c && ?d then _ else _] =>
    destruct (andb c d) eqn:Z0 end.
  { apply andb_true_iff in Z0. destruct Z0 as [_ E]. apply Z.eqb_eq in E.
    destruct (math.Signbit x); split; auto; lia. }
  destruct (Z.ltb_spec (value x) (value y)); split; auto; lia.
Qed.

Lemma Max_number (x y : float) :
  number x -> number y ->
  number (math.Max x y) /\ value (math.Max x y) = Z.max (value x) (value y).
Proof.
  intros Hx Hy. unfold math.Max, math.IsInf_pos.
  rewrite !eqb_value by auto using number_infinity.
  rewrite (ltb_value y x Hy Hx), value_infinity.
  rewrite Hx, Hy. cbn [orb].
  pose proof (value_bounds x). pose proof (value_bounds y).
  pose proof value_infinity as VI. hide_pow 2098%Z T.
  destruct (Z.eqb_spec (value x) T); cbn [orb].
  { split; [exact number_infinity | rewrite VI; lia]. }
  destruct (Z.eqb_spec (value y) T).
  { split; [exact number_infinity | rewrite VI; lia]. }
  match goal with |- context [if ?c && ?d then _ else _] =>
    destruct (andb c d) eqn:Z0 end.
  { apply andb_true_iff in Z0. destruct Z0 as [_ E]. apply Z.eqb_eq in E.
    destruct (math.Signbit x); split; auto; lia. }
  destruct (Z.ltb_spec (value y) (value x)); split; auto; lia.
Qed.

(** NaN goes through the clamp of [score]. *)
Lemma clamp_nan : math.Max 0 (math.Min 100 nan) = nan.
Proof. reflexivity. Qed.

(** ** The score *)

Lemma value_0 : value 0 = 0.
Proof. reflexivity. Qed.

Lemma value_100 : value 100 = 100 * 2 ^ 1074.
Proof. reflexivity. Qed.

Lemma number_0 : number 0.
Proof. reflexivity. Qed.

Lemma number_100 : number 100.
Proof. reflexivity. Qed.

Lemma pow2_1074_pos : 0 < 2 ^ 1074.
Proof. apply Z.pow_pos_nonneg; lia. Qed.

(** The clamp of handleCalculate on a number: a number between 0 and 100,
    the nearest to its argument. *)
Lemma Max_Min_number (raw : float) :
  number raw ->
  number (math.Max 0 (math.Min 100 raw)) /\
  value (math.Max 0 (math.Min 100 raw)) =
    Z.max 0 (Z.min (100 * 2 ^ 1074) (value raw)).
Proof.
  intros Hr.
  destruct (Min_number 100 raw number_100 Hr) as [Nm Vm].
  destruct (Max_number 0 _ number_0 Nm) as [Ns Vs].
  split; [exact Ns|]. rewrite Vs, Vm, value_0, value_100. reflexivity.
Qed.

Lemma score_number sleep studyHours deadlines stress exercise :
  number (rawScore sleep studyHours deadlines stress exercise) ->
  number (score sleep studyHours deadlines stress exercise).
Proof. intros H. apply (Max_Min_number _ H). Qed.

Lemma score_of_nan sleep studyHours deadlines stress exercise :
  math.IsNaN (rawScore sleep studyHours deadlines stress exercise) = true ->
  score sleep studyHours deadlines stress exercise = nan.
Proof.
  intros H. unfold score. rewrite (not_number _ H). exact clamp_nan.
Qed.

(** C1 (as amended).  Whenever the raw score
    deadlines*10 + stress*12 + (8 - sleep)*8 + studyHours*3 - (exercise ? 10 : 0)
    is a number (not NaN), the computed score is that raw score clamped to
    [0, 100] (equal to it as a float64, [==]) and lies in [0, 100]; and
    sleep=0, deadlines=10, stress=5, studyHours=20, exercise=false gives the
    raw score 284 and the score 100. *)
Theorem score_clamped_in_range :
  (forall (sleep studyHours : float) (deadlines stress : Z) (exercise : bool),
      number (rawScore sleep studyHours deadlines stress exercise) ->
      (score sleep studyHours deadlines stress exercise =?
         clamp (rawScore sleep studyHours deadlines stress exercise) 0 100)%float = true /\
      in_range (score sleep studyHours deadlines stress exercise)) /\
  rawScore 0 20 10 5 false = 284%float /\
  score 0 20 10 5 false = 100%float.
Proof.
  split; [| split; reflexivity].
  intros sleep studyHours deadlines stress exercise Hr. unfold score, in_range.
  set (raw := rawScore sleep studyHours deadlines stress exercise) in *.
  destruct (Max_Min_number raw Hr) as [Ns Vs].
  pose proof pow2_1074_pos as P.
  assert (Nc : number (clamp raw 0 100)).
  { unfold clamp. destruct (raw <? 0)%float; [exact number_0|].
    destruct (100 <? raw)%float; [exact number_100 | exact Hr]. }
  assert (Vc : value (clamp raw 0 100) = Z.max 0 (Z.min (100 * 2 ^ 1074) (value raw))).
  { unfold clamp.
    rewrite (ltb_value raw 0 Hr number_0), (ltb_value 100 raw number_100 Hr).
    rewrite value_0, value_100.
    destruct (Z.ltb_spec (value raw) 0); [rewrite value_0; lia|].
    destruct (Z.ltb_spec (100 * 2 ^ 1074) (value raw)); [rewrite value_100|]; lia. }
  rewrite (eqb_value _ _ Ns Nc), (leb_value _ _ number_0 Ns),
    (leb_value _ _ Ns number_100), Vs, Vc, value_0, value_100.
  repeat split; [apply Z.eqb_eq | apply Z.leb_le | apply Z.leb_le]; lia.
Qed.

(** The hypothesis of [score_clamped_in_range] at the example of the
    specification. *)
Lemma score_clamped_in_range_witness :
  (score 0 20 10 5 false =? clamp (rawScore 0 20 10 5 false) 0 100)%float = true /\
  in_range (score 0 20 10 5 false).
Proof.
  apply (proj1 score_clamped_in_range 0%float 20%float 10 5 false).
  reflexivity.
Defined.

(** C1 as stated fails: with a NaN among the inputs the raw score is NaN,
    the clamp hands NaN on, and the score is neither at least 0 nor at most
    100. *)
Lemma score_nan_not_in_range : ~ in_range (score nan 0 0 0 false).
Proof.
  unfold in_range. intros [H _]. vm_compute in H. discriminate H.
Qed.

(** The same happens without any NaN in the inputs: with sleep and study
    hours of 1e308 the terms overflow to opposite infinities. *)
Example score_nan_from_finite_inputs :
  score nan 0 0 0 false = nan /\
  score 0x1.1ccf385ebc8ap+1023 0x1.1ccf385ebc8ap+1023 0 0 false = nan.
Proof. split; reflexivity. Qed.

(** Such a score is reached from the form: the reference parser, like Go's,
    reads the field value NaN as a float with no error.  The row then holds
    NULL for the score and the last level of the chain. *)
Example POST_sleep_NaN :
  let r := {| Method := "POST";
              FormValue := submission [("sleep", "NaN"); ("deadlines", "1")] |} in
  let t := entries (snd (handleCalculate r sample_world)) in
  status (fst (handleCalculate r sample_world)) = 200 /\
  option_map (fun t => map (fun row => (col_score row, col_level row))
                         (skipn 3 (rows t))) t =
    Some [(None, "🔴 Severe Burnout")].
Proof. split; reflexivity. Qed.

(** A number that is well formed but out of range is not a syntax error:
    it comes back saturated, with [ErrRange]. *)
Example Atoi_out_of_range :
  GoStrconv.Atoi "99999999999999999999" = (9223372036854775807, Some ErrRange) /\
  GoStrconv.Atoi "12" = (12, None) /\
  GoStrconv.Atoi "1.5" = (0, Some ErrSyntax).
Proof. repeat split. Qed.

(** ** The category *)

Lemma value_30 : value 30 = 30 * 2 ^ 1074.
Proof. reflexivity. Qed.

Lemma value_60 : value 60 = 60 * 2 ^ 1074.
Proof. reflexivity. Qed.

Lemma value_80 : value 80 = 80 * 2 ^ 1074.
Proof. reflexivity. Qed.

Lemma number_30 : number 30.
Proof. reflexivity. Qed.

Lemma number_60 : number 60.
Proof. reflexivity. Qed.

Lemma number_80 : number 80.
Proof. reflexivity. Qed.

(** [x <? y] on floats, read on the integer line. *)
Lemma ltb_true_value (x y : float) :
  (x <? y)%float = true -> number x /\ number y /\ value x < value y.
Proof.
  intros H. destruct (ltb_numbers _ _ H) as [Hx Hy].
  rewrite (ltb_value _ _ Hx Hy) in H. apply Z.ltb_lt in H. auto.
Qed.

Lemma leb_true_value (x y : float) :
  (x <=? y)%float = true -> number x /\ number y /\ value x <= value y.
Proof.
  intros H. destruct (leb_numbers _ _ H) as [Hx Hy].
  rewrite (leb_value _ _ Hx Hy) in H. apply Z.leb_le in H. auto.
Qed.

Lemma leb_false_of_value (x y : float) :
  number x -> number y -> value y < value x -> (x <=? y)%float = false.
Proof.
  intros Hx Hy H. rewrite (leb_value _ _ Hx Hy). apply Z.leb_gt. exact H.
Qed.

(** C2.  The level is a function of the score alone, by inclusive upper
    bounds: a score of at most 30 is "Healthy", above 30 and at most 60
    "At Risk", above 60 and at most 80 "High Risk", above 80
    "Severe Burnout" (each label carries its coloured circle); so 30 is
    Healthy, 30.0001 At Risk, 80 High Risk and 80.0001 Severe Burnout. *)
Theorem level_by_inclusive_upper_bounds :
  forall s : float,
    ((s <=? 30)%float = true -> level (category s) = "🟢 Healthy") /\
    ((30 <? s)%float = true -> (s <=? 60)%float = true ->
       level (category s) = "🟡 At Risk") /\
    ((60 <? s)%float = true -> (s <=? 80)%float = true ->
       level (category s) = "🟠 High Risk") /\
    ((80 <? s)%float = true -> level (category s) = "🔴 Severe Burnout") /\
    level (category 30) = "🟢 Healthy" /\
    level (category just_above_30) = "🟡 At Risk" /\
    level (category 80) = "🟠 High Risk" /\
    level (category just_above_80) = "🔴 Severe Burnout".
Proof.
  intros s. pose proof pow2_1074_pos as P.
  split; [| split; [| split; [| split; [| repeat split; reflexivity]]]].
  - intros H. unfold category. rewrite H. reflexivity.
  - intros H1 H2. apply ltb_true_value in H1. destruct H1 as (_ & Ns & H1).
    rewrite value_30 in H1. unfold category.
    rewrite (leb_false_of_value s 30 Ns number_30) by (rewrite value_30; lia).
    rewrite H2. reflexivity.
  - intros H1 H2. apply ltb_true_value in H1. destruct H1 as (_ & Ns & H1).
    rewrite value_60 in H1. unfold category.
    rewrite (leb_false_of_value s 30 Ns number_30) by (rewrite value_30; lia).
    rewrite (leb_false_of_value s 60 Ns number_60) by (rewrite value_60; lia).
    rewrite H2. reflexivity.
  - intros H1. apply ltb_true_value in H1. destruct H1 as (_ & Ns & H1).
    rewrite value_80 in H1. unfold category.
    rewrite (leb_false_of_value s 30 Ns number_30) by (rewrite value_30; lia).
    rewrite (leb_false_of_value s 60 Ns number_60) by (rewrite value_60; lia).
    rewrite (leb_false_of_value s 80 Ns number_80) by (rewrite value_80; lia).
    reflexivity.
Qed.

(** The four bands of [level_by_inclusive_upper_bounds] at 12.5, 45, 61 and
    100. *)
Lemma level_by_inclusive_upper_bounds_witness :
  level (category 12.5) = "🟢 Healthy" /\
  level (category 45) = "🟡 At Risk" /\
  level (category 61) = "🟠 High Risk" /\
  level (category 100) = "🔴 Severe Burnout".
Proof.
  split; [| split; [| split]].
  - apply (proj1 (level_by_inclusive_upper_bounds 12.5)). reflexivity.
  - apply (proj1 (proj2 (level_by_inclusive_upper_bounds 45))); reflexivity.
  - apply (proj1 (proj2 (proj2 (level_by_inclusive_upper_bounds 61))));
      reflexivity.
  - apply (proj1 (proj2 (proj2 (proj2 (level_by_inclusive_upper_bounds 100)))));
      reflexivity.
Defined.

(** ** The advice *)

(** C7.  The action that closes the advice text is picked by the first rule
    that applies, in this order: sleep below 5 gives the sleep action;
    otherwise stress above 3 the stress action; otherwise more than 4
    deadlines the triage action; otherwise the maintenance action. *)
Theorem action_first_matching_rule :
  forall (draw : nat) (sleep : float) (deadlines stress : Z) (score : float),
    generateAIAdvice draw sleep deadlines stress score =
      selectedIntro draw ++ " " ++ body deadlines score ++ " " ++
      action sleep deadlines stress /\
    ((sleep <? 5)%float = true ->
       action sleep deadlines stress = action_sleep) /\
    ((sleep <? 5)%float = false -> 3 < stress ->
       action sleep deadlines stress = action_stress) /\
    ((sleep <? 5)%float = false -> stress <= 3 -> 4 < deadlines ->
       action sleep deadlines stress = action_triage) /\
    ((sleep <? 5)%float = false -> stress <= 3 -> deadlines <= 4 ->
       action sleep deadlines stress = action_default).
Proof.
  intros draw sleep deadlines stress score. unfold action.
  split; [reflexivity |].
  split; [| split; [| split]].
  - intros H. rewrite H. reflexivity.
  - intros H Hs. rewrite H. apply Z.ltb_lt in Hs. rewrite Hs. reflexivity.
  - intros H Hs Hd. rewrite H. apply Z.ltb_ge in Hs. rewrite Hs.
    apply Z.ltb_lt in Hd. rewrite Hd. reflexivity.
  - intros H Hs Hd. rewrite H. apply Z.ltb_ge in Hs. rewrite Hs.
    apply Z.ltb_ge in Hd. rewrite Hd. reflexivity.
Qed.

(** Each rule of [action_first_matching_rule] fires somewhere; sleep wins
    over stress and deadlines, stress over deadlines. *)
Lemma action_first_matching_rule_witness :
  action 4 9 5 = action_sleep /\
  action 7 9 5 = action_stress /\
  action 7 9 2 = action_triage /\
  action 7 1 2 = action_default.
Proof.
  split; [| split; [| split]].
  - apply (proj1 (proj2 (action_first_matching_rule 0 4 9 5 50))). reflexivity.
  - apply (proj1 (proj2 (proj2 (action_first_matching_rule 0 7 9 5 50))));
      [reflexivity | lia].
  - apply (proj1 (proj2 (proj2 (proj2 (action_first_matching_rule 0 7 9 2 50)))));
      [reflexivity | lia | lia].
  - apply (proj2 (proj2 (proj2 (proj2 (action_first_matching_rule 0 7 1 2 50)))));
      [reflexivity | lia | lia].
Defined.

(** ** The store and the migration *)

Lemma next_fault_none (w : World) :
  hd None (faults w) = None ->
  next_fault w = (None, with_faults w (tl (faults w))).
Proof.
  unfold next_fault. destruct w as [t n d [| f fs]]; cbn.
  - reflexivity.
  - intros ->. reflexivity.
Qed.

Lemma next_fault_entries (w w' : World) (e : option string) :
  next_fault w = (e, w') -> entries w' = entries w /\ now w' = now w.
Proof.
  unfold next_fault. destruct (faults w) as [| f fs]; intros H;
    inversion H; subst; split; reflexivity.
Qed.

(** C9.  The migration drops the table, if there is one, and creates it
    again, whatever the table held: when it succeeds the table exists and
    is empty, and the process then serves on exactly that world.  It does
    succeed whenever the storage lets its two statements through. *)
Theorem migration_leaves_empty_table :
  forall w : World,
    (forall w', runMigrations w = (None, w') ->
       entries w' = Some empty_table /\ startup w = Some w') /\
    (hd None (faults w) = None -> hd None (tl (faults w)) = None ->
       exists w', runMigrations w = (None, w') /\
                  entries w' = Some empty_table).
Proof.
  intros w. split.
  - intros w' H. split.
    + unfold runMigrations, db_Exec in H.
      destruct (next_fault w) as [[err |] w1]; [discriminate H |].
      cbn [entries with_entries] in H.
      destruct (next_fault (with_entries w1 None)) as [[err |] w2] eqn:E2;
        [discriminate H |].
      apply next_fault_entries in E2. destruct E2 as [E2 _].
      cbn [entries with_entries] in E2. rewrite E2 in H.
      inversion H. reflexivity.
    + unfold startup. rewrite H. reflexivity.
  - intros F1 F2. unfold runMigrations, db_Exec.
    rewrite (next_fault_none w F1).
    rewrite (next_fault_none (with_entries (with_faults w (tl (faults w))) None) F2).
    cbn. eexists. split; reflexivity.
Qed.

(** [migration_leaves_empty_table] on a world with three rows. *)
Lemma migration_leaves_empty_table_witness :
  entries (snd (runMigrations sample_world)) = Some empty_table /\
  startup sample_world = Some (snd (runMigrations sample_world)).
Proof.
  apply (proj1 (migration_leaves_empty_table sample_world)). reflexivity.
Defined.

(** ** handleCalculate *)

Section HandleCalculate.

Context {strconv : Strconv}.

(** C5.  A request to /calculate whose method is not POST is answered
    405 "Method not allowed", and the world, the table in it, is left as
    it was: no row is persisted. *)
Theorem not_POST_is_rejected :
  forall (r : Request) (w : World),
    Method r <> "POST" ->
    fst (handleCalculate r w) =
      http_Error "Method not allowed" StatusMethodNotAllowed /\
    status (fst (handleCalculate r w)) = 405 /\
    snd (handleCalculate r w) = w.
Proof.
  intros r w H. unfold handleCalculate.
  destruct (String.eqb_spec (Method r) "POST") as [E | _]; [contradiction |].
  cbn. auto.
Qed.

(** With the table in place and the storage healthy, [calculate] answers
    200 and appends the row of its arguments. *)
Lemma calculate_persists sleep studyHours deadlines mood stress exercise
    (w : World) (t : Table) :
  entries w = Some t -> hd None (faults w) = None ->
  status (fst (calculate sleep studyHours deadlines mood stress exercise w)) = 200 /\
  entries (snd (calculate sleep studyHours deadlines mood stress exercise w)) =
    Some (insert_row t (now w)
            (inserted sleep studyHours deadlines mood stress exercise w)).
Proof.
  intros Ht Hf. unfold calculate, db_Exec.
  rewrite (next_fault_none w Hf).
  cbn [entries with_faults now draw]. rewrite Ht. cbn. auto.
Qed.

Lemma handleCalculate_POST (r : Request) (w : World) :
  Method r = "POST" ->
  handleCalculate r w =
    calculate (fst (ParseFloat (FormValue r "sleep")))
      (fst (ParseFloat (FormValue r "study")))
      (fst (Atoi (FormValue r "deadlines")))
      (fst (Atoi (FormValue r "mood")))
      (fst (Atoi (FormValue r "stress")))
      (FormValue r "exercise" =? "on")%string w.
Proof. intros HM. unfold handleCalculate. rewrite HM. reflexivity. Qed.

(** C4.  A POST with a numeric field (sleep, study, deadlines, mood or
    stress) that does not parse as a number is not refused: the only
    answers other than 200 are the storage's, 500 with its error.  With
    the table in place and the storage answering, the answer is 200 with
    the fragment of the parsed values, and the table gains one row
    holding them; a field that failed to parse is 0 in the score, in the
    row stored and in the fragment. *)
Theorem malformed_field_counts_as_zero :
  forall (r : Request) (w : World),
    Method r = "POST" ->
    let sleep := fst (ParseFloat (FormValue r "sleep")) in
    let studyHours := fst (ParseFloat (FormValue r "study")) in
    let deadlines := fst (Atoi (FormValue r "deadlines")) in
    let mood := fst (Atoi (FormValue r "mood")) in
    let stress := fst (Atoi (FormValue r "stress")) in
    let exercise := (FormValue r "exercise" =? "on")%string in
    let s := score sleep studyHours deadlines stress exercise in
    (status (fst (handleCalculate r w)) = 200 \/
     exists err,
       fst (handleCalculate r w) = http_Error err 500 /\
       (hd None (faults w) = Some err \/
        hd None (faults w) = None /\ entries w = None /\
        err = "no such table: entries")) /\
    (forall t, entries w = Some t -> hd None (faults w) = None ->
       exists args row,
         fst (handleCalculate r w) =
           {| status := 200;
              header := [("Content-Type", "text/html"); ("HX-Trigger", "newEntry")];
              resp_body := Fragment args |} /\
         nth 4 args (Str "") = Float s /\
         nth 6 args (Str "") = Str (level (category s)) /\
         nth 8 args (Str "") = Float sleep /\
         nth 9 args (Str "") = Int deadlines /\
         nth 10 args (Str "") = Int stress /\
         entries (snd (handleCalculate r w)) =
           Some {| rows := rows t ++ [row];
                   autoincrement := autoincrement t + 1 |} /\
         col_id row = autoincrement t + 1 /\
         col_created_at row = now w /\
         col_sleep row = (if math.IsNaN sleep then None else Some sleep) /\
         col_study_hours row =
           (if math.IsNaN studyHours then None else Some studyHours) /\
         col_deadlines row = deadlines /\
         col_mood row = mood /\
         col_stress row = stress /\
         col_exercise row = exercise /\
         col_score row = (if math.IsNaN s then None else Some s) /\
         col_level row = level (category s) /\
         (snd (ParseFloat (FormValue r "sleep")) = Some ErrSyntax ->
            sleep = 0%float /\ col_sleep row = Some 0%float /\
            nth 8 args (Str "") = Float 0) /\
         (snd (ParseFloat (FormValue r "study")) = Some ErrSyntax ->
            studyHours = 0%float /\ col_study_hours row = Some 0%float) /\
         (snd (Atoi (FormValue r "deadlines")) = Some ErrSyntax ->
            deadlines = 0 /\ col_deadlines row = 0 /\
            nth 9 args (Str "") = Int 0) /\
         (snd (Atoi (FormValue r "mood")) = Some ErrSyntax ->
            mood = 0 /\ col_mood row = 0) /\
         (snd (Atoi (FormValue r "stress")) = Some ErrSyntax ->
            stress = 0 /\ col_stress row = 0 /\
            nth 10 args (Str "") = Int 0)).
Proof.
  intros r w HM sleep studyHours deadlines mood stress exercise s.
  rewrite (handleCalculate_POST r w HM).
  fold sleep studyHours deadlines mood stress exercise.
  unfold calculate, db_Exec, next_fault. fold s. split.
  - destruct (faults w) as [| [err |] fs]; cbn [hd entries with_faults].
    + destruct (entries w) as [t |]; [left; reflexivity |].
      right. exists no_such_table. split; [reflexivity |]. right. auto.
    + right. exists err. split; [reflexivity |]. left. reflexivity.
    + destruct (entries w) as [t |]; [left; reflexivity |].
      right. exists no_such_table. split; [reflexivity |]. right. auto.
  - intros t Ht Hf.
    assert (E : (match faults w with
                 | [] => (None, w)
                 | f :: fs => (f, with_faults w fs)
                 end) = (None, with_faults w (tl (faults w)))).
    { destruct w as [e n d fs]. cbn [faults hd] in *.
      destruct fs as [| f fs]; [reflexivity |]. cbn in Hf. subst f. reflexivity. }
    rewrite E. cbn [entries with_faults now]. rewrite Ht.
    cbn [fst snd entries with_entries insert_row].
    eexists. eexists. split; [reflexivity |]. cbn [nth].
    do 5 (split; [reflexivity |]).
    split; [reflexivity |]. cbn [col_id col_created_at col_sleep col_study_hours col_deadlines col_mood
      col_stress col_exercise col_score col_level v_sleep v_study_hours v_deadlines
      v_mood v_stress v_exercise v_score v_level]. unfold sql_real.
    do 10 (split; [reflexivity |]).
    split; [| split; [| split; [| split]]].
    + intros H. pose proof (ParseFloat_ErrSyntax _ H) as Z0. fold sleep in Z0.
      rewrite Z0. repeat split.
    + intros H. pose proof (ParseFloat_ErrSyntax _ H) as Z0. fold studyHours in Z0.
      rewrite Z0. repeat split.
    + intros H. pose proof (Atoi_ErrSyntax _ H) as Z0. fold deadlines in Z0.
      rewrite Z0. repeat split.
    + intros H. pose proof (Atoi_ErrSyntax _ H) as Z0. fold mood in Z0.
      rewrite Z0. repeat split.
    + intros H. pose proof (Atoi_ErrSyntax _ H) as Z0. fold stress in Z0.
      rewrite Z0. repeat split.
Qed.

(** C8.  Two submissions that differ in the mood field only get the same
    answer, score and level in it, and leave tables that agree in every
    column but mood: mood is parsed and stored, and read by neither the
    formula nor the classification. *)
Theorem mood_does_not_count :
  forall (r1 r2 : Request) (w : World),
    Method r1 = Method r2 ->
    (forall name, name <> "mood" -> FormValue r1 name = FormValue r2 name) ->
    fst (handleCalculate r1 w) = fst (handleCalculate r2 w) /\
    rows_but_mood (snd (handleCalculate r1 w)) =
      rows_but_mood (snd (handleCalculate r2 w)) /\
    (forall t, Method r1 = "POST" -> entries w = Some t ->
       hd None (faults w) = None ->
       option_map col_mood
         (option_map (fun t' => last (rows t') (sample_row 0 0 None))
            (entries (snd (handleCalculate r1 w)))) =
       Some (fst (Atoi (FormValue r1 "mood")))).
Proof.
  intros r1 r2 w HM HF.
  assert (E : forall mood1 mood2 sleep studyHours deadlines stress exercise,
             fst (calculate sleep studyHours deadlines mood1 stress exercise w) =
             fst (calculate sleep studyHours deadlines mood2 stress exercise w) /\
             rows_but_mood (snd (calculate sleep studyHours deadlines mood1 stress exercise w)) =
             rows_but_mood (snd (calculate sleep studyHours deadlines mood2 stress exercise w))).
  { intros. unfold calculate, db_Exec.
    destruct (next_fault w) as [[err |] w1]; [split; reflexivity |].
    destruct (entries w1) as [t |]; [| split; reflexivity].
    split; [reflexivity |]. unfold rows_but_mood, insert_row. cbn.
    rewrite !map_app. reflexivity. }
  split; [| split].
  - unfold handleCalculate. rewrite HM.
    destruct (negb (Method r2 =? "POST")%string); [reflexivity |].
    rewrite !(HF "sleep"), !(HF "study"), !(HF "deadlines"), !(HF "stress"),
      !(HF "exercise") by discriminate.
    apply E.
  - unfold handleCalculate. rewrite HM.
    destruct (negb (Method r2 =? "POST")%string); [reflexivity |].
    rewrite !(HF "sleep"), !(HF "study"), !(HF "deadlines"), !(HF "stress"),
      !(HF "exercise") by discriminate.
    apply E.
  - intros t HP Ht Hf. rewrite (handleCalculate_POST r1 w HP).
    destruct (calculate_persists (fst (ParseFloat (FormValue r1 "sleep")))
                (fst (ParseFloat (FormValue r1 "study")))
                (fst (Atoi (FormValue r1 "deadlines")))
                (fst (Atoi (FormValue r1 "mood")))
                (fst (Atoi (FormValue r1 "stress")))
                (FormValue r1 "exercise" =? "on")%string w t Ht Hf) as [_ C].
    rewrite C. cbn. rewrite last_last. reflexivity.
Qed.

End HandleCalculate.

(** [not_POST_is_rejected] for a GET, with the reference parsers. *)
Lemma not_POST_is_rejected_witness :
  status (fst (handleCalculate GET_calculate sample_world)) = 405 /\
  snd (handleCalculate GET_calculate sample_world) = sample_world.
Proof.
  apply (not_POST_is_rejected GET_calculate sample_world). discriminate.
Defined.

(** [malformed_field_counts_as_zero] for a POST in which all five numeric
    fields are malformed: all five count as 0, the answer is 200 and the
    fourth row is stored. *)
Lemma malformed_field_counts_as_zero_witness :
  exists args row,
    fst (handleCalculate POST_malformed sample_world) =
      {| status := 200;
         header := [("Content-Type", "text/html"); ("HX-Trigger", "newEntry")];
         resp_body := Fragment args |} /\
    nth 4 args (Str "") = Float 54 /\
    nth 6 args (Str "") = Str "🟡 At Risk" /\
    nth 8 args (Str "") = Float 0 /\
    nth 9 args (Str "") = Int 0 /\
    nth 10 args (Str "") = Int 0 /\
    entries (snd (handleCalculate POST_malformed sample_world)) =
      Some {| rows := [ sample_row 1 1700000000 (Some 42%float);
                        sample_row 2 1700000060 None;
                        sample_row 3 1700000120 (Some 58%float);
                        row ];
              autoincrement := 4 |} /\
    col_id row = 4 /\ col_created_at row = 1700000180 /\
    col_sleep row = Some 0%float /\ col_study_hours row = Some 0%float /\
    col_deadlines row = 0 /\ col_mood row = 0 /\ col_stress row = 0 /\
    col_exercise row = true /\
    col_score row = Some 54%float /\ col_level row = "🟡 At Risk".
Proof.
  destruct (malformed_field_counts_as_zero POST_malformed sample_world eq_refl)
    as [_ H].
  destruct (H _ eq_refl eq_refl)
    as (args & row & R & A4 & A6 & A8 & A9 & A10 & T & I1 & I2 & C1 & C2 & C3 & C4 & C5 &
        C6 & C7 & C8 & M1 & M2 & M3 & M4 & M5).
  destruct (M1 eq_refl) as (_ & S1 & S8). destruct (M2 eq_refl) as (_ & S2).
  destruct (M3 eq_refl) as (_ & S3 & S9). destruct (M4 eq_refl) as (_ & S4).
  destruct (M5 eq_refl) as (_ & S5 & S10).
  exists args, row.
  split; [exact R |]. split; [exact A4 |]. split; [exact A6 |].
  split; [exact S8 |]. split; [exact S9 |]. split; [exact S10 |].
  split; [exact T |].
  split; [exact I1 |]. split; [exact I2 |].
  split; [exact S1 |]. split; [exact S2 |]. split; [exact S3 |].
  split; [exact S4 |]. split; [exact S5 |]. split; [exact C6 |].
  split; [exact C7 | exact C8].
Defined.

Lemma POST_mood_but_mood (m1 m2 name : string) :
  name <> "mood" ->
  FormValue (POST_mood m1) name = FormValue (POST_mood m2) name.
Proof.
  intros Hn. unfold POST_mood, submission. cbn [FormValue find fst snd].
  repeat match goal with
         | |- context [(?k =? name)%string] =>
             destruct (String.eqb_spec k name); [congruence || reflexivity |]
         end.
  reflexivity.
Qed.

(** [mood_does_not_count] for two submissions with mood 1 and mood 5. *)
Lemma mood_does_not_count_witness :
  fst (handleCalculate (POST_mood "1") sample_world) =
    fst (handleCalculate (POST_mood "5") sample_world) /\
  rows_but_mood (snd (handleCalculate (POST_mood "1") sample_world)) =
    rows_but_mood (snd (handleCalculate (POST_mood "5") sample_world)).
Proof.
  destruct (mood_does_not_count (POST_mood "1") (POST_mood "5") sample_world
              eq_refl (POST_mood_but_mood "1" "5")) as (H1 & H2 & _).
  split; assumption.
Defined.

(** ** handleChartData *)

Lemma scan_rows_decoded (rs : list (Z * option float)) :
  forall labels data,
    scan_rows rs labels data =
      ((labels ++ map (fun p => Format_15_04 (fst p)) (decoded rs))%list,
       (data ++ map snd (decoded rs))%list).
Proof.
  induction rs as [| r rs IH]; intros labels data; cbn [scan_rows decoded flat_map].
  - rewrite !app_nil_r. reflexivity.
  - fold (decoded rs). destruct (Scan r) as [[t s] |].
    + rewrite IH. cbn [map app fst snd]. rewrite <- !app_assoc. reflexivity.
    + rewrite IH. reflexivity.
Qed.

(** C6.  Whatever the store holds, when /history-chart answers with a JSON
    object its labels and data have the same length.  A row that does not
    decode is left out of both, and the rows that do decode are still
    returned: with the table in place, the storage healthy and the decoded
    scores finite (as every score written by handleCalculate is) the answer
    is 200 with exactly the decoded rows of the query, in order. *)
Theorem chart_labels_and_data_agree :
  forall w : World,
    (forall c, resp_body (fst (handleChartData w)) = JSON c ->
       List.length (Labels c) = List.length (Data c)) /\
    (forall t, entries w = Some t -> hd None (faults w) = None ->
       let ds := decoded (RecentSeries 10 t) in
       forallb json_number (map snd ds) = true ->
       status (fst (handleChartData w)) = 200 /\
       resp_body (fst (handleChartData w)) =
         JSON {| Labels := map (fun p => Format_15_04 (fst p)) ds;
                 Data := map snd ds |}).
Proof.
  intros w. split.
  - intros c. unfold handleChartData.
    destruct (db_Query w) as [[err | rs] w']; [discriminate |].
    rewrite scan_rows_decoded. cbn [app].
    destruct (forallb json_number (map snd (decoded rs))); [| discriminate].
    cbn. intros H. inversion H. cbn. rewrite !length_map. reflexivity.
  - intros t Ht Hf ds Hj. unfold handleChartData, db_Query.
    rewrite (next_fault_none w Hf).
    cbn [entries with_faults]. rewrite Ht.
    rewrite scan_rows_decoded. cbn [app]. fold ds. rewrite Hj.
    split; reflexivity.
Qed.

(** [chart_labels_and_data_agree] on the sample world, whose second row has
    a NULL score: two labels, two scores. *)
Lemma chart_labels_and_data_agree_witness :
  resp_body (fst (handleChartData sample_world)) =
    JSON {| Labels := ["22:13"; "22:15"]; Data := [42%float; 58%float] |} /\
  List.length (Labels {| Labels := ["22:13"; "22:15"];
                         Data := [42%float; 58%float] |}) =
  List.length (Data {| Labels := ["22:13"; "22:15"];
                       Data := [42%float; 58%float] |}).
Proof.
  pose proof (chart_labels_and_data_agree sample_world) as [H1 H2].
  destruct (H2 _ eq_refl eq_refl eq_refl) as [_ H3].
  split; [exact H3 | exact (H1 _ H3)].
Defined.

(** ** ORDER BY and LIMIT *)

Section OrderByFacts.

Variable A : Type.
Variable key : A -> Z.
Variable before : Z -> Z -> bool.
Hypothesis before_total : forall a b, before a b = true \/ before b a = true.
Hypothesis before_trans :
  forall a b c, before a b = true -> before b c = true -> before a c = true.

Let R (x y : A) : Prop := before (key x) (key y) = true.

Lemma insert_by_Permutation (x : A) (l : list A) :
  Permutation (insert_by key before x l) (x :: l).
Proof.
  induction l as [| y l IH]; cbn [insert_by].
  - apply Permutation_refl.
  - destruct (before (key x) (key y)).
    + apply Permutation_refl.
    + eapply Permutation_trans; [apply perm_skip, IH | apply perm_swap].
Qed.

Lemma order_by_Permutation (l : list A) :
  Permutation (order_by key before l) l.
Proof.
  induction l as [| x l IH]; cbn [order_by fold_right].
  - apply Permutation_refl.
  - eapply Permutation_trans; [apply insert_by_Permutation |].
    apply perm_skip, IH.
Qed.

Lemma insert_by_sorted (x : A) (l : list A) :
  StronglySorted R l -> StronglySorted R (insert_by key before x l).
Proof.
  induction 1 as [| y l Hs IH Hy]; cbn [insert_by].
  - constructor; constructor.
  - destruct (before (key x) (key y)) eqn:E.
    + constructor; [constructor; assumption |].
      constructor; [exact E |].
      eapply Forall_impl; [| exact Hy].
      intros z Hz. exact (before_trans _ _ _ E Hz).
    + constructor; [exact IH |].
      assert (Hyx : R y x).
      { destruct (before_total (key x) (key y)) as [H | H];
          [congruence | exact H]. }
      eapply Permutation_Forall;
        [apply Permutation_sym, insert_by_Permutation |].
      constructor; assumption.
Qed.

Lemma order_by_sorted (l : list A) : StronglySorted R (order_by key before l).
Proof.
  induction l as [| x l IH]; cbn [order_by fold_right].
  - constructor.
  - apply insert_by_sorted, IH.
Qed.

(** In a sorted list the first [n] come before all the others. *)
Lemma sorted_firstn_skipn (l : list A) :
  StronglySorted R l ->
  forall n a b, In a (firstn n l) -> In b (skipn n l) -> R a b.
Proof.
  induction 1 as [| x l Hs IH Hx]; intros n a b Ha Hb.
  - rewrite firstn_nil in Ha. contradiction.
  - destruct n as [| n]; [contradiction |].
    cbn [firstn skipn] in Ha, Hb. destruct Ha as [<- | Ha].
    + rewrite Forall_forall in Hx. apply Hx.
      rewrite <- (firstn_skipn n l). apply in_or_app. right. exact Hb.
    + exact (IH n a b Ha Hb).
Qed.

End OrderByFacts.

Lemma ASC_total (a b : Z) : ASC a b = true \/ ASC b a = true.
Proof. unfold ASC. rewrite !Z.leb_le. lia. Qed.

Lemma ASC_trans (a b c : Z) : ASC a b = true -> ASC b c = true -> ASC a c = true.
Proof. unfold ASC. rewrite !Z.leb_le. lia. Qed.

Lemma DESC_total (a b : Z) : DESC a b = true \/ DESC b a = true.
Proof. unfold DESC. rewrite !Z.geb_le. lia. Qed.

Lemma DESC_trans (a b c : Z) :
  DESC a b = true -> DESC b c = true -> DESC a c = true.
Proof. unfold DESC. rewrite !Z.geb_le. lia. Qed.

(** What RecentSeries gives for any limit. *)
Lemma RecentSeries_spec (limit : nat) (t : Table) :
  List.length (RecentSeries limit t) = Nat.min limit (List.length (rows t)) /\
  StronglySorted (fun a b => fst a <= fst b) (RecentSeries limit t) /\
  exists older,
    Permutation (RecentSeries limit t ++ older) (series t) /\
    forall a b, In a (RecentSeries limit t) -> In b older -> fst b <= fst a.
Proof.
  unfold RecentSeries. fold (series t).
  set (desc := order_by fst DESC (series t)).
  assert (Pd : Permutation desc (series t)) by apply order_by_Permutation.
  assert (Sd : StronglySorted (fun x y => DESC (fst x) (fst y) = true) desc)
    by (apply order_by_sorted; [apply DESC_total | apply DESC_trans]).
  assert (Pa : Permutation (order_by fst ASC (firstn limit desc)) (firstn limit desc))
    by apply order_by_Permutation.
  split; [| split].
  - rewrite (Permutation_length Pa), length_firstn, (Permutation_length Pd).
    unfold series. rewrite length_map. reflexivity.
  - pose proof (order_by_sorted _ fst ASC ASC_total ASC_trans (firstn limit desc)) as Sa.
    eapply StronglySorted_ind with (P := StronglySorted (fun a b => fst a <= fst b));
      [constructor | | exact Sa].
    intros a l _ IH Ha. constructor; [exact IH |].
    eapply Forall_impl; [| exact Ha].
    intros b Hb. apply Z.leb_le. exact Hb.
  - exists (skipn limit desc). split.
    + eapply Permutation_trans; [apply Permutation_app_tail, Pa |].
      rewrite firstn_skipn. exact Pd.
    + intros a b Ha Hb.
      apply (Permutation_in _ Pa) in Ha.
      pose proof (sorted_firstn_skipn _ fst DESC desc Sd limit a b Ha Hb) as H.
      unfold DESC in H. apply Z.geb_le in H. exact H.
Qed.

(** Twelve rows inserted at seconds 1 to 12, out of order in the table: the
    ten latest come back, oldest first. *)
Example RecentSeries_of_twelve :
  map fst
    (RecentSeries 10
       {| rows := map (fun c => sample_row c c (Some 50%float))
                    [5; 12; 1; 7; 3; 9; 11; 2; 8; 4; 10; 6];
          autoincrement := 12 |}) =
  [3; 4; 5; 6; 7; 8; 9; 10; 11; 12].
Proof. reflexivity. Qed.

(** *** Ties

    CURRENT_TIMESTAMP counts seconds, so rows can share a timestamp. *)

Section Ties.

Variable A : Type.
Variable key : A -> Z.

Lemma order_by_ASC_sorted (l : list A) :
  StronglySorted (fun a b => key a <= key b) l -> order_by key ASC l = l.
Proof.
  induction 1 as [| x l Hs IH Hx]; [reflexivity |].
  unfold order_by. cbn [fold_right]. fold (order_by key ASC l). rewrite IH.
  destruct l as [| y l']; [reflexivity |]. cbn [insert_by]. unfold ASC.
  inversion Hx as [| ? ? Hy _]; subst.
  replace (key x <=? key y) with true by (symmetry; apply Z.leb_le; exact Hy).
  reflexivity.
Qed.

(** Two insertions of different keys commute. *)
Lemma insert_by_ASC_comm (x a : A) (l : list A) :
  key x < key a ->
  insert_by key ASC a (insert_by key ASC x l) =
  insert_by key ASC x (insert_by key ASC a l).
Proof.
  intros H. induction l as [| y l IH]; cbn [insert_by]; unfold ASC.
  - replace (key a <=? key x) with false by (symmetry; apply Z.leb_gt; lia).
    replace (key x <=? key a) with true by (symmetry; apply Z.leb_le; lia).
    reflexivity.
  - destruct (Z.leb_spec (key x) (key y)) as [Hx | Hx];
      destruct (Z.leb_spec (key a) (key y)) as [Ha | Ha]; cbn [insert_by]; unfold ASC.
    + replace (key a <=? key x) with false by (symmetry; apply Z.leb_gt; lia).
      replace (key x <=? key a) with true by (symmetry; apply Z.leb_le; lia).
      replace (key a <=? key y) with true by (symmetry; apply Z.leb_le; lia).
      reflexivity.
    + replace (key a <=? key x) with false by (symmetry; apply Z.leb_gt; lia).
      replace (key x <=? key y) with true by (symmetry; apply Z.leb_le; lia).
      replace (key a <=? key y) with false by (symmetry; apply Z.leb_gt; lia).
      reflexivity.
    + lia.
    + replace (key a <=? key y) with false by (symmetry; apply Z.leb_gt; lia).
      replace (key x <=? key y) with false by (symmetry; apply Z.leb_gt; lia).
      fold ASC. rewrite IH. reflexivity.
Qed.

Lemma order_by_ASC_insert_DESC (x : A) (l : list A) :
  order_by key ASC (insert_by key DESC x l) =
  insert_by key ASC x (order_by key ASC l).
Proof.
  induction l as [| y l IH]; [reflexivity |]. cbn [insert_by]. unfold DESC at 1.
  rewrite Z.geb_leb. destruct (Z.leb_spec (key y) (key x)) as [H | H].
  - reflexivity.
  - unfold order_by at 1. cbn [fold_right]. fold (order_by key ASC (insert_by key DESC x l)).
    rewrite IH. unfold order_by at 2. cbn [fold_right]. fold (order_by key ASC l).
    apply insert_by_ASC_comm. exact H.
Qed.

(** Sorting down and then up is sorting up: ties keep their order. *)
Lemma order_by_ASC_DESC (l : list A) :
  order_by key ASC (order_by key DESC l) = order_by key ASC l.
Proof.
  induction l as [| x l IH]; [reflexivity |].
  unfold order_by at 2. cbn [fold_right]. fold (order_by key DESC l).
  rewrite order_by_ASC_insert_DESC, IH. reflexivity.
Qed.

Lemma insert_by_DESC_skip (a : A) (l1 l2 : list A) :
  Forall (fun y => key a < key y) l1 ->
  insert_by key DESC a (l1 ++ l2) = (l1 ++ insert_by key DESC a l2)%list.
Proof.
  induction 1 as [| y l1 Hy Hl IH]; [reflexivity |].
  cbn [app insert_by]. unfold DESC at 1.
  replace (key a >=? key y) with false
    by (symmetry; rewrite Z.geb_leb; apply Z.leb_gt; exact Hy).
  rewrite IH. reflexivity.
Qed.

(** Rows strictly older than all of [l2] come after them, sorted down. *)
Lemma order_by_DESC_app (l1 l2 : list A) :
  (forall a b, In a l1 -> In b l2 -> key a < key b) ->
  order_by key DESC (l1 ++ l2) =
  (order_by key DESC l2 ++ order_by key DESC l1)%list.
Proof.
  intros H. induction l1 as [| a l1 IH]; cbn [app].
  - rewrite app_nil_r. reflexivity.
  - unfold order_by at 1. cbn [fold_right]. fold (order_by key DESC (l1 ++ l2)).
    rewrite IH by (intros a' b Ha Hb; apply H; [right; exact Ha | exact Hb]).
    rewrite insert_by_DESC_skip; [reflexivity |].
    eapply Permutation_Forall; [apply Permutation_sym, order_by_Permutation |].
    apply Forall_forall. intros b Hb. apply H; [left; reflexivity | exact Hb].
Qed.

End Ties.

(** Where every other row is strictly older than the rows inserted last,
    the query returns these, sorted by their timestamps. *)
Lemma RecentSeries_cut (limit : nat) (t : Table) :
  (forall a b, In a (earlier_rows limit t) -> In b (last_rows limit t) ->
               fst a < fst b) ->
  RecentSeries limit t = order_by fst ASC (last_rows limit t).
Proof.
  unfold last_rows, earlier_rows, RecentSeries. fold (series t).
  assert (Ln : List.length (series t) = List.length (rows t))
    by (unfold series; apply length_map).
  set (k := (List.length (rows t) - limit)%nat).
  set (old := firstn k (series t)). set (new := skipn k (series t)).
  intros H.
  rewrite <- (firstn_skipn k (series t)) at 1. fold old new.
  rewrite (order_by_DESC_app _ fst old new H).
  assert (Lnew : List.length (order_by fst DESC new) = List.length new)
    by (apply Permutation_length, order_by_Permutation).
  assert (Lk : List.length new = (List.length (rows t) - k)%nat)
    by (unfold new; rewrite length_skipn, Ln; reflexivity).
  assert (F : firstn limit (order_by fst DESC new ++ order_by fst DESC old) =
              order_by fst DESC new).
  { rewrite firstn_app, Lnew.
    destruct (Nat.le_gt_cases limit (List.length (rows t))) as [Hle | Hgt].
    - replace (limit - List.length new)%nat with 0%nat by lia.
      rewrite firstn_O, app_nil_r. apply firstn_all2. lia.
    - assert (E : old = []) by (unfold old; replace k with 0%nat by lia; reflexivity).
      rewrite E. cbn [order_by fold_right].
      rewrite firstn_nil, app_nil_r. apply firstn_all2. lia. }
  rewrite F. apply order_by_ASC_DESC.
Qed.

Lemma RecentSeries_last_rows (limit : nat) (t : Table) :
  (forall a b, In a (earlier_rows limit t) -> In b (last_rows limit t) ->
               fst a < fst b) ->
  Permutation (RecentSeries limit t) (last_rows limit t) /\
  (StronglySorted (fun a b => fst a <= fst b) (last_rows limit t) ->
   RecentSeries limit t = last_rows limit t).
Proof.
  intros H. rewrite (RecentSeries_cut limit t H). split.
  - apply order_by_Permutation.
  - apply order_by_ASC_sorted.
Qed.

(** C3.  For every state of the table, RecentSeries(10), the query of
    /history-chart, returns at most 10 (timestamp, score) pairs, as many
    as the table has up to 10, in non-decreasing order of creation
    timestamp, taken from the table, and no row left out was created at
    a later timestamp than a row returned.  They are exactly the 10 rows
    inserted last (all rows, if fewer) whenever every other row has a
    strictly earlier timestamp than each of them, that is, unless a tie
    of timestamps straddles the cut; and they come in the order of their
    insertion if that is the order of their timestamps. *)
Theorem recent_series_is_last_ten :
  forall t : Table,
    (List.length (RecentSeries 10 t) <= 10)%nat /\
    List.length (RecentSeries 10 t) = Nat.min 10 (List.length (rows t)) /\
    StronglySorted (fun a b => fst a <= fst b) (RecentSeries 10 t) /\
    (exists older,
       Permutation (RecentSeries 10 t ++ older) (series t) /\
       forall a b, In a (RecentSeries 10 t) -> In b older -> fst b <= fst a) /\
    ((forall a b, In a (earlier_rows 10 t) -> In b (last_rows 10 t) ->
                  fst a < fst b) ->
     Permutation (RecentSeries 10 t) (last_rows 10 t) /\
     (StronglySorted (fun a b => fst a <= fst b) (last_rows 10 t) ->
      RecentSeries 10 t = last_rows 10 t)).
Proof.
  intros t. destruct (RecentSeries_spec 10 t) as (L & S & P).
  split; [rewrite L; apply Nat.le_min_l |].
  split; [exact L |]. split; [exact S |]. split; [exact P |].
  apply RecentSeries_last_rows.
Qed.

Lemma recent_series_is_last_ten_witness :
  RecentSeries 10 spaced_table = last_rows 10 spaced_table /\
  map fst (RecentSeries 10 spaced_table) =
    [1700000002; 1700000002; 1700000003; 1700000004; 1700000005;
     1700000006; 1700000007; 1700000008; 1700000009; 1700000010].
Proof.
  assert (E : RecentSeries 10 spaced_table = last_rows 10 spaced_table).
  { apply (proj2 (proj2 (proj2 (proj2 (recent_series_is_last_ten spaced_table))))).
    - intros a b Ha Hb.
      assert (F : Forall (fun a => Forall (fun b => fst a < fst b)
                                     (last_rows 10 spaced_table))
                         (earlier_rows 10 spaced_table))
        by (vm_compute; repeat constructor).
      rewrite Forall_forall in F. specialize (F a Ha).
      rewrite Forall_forall in F. exact (F b Hb).
    - vm_compute. repeat constructor; discriminate. }
  split; [exact E |]. rewrite E. reflexivity.
Defined.

(** Eleven rows of one second: the query returns the ten inserted first;
    the row inserted last, the one of score 11, is not among them. *)
Lemma recent_series_drops_latest_of_a_tie :
  RecentSeries 10 same_second_table = firstn 10 (series same_second_table) /\
  RecentSeries 10 same_second_table <> last_rows 10 same_second_table /\
  ~ In (1700000000, Some 11%float) (RecentSeries 10 same_second_table) /\
  In (1700000000, Some 11%float) (last_rows 10 same_second_table).
Proof.
  assert (E : RecentSeries 10 same_second_table =
              firstn 10 (series same_second_table)) by (vm_compute; reflexivity).
  split; [exact E |]. split; [| split].
  - intros H.
    apply (f_equal (fun l => match l with
                             | (_, Some x) :: _ => (x =? 1)%float
                             | _ => false
                             end)) in H.
    vm_compute in H. discriminate H.
  - rewrite E. intros H.
    assert (F : Forall (fun p => match snd p with
                                 | Some x => (x =? 11)%float = false
                                 | None => True
                                 end) (firstn 10 (series same_second_table)))
      by (vm_compute; repeat constructor).
    rewrite Forall_forall in F. specialize (F _ H). cbn [snd] in F.
    vm_compute in F. discriminate F.
  - vm_compute. do 9 right. left. reflexivity.
Qed.

(** ** Rounding to a binary64

    [binary_round_aux] shifts the mantissa right, keeping a round and a
    sticky bit, and rounds to nearest, ties to even.  The lemmas below read
    that as arithmetic: the result is [RNE] of the mantissa, its position on
    the line is [Rnd] of the exact position, and [Rnd] keeps the order. *)

Lemma iter_pos_nat {A : Type} (f : A -> A) (p : positive) (x : A) :
  iter_pos f p x = Nat.iter (Pos.to_nat p) f x.
Proof.
  revert x. induction p as [p IH | p IH |]; intros x; cbn [iter_pos].
  - rewrite !IH, Pos2Nat.inj_xI.
    replace (2 * Pos.to_nat p)%nat with (Pos.to_nat p + Pos.to_nat p)%nat by lia.
    rewrite Nat.iter_succ_r, Nat.iter_add. reflexivity.
  - rewrite !IH, Pos2Nat.inj_xO.
    replace (2 * Pos.to_nat p)%nat with (Pos.to_nat p + Pos.to_nat p)%nat by lia.
    rewrite Nat.iter_add. reflexivity.
  - reflexivity.
Qed.

Lemma shr_1_nonneg (q : Z) (r s : bool) :
  0 <= q ->
  shr_1 (Build_shr_record q r s) = Build_shr_record (q / 2) (Z.odd q) (r || s).
Proof.
  intros Hq. destruct q as [| [p | p |] |]; cbn [shr_1]; try lia.
  - reflexivity.
  - f_equal. rewrite Pos2Z.inj_xI.
    apply (Z.div_unique_pos _ _ _ 1); lia.
  - f_equal. rewrite Pos2Z.inj_xO.
    apply (Z.div_unique_pos _ _ _ 0); lia.
  - reflexivity.
Qed.

Lemma shr_inv_step (m k : Z) (mrs : shr_record) :
  0 <= m -> 0 <= k -> shr_inv m k mrs -> shr_inv m (k + 1) (shr_1 mrs).
Proof.
  intros Hm Hk [Hq Hl]. destruct mrs as [q r s]. cbn [shr_m shr_r shr_s] in *.
  assert (P : 0 < 2 ^ k) by (apply Z.pow_pos_nonneg; lia).
  assert (Hq0 : 0 <= q) by (subst q; apply Z.div_pos; lia).
  rewrite (shr_1_nonneg q r s Hq0). unfold shr_inv. cbn [shr_m shr_r shr_s].
  rewrite Z.pow_add_r, Z.pow_1_r by lia.
  pose proof (Z.div_mod m (2 ^ k) ltac:(lia)) as D.
  pose proof (Z.mod_pos_bound m (2 ^ k) P) as B.
  pose proof (Z.div_mod q 2 ltac:(lia)) as D2.
  pose proof (Z.mod_pos_bound q 2 ltac:(lia)) as B2.
  rewrite <- Hq in D.
  assert (Hodd : Z.odd q = negb (q mod 2 =? 0)).
  { rewrite Zmod_odd. destruct (Z.odd q); reflexivity. }
  set (q2 := q / 2) in *. set (b := q mod 2) in *. set (rem := m mod 2 ^ k) in *.
  assert (Hdiv : m / (2 ^ k * 2) = q2).
  { symmetry. apply (Z.div_unique_pos _ _ _ (b * 2 ^ k + rem)); nia. }
  assert (Hmod : m mod (2 ^ k * 2) = b * 2 ^ k + rem).
  { symmetry. apply (Z.mod_unique_pos _ _ q2); nia. }
  rewrite Hdiv, Hmod. split; [reflexivity |].
  rewrite Hodd. destruct (Z.eqb_spec b 0) as [E | E]; cbn [negb].
  - rewrite E. destruct r, s; cbn [orb]; lia.
  - assert (b = 1) by lia. subst b. destruct r, s; cbn [orb]; lia.
Qed.

Lemma shr_inv_iter (m : Z) (k : nat) :
  0 <= m ->
  shr_inv m (Z.of_nat k) (Nat.iter k shr_1 (Build_shr_record m false false)).
Proof.
  intros Hm. induction k as [| k IH].
  - cbn. unfold shr_inv. cbn. rewrite Z.div_1_r, Z.mod_1_r. auto.
  - rewrite Nat2Z.inj_succ, <- Z.add_1_r. cbn [Nat.iter].
    apply shr_inv_step; [exact Hm | lia | exact IH].
Qed.

(** Shifting [m] right by [n > 0] bits and rounding is [RNE m n]. *)
Lemma shr_round (m : Z) (n : positive) :
  0 <= m ->
  let mrs := iter_pos shr_1 n (Build_shr_record m false false) in
  round_nearest_even (shr_m mrs) (loc_of_shr_record mrs) = RNE m (Zpos n).
Proof.
  intros Hm mrs. subst mrs. rewrite iter_pos_nat.
  pose proof (shr_inv_iter m (Pos.to_nat n) Hm) as [Hq Hl].
  rewrite positive_nat_Z in Hq, Hl.
  destruct (Nat.iter _ _ _) as [q r s]. cbn [shr_m shr_r shr_s] in *.
  unfold RNE. cbv zeta. rewrite <- Hq.
  assert (P : 0 < 2 ^ Zpos n) by (apply Z.pow_pos_nonneg; lia).
  destruct r, s; cbn [loc_of_shr_record round_nearest_even].
  - replace (2 ^ Zpos n <? _) with true by (symmetry; apply Z.ltb_lt; lia).
    reflexivity.
  - replace (2 ^ Zpos n <? _) with false by (symmetry; apply Z.ltb_ge; lia).
    replace (2 ^ Zpos n =? _) with true by (symmetry; apply Z.eqb_eq; lia).
    cbn [orb andb]. rewrite <- Z.negb_even. destruct (Z.even q); reflexivity.
  - replace (2 ^ Zpos n <? _) with false by (symmetry; apply Z.ltb_ge; lia).
    replace (2 ^ Zpos n =? _) with false by (symmetry; apply Z.eqb_neq; lia).
    reflexivity.
  - replace (2 ^ Zpos n <? _) with false by (symmetry; apply Z.ltb_ge; lia).
    replace (2 ^ Zpos n =? _) with false by (symmetry; apply Z.eqb_neq; lia).
    reflexivity.
Qed.

Lemma fexp_64 (k : Z) : fexp prec emax k = Z.max (k - 53) (-1074).
Proof. reflexivity. Qed.

Lemma Zdigits2_nonneg (m : Z) : 0 <= Zdigits2 m.
Proof. destruct m; cbn; lia. Qed.

Lemma Zdigits2_bounds (m : Z) :
  0 < m -> 2 ^ (Zdigits2 m - 1) <= m < 2 ^ Zdigits2 m.
Proof.
  destruct m as [| p | p]; try lia. intros _. apply digits2_pos_bounds.
Qed.

Lemma Zdigits2_pos (m : Z) : 0 < m -> 0 < Zdigits2 m.
Proof. destruct m; cbn; lia. Qed.

(** The number of digits is fixed by the power of two below and above. *)
Lemma Zdigits2_unique (m d : Z) :
  2 ^ (d - 1) <= m < 2 ^ d -> 0 < m -> Zdigits2 m = d.
Proof.
  intros [Hlo Hhi] Hm. pose proof (Zdigits2_bounds m Hm) as [Blo Bhi].
  pose proof (Zdigits2_pos m Hm) as Dp.
  assert (0 < d).
  { destruct d as [| d | d]; [cbn in Hhi; lia | lia |].
    rewrite Z.pow_neg_r in Hhi by lia. lia. }
  destruct (Z.lt_trichotomy (Zdigits2 m) d) as [Hlt | [Heq | Hgt]]; [| exact Heq |].
  - assert (2 ^ Zdigits2 m <= 2 ^ (d - 1)) by (apply Z.pow_le_mono_r; lia). lia.
  - assert (2 ^ d <= 2 ^ (Zdigits2 m - 1)) by (apply Z.pow_le_mono_r; lia). lia.
Qed.

Lemma Zdigits2_le (m d : Z) : 0 <= d -> 0 <= m < 2 ^ d -> Zdigits2 m <= d.
Proof.
  intros Hd [Hm Hhi]. destruct (Z.eq_dec m 0) as [-> | Hn]; [cbn; lia |].
  pose proof (Zdigits2_bounds m ltac:(lia)) as [Blo _].
  destruct (Z_le_gt_dec (Zdigits2 m) d) as [| Hgt]; [assumption |].
  assert (2 ^ d <= 2 ^ (Zdigits2 m - 1)) by (apply Z.pow_le_mono_r; lia). lia.
Qed.

Lemma RNE_0 (M : Z) : RNE M 0 = M.
Proof.
  unfold RNE. cbn [Z.pow]. change (2 ^ 0) with 1.
  rewrite Z.div_1_r, Z.mod_1_r. reflexivity.
Qed.

Lemma RNE_bounds (M N : Z) :
  0 <= N -> M / 2 ^ N <= RNE M N <= M / 2 ^ N + 1.
Proof.
  intros _. unfold RNE. cbv zeta.
  destruct (_ || _); lia.
Qed.

(** The first shift of [binary_round_aux] and the rounding after it. *)
Lemma shr_fexp_round (m e : Z) :
  0 <= m ->
  let n := fexp prec emax (Zdigits2 m + e) - e in
  0 <= n ->
  let '(mrs, e') := shr_fexp prec emax m e loc_Exact in
  round_nearest_even (shr_m mrs) (loc_of_shr_record mrs) = RNE m n /\ e' = e + n.
Proof.
  intros Hm n Hn. unfold shr_fexp, shr. fold n.
  cbn [shr_record_of_loc].
  destruct n as [| p | p] eqn:E; try lia.
  - cbn. rewrite RNE_0. split; [reflexivity | lia].
  - split; [apply (shr_round m p Hm) | reflexivity].
Qed.

(** A mantissa already in place is not shifted. *)
Lemma shr_fexp_fixed (q E : Z) :
  fexp prec emax (Zdigits2 q + E) <= E ->
  shr_fexp prec emax q E loc_Exact = (Build_shr_record q false false, E).
Proof.
  intros H. unfold shr_fexp, shr. cbn [shr_record_of_loc].
  destruct (fexp prec emax (Zdigits2 q + E) - E) eqn:D; try reflexivity. lia.
Qed.

Lemma pow2_split (a b : Z) : 0 <= a -> 0 <= b -> 2 ^ (a + b) = 2 ^ a * 2 ^ b.
Proof. intros. apply Z.pow_add_r; assumption. Qed.

Lemma valid_finite_intro (s : bool) (p : positive) (E : Z) :
  -1074 <= E <= 971 -> Zpos p < 2 ^ 53 -> (-1074 < E -> 2 ^ 52 <= Zpos p) ->
  valid_binary (S754_finite s p E) = true.
Proof.
  intros HE Hhi Hlo.
  unfold SpecFloat.valid_binary, bounded, canonical_mantissa.
  apply andb_true_iff. split; [| apply Z.leb_le; cbn; lia].
  apply Z.eqb_eq. rewrite fexp_64.
  pose proof (Zdigits2_le (Zpos p) 53 ltac:(lia) ltac:(lia)) as D. cbn [Zdigits2] in D.
  destruct (Z.eq_dec E (-1074)) as [-> | Hn]; [lia |].
  assert (Zpos (digits2_pos p) = 53).
  { apply (Zdigits2_unique (Zpos p) 53); [split; [apply Hlo|]|]; lia. }
  lia.
Qed.

(** [binary_round_aux] on an exact mantissa that needs no left shift: a
    valid float, of the value [RNE] gives, the infinity past the range. *)
Lemma round_aux_value (s : bool) (m : positive) (e : Z) :
  let n := fexp prec emax (Zpos (digits2_pos m) + e) - e in
  0 <= n ->
  let r := binary_round_aux prec emax s (Zpos m) e loc_Exact in
  valid_binary r = true /\ r <> S754_nan /\
  B64_value r =
    cond_Zopp s (Z.min (2 ^ 2098) (RNE (Zpos m) n * 2 ^ (e + n + 1074))).
Proof.
  intros n Hn r. subst r. unfold binary_round_aux.
  pose proof (shr_fexp_round (Zpos m) e ltac:(lia)) as H1.
  cbv zeta in H1. cbn [Zdigits2] in H1. fold n in H1. specialize (H1 Hn).
  destruct (shr_fexp prec emax (Zpos m) e loc_Exact) as [mrs e'].
  destruct H1 as [H1 ->]. rewrite H1. clear H1 mrs.
  assert (HE : e + n = Z.max (Zpos (digits2_pos m) + e - 53) (-1074))
    by (unfold n; rewrite fexp_64; lia).
  pose proof (digits2_pos_bounds m) as [Dlo Dhi].
  set (d := Zpos (digits2_pos m)) in *.
  assert (Pn : 0 < 2 ^ n) by (apply Z.pow_pos_nonneg; lia).
  set (q := Zpos m / 2 ^ n).
  assert (Hq0 : 0 <= q) by (apply Z.div_pos; lia).
  assert (Hq53 : q < 2 ^ 53).
  { apply Z.div_lt_upper_bound; [lia |].
    rewrite <- pow2_split by lia.
    eapply Z.lt_le_trans; [exact Dhi | apply Z.pow_le_mono_r; lia]. }
  assert (Hq52 : -1074 < e + n -> 2 ^ 52 <= q).
  { intros HEn. apply Z.div_le_lower_bound; [lia |].
    rewrite <- pow2_split by lia.
    eapply Z.le_trans; [apply Z.pow_le_mono_r | exact Dlo]; lia. }
  pose proof (RNE_bounds (Zpos m) n Hn) as Bq. fold q in Bq.
  set (q' := RNE (Zpos m) n) in *. set (E := e + n) in *.
  assert (PE : 0 < 2 ^ (E + 1074)) by (apply Z.pow_pos_nonneg; lia).
  destruct (Z.eq_dec q' (2 ^ 53)) as [Etop | Ntop].
  - (* the mantissa overflowed: one more shift *)
    rewrite Etop.
    assert (S2 : shr_fexp prec emax (2 ^ 53) E loc_Exact =
                 (Build_shr_record (2 ^ 52) false false, E + 1)).
    { unfold shr_fexp, shr. rewrite fexp_64.
      change (Zdigits2 (2 ^ 53)) with 54.
      replace (Z.max (54 + E - 53) (-1074) - E) with 1 by lia.
      reflexivity. }
    rewrite S2. cbn [shr_m]. change (2 ^ 52) with (Zpos (2 ^ 52)%positive).
    cbv iota. change (Z.sub emax prec) with 971.
    assert (Hval : 2 ^ 53 * 2 ^ (E + 1074) = 2 ^ 52 * 2 ^ (E + 1 + 1074)).
    { replace (E + 1 + 1074) with (1 + (E + 1074)) by lia.
      rewrite (pow2_split 1) by lia. change (2 ^ 53) with (2 ^ 52 * 2 ^ 1). ring. }
    destruct (Z.leb_spec (E + 1) 971) as [Hle | Hgt].
    + split; [apply valid_finite_intro; cbn; lia |].
      split; [discriminate |]. cbn [B64_value]. f_equal.
      change (Zpos (2 ^ 52)%positive) with (2 ^ 52). rewrite Hval.
      assert (2 ^ (E + 1 + 1074) <= 2 ^ 2045) by (apply Z.pow_le_mono_r; lia).
      change (2 ^ 2098) with (2 ^ 53 * 2 ^ 2045).
      assert (0 < 2 ^ (E + 1 + 1074)) by (apply Z.pow_pos_nonneg; lia).
      hide_pow 2045%Z T. set (X := 2 ^ (E + 1 + 1074)) in *. clear Hval. lia.
    + split; [reflexivity |]. split; [discriminate |]. cbn [B64_value]. f_equal.
      rewrite Hval.
      assert (2 ^ 2046 <= 2 ^ (E + 1 + 1074)) by (apply Z.pow_le_mono_r; lia).
      change (2 ^ 2098) with (2 ^ 52 * 2 ^ 2046).
      hide_pow 2046%Z T. set (X := 2 ^ (E + 1 + 1074)) in *. clear Hval. lia.
  - assert (Hlt : q' < 2 ^ 53) by lia.
    rewrite shr_fexp_fixed.
    2:{ rewrite fexp_64.
        pose proof (Zdigits2_le q' 53 ltac:(lia) ltac:(lia)). lia. }
    cbn [shr_m].
    destruct q' as [| p | p] eqn:Eq'; [| | lia].
    + split; [reflexivity |]. split; [discriminate |].
      cbn [B64_value]. rewrite Z.mul_0_l.
      rewrite Z.min_r by (apply Z.pow_nonneg; lia). destruct s; reflexivity.
    + change (Z.sub emax prec) with 971.
      destruct (Z.leb_spec E 971) as [Hle | Hgt].
      * split; [apply valid_finite_intro; lia |].
        split; [discriminate |]. cbn [B64_value]. f_equal.
        assert (2 ^ (E + 1074) <= 2 ^ 2045) by (apply Z.pow_le_mono_r; lia).
        change (2 ^ 2098) with (2 ^ 53 * 2 ^ 2045).
        hide_pow 2045%Z T. set (X := 2 ^ (E + 1074)) in *. nia.
      * split; [reflexivity |]. split; [discriminate |]. cbn [B64_value]. f_equal.
        assert (2 ^ 2046 <= 2 ^ (E + 1074)) by (apply Z.pow_le_mono_r; lia).
        assert (2 ^ 52 <= Zpos p) by lia.
        change (2 ^ 2098) with (2 ^ 52 * 2 ^ 2046).
        hide_pow 2046%Z T. set (X := 2 ^ (E + 1074)) in *. nia.
Qed.

Lemma RNE_scale (M n k : Z) :
  0 <= n -> 0 <= k -> RNE (M * 2 ^ k) (n + k) = RNE M n.
Proof.
  intros Hn Hk. unfold RNE. cbv zeta.
  assert (Pn : 0 < 2 ^ n) by (apply Z.pow_pos_nonneg; lia).
  assert (Pk : 0 < 2 ^ k) by (apply Z.pow_pos_nonneg; lia).
  rewrite pow2_split by lia.
  rewrite Z.div_mul_cancel_r, Z.mul_mod_distr_r by lia.
  set (q := M / 2 ^ n). set (r := M mod 2 ^ n).
  replace (2 ^ n * 2 ^ k <? 2 * (r * 2 ^ k)) with (2 ^ n <? 2 * r).
  2:{ destruct (Z.ltb_spec (2 ^ n) (2 * r)), (Z.ltb_spec (2 ^ n * 2 ^ k) (2 * (r * 2 ^ k)));
        try reflexivity; nia. }
  replace (2 ^ n * 2 ^ k =? 2 * (r * 2 ^ k)) with (2 ^ n =? 2 * r).
  2:{ destruct (Z.eqb_spec (2 ^ n) (2 * r)), (Z.eqb_spec (2 ^ n * 2 ^ k) (2 * (r * 2 ^ k)));
        try reflexivity; nia. }
  reflexivity.
Qed.

Lemma Zdigits2_scale (m k : Z) :
  0 < m -> 0 <= k -> Zdigits2 (m * 2 ^ k) = Zdigits2 m + k.
Proof.
  intros Hm Hk. pose proof (Zdigits2_bounds m Hm) as [Lo Hi].
  pose proof (Zdigits2_pos m Hm) as Dp.
  assert (Pk : 0 < 2 ^ k) by (apply Z.pow_pos_nonneg; lia).
  apply Zdigits2_unique; [| nia].
  replace (Zdigits2 m + k - 1) with ((Zdigits2 m - 1) + k) by lia.
  rewrite !pow2_split by lia. nia.
Qed.

(** The value [round_aux_value] gives, in terms of [Rnd]. *)
Lemma RNE_Rnd (m : positive) (e c : Z) :
  let n := fexp prec emax (Zpos (digits2_pos m) + e) - e in
  0 <= n -> 0 <= c -> - 1074 - e <= c ->
  RNE (Zpos m) n * 2 ^ (e + n + 1074) = Rnd c (Zpos m * 2 ^ (e + 1074 + c)).
Proof.
  intros n Hn Hc Hce. unfold Rnd. cbv zeta.
  rewrite Zdigits2_scale by lia. cbn [Zdigits2].
  assert (HN : Z.max (Zpos (digits2_pos m) + (e + 1074 + c) - 53) c = n + (e + 1074 + c))
    by (unfold n; rewrite fexp_64; lia).
  rewrite HN, RNE_scale by lia. f_equal. f_equal. lia.
Qed.

Lemma shl_align_spec (mx : positive) (ex ex' : Z) :
  snd (shl_align mx ex ex') = Z.min ex ex' /\
  Zpos (fst (shl_align mx ex ex')) = Zpos mx * 2 ^ (ex - Z.min ex ex').
Proof.
  unfold shl_align. destruct (ex' - ex) as [| d | d] eqn:D; cbn [fst snd].
  - split; [lia |]. replace (ex - Z.min ex ex') with 0 by lia. cbn. lia.
  - split; [lia |]. replace (ex - Z.min ex ex') with 0 by lia. cbn. lia.
  - split; [lia |]. replace (ex - Z.min ex ex') with (Zpos d) by lia.
    fold (shift_pos d mx). rewrite shift_pos_correct.
    change (Z.pow_pos 2 d) with (2 ^ Zpos d). ring.
Qed.

(** [binary_round]: the binary64 nearest to [m * 2^e]. *)
Lemma round_value (s : bool) (m : positive) (e c : Z) :
  0 <= c -> - 1074 - e <= c ->
  let r := binary_round prec emax s m e in
  valid_binary r = true /\ r <> S754_nan /\
  B64_value r =
    cond_Zopp s (Z.min (2 ^ 2098) (Rnd c (Zpos m * 2 ^ (e + 1074 + c)))).
Proof.
  intros Hc Hce r. subst r. unfold binary_round.
  pose proof (shl_align_spec m e (fexp prec emax (Zpos (digits2_pos m) + e)))
    as [He Hm].
  destruct (shl_align m e _) as [mz ez]. cbn [fst snd] in He, Hm.
  rewrite fexp_64 in He.
  assert (Hd : Zpos (digits2_pos mz) = Zpos (digits2_pos m) + (e - ez)).
  { change (Zdigits2 (Zpos mz) = Zdigits2 (Zpos m) + (e - ez)).
    rewrite Hm, He. rewrite fexp_64. apply Zdigits2_scale; lia. }
  assert (Hn : 0 <= fexp prec emax (Zpos (digits2_pos mz) + ez) - ez)
    by (rewrite fexp_64; lia).
  pose proof (round_aux_value s mz ez Hn) as (V1 & V2 & V3).
  split; [exact V1 |]. split; [exact V2 |].
  rewrite V3, (RNE_Rnd mz ez c Hn Hc ltac:(lia)). do 3 f_equal.
  rewrite Hm, He, fexp_64, <- Z.mul_assoc, <- pow2_split by lia.
  f_equal. f_equal. lia.
Qed.

Lemma RNE_mono (M1 M2 N : Z) :
  0 <= N -> M1 <= M2 -> RNE M1 N <= RNE M2 N.
Proof.
  intros HN HM.
  assert (P : 0 < 2 ^ N) by (apply Z.pow_pos_nonneg; lia).
  pose proof (Z.div_le_mono M1 M2 (2 ^ N) P HM) as Hq.
  pose proof (RNE_bounds M1 N HN) as B1. pose proof (RNE_bounds M2 N HN) as B2.
  destruct (Z.eq_dec (M1 / 2 ^ N) (M2 / 2 ^ N)) as [E | NE]; [| lia].
  pose proof (Z.div_mod M1 (2 ^ N) ltac:(lia)) as D1.
  pose proof (Z.div_mod M2 (2 ^ N) ltac:(lia)) as D2.
  assert (Hr : M1 mod 2 ^ N <= M2 mod 2 ^ N) by (rewrite E in D1; lia).
  unfold RNE. cbv zeta. rewrite E.
  set (q := M2 / 2 ^ N). set (r1 := M1 mod 2 ^ N) in *. set (r2 := M2 mod 2 ^ N) in *.
  destruct (Z.ltb_spec (2 ^ N) (2 * r1)), (Z.ltb_spec (2 ^ N) (2 * r2));
    destruct (Z.eqb_spec (2 ^ N) (2 * r1)), (Z.eqb_spec (2 ^ N) (2 * r2));
    destruct (Z.odd q); cbn [orb andb]; lia.
Qed.

Lemma RNE_nonneg (M N : Z) : 0 <= N -> 0 <= M -> 0 <= RNE M N.
Proof.
  intros HN HM. pose proof (RNE_bounds M N HN).
  assert (0 <= M / 2 ^ N) by (apply Z.div_pos; [lia | apply Z.pow_pos_nonneg; lia]).
  lia.
Qed.

Lemma Rnd_0 (c : Z) : 0 <= c -> Rnd c 0 = 0.
Proof.
  intros Hc. unfold Rnd. cbn [Zdigits2]. cbv zeta.
  replace (Z.max (0 - 53) c) with c by lia.
  unfold RNE. cbv zeta. rewrite Z.div_0_l, Z.mod_0_l by (apply Z.pow_nonzero; lia).
  assert (0 < 2 ^ c) by (apply Z.pow_pos_nonneg; lia).
  replace (2 ^ c <? 2 * 0) with false by (symmetry; apply Z.ltb_ge; lia).
  replace (2 ^ c =? 2 * 0) with false by (symmetry; apply Z.eqb_neq; lia).
  reflexivity.
Qed.

Lemma Rnd_nonneg (c M : Z) : 0 <= c -> 0 <= M -> 0 <= Rnd c M.
Proof.
  intros Hc HM. unfold Rnd. cbv zeta.
  apply Z.mul_nonneg_nonneg; [apply RNE_nonneg; lia | apply Z.pow_nonneg; lia].
Qed.

Lemma Zdigits2_mono (M1 M2 : Z) : 0 < M1 <= M2 -> Zdigits2 M1 <= Zdigits2 M2.
Proof.
  intros [H1 H12].
  pose proof (Zdigits2_bounds M1 H1) as [L1 _].
  pose proof (Zdigits2_bounds M2 ltac:(lia)) as [_ U2].
  destruct (Z_le_gt_dec (Zdigits2 M1) (Zdigits2 M2)) as [| Hgt]; [assumption |].
  assert (2 ^ Zdigits2 M2 <= 2 ^ (Zdigits2 M1 - 1)).
  { apply Z.pow_le_mono_r; [lia |]. lia. }
  lia.
Qed.

(** Rounding keeps the order. *)
Lemma Rnd_mono (c M1 M2 : Z) :
  0 <= c -> 0 <= M1 <= M2 -> Rnd c M1 <= Rnd c M2.
Proof.
  intros Hc [H1 H12].
  destruct (Z.eq_dec M1 0) as [-> | Hn].
  { rewrite Rnd_0 by lia. apply Rnd_nonneg; lia. }
  assert (P1 : 0 < M1) by lia. assert (P2 : 0 < M2) by lia.
  pose proof (Zdigits2_mono M1 M2 ltac:(lia)) as Hd.
  pose proof (Zdigits2_bounds M1 P1) as [L1 U1].
  pose proof (Zdigits2_bounds M2 P2) as [L2 U2].
  pose proof (Zdigits2_pos M1 P1) as D1.
  unfold Rnd. cbv zeta.
  set (N1 := Z.max (Zdigits2 M1 - 53) c). set (N2 := Z.max (Zdigits2 M2 - 53) c).
  assert (HN1 : 0 <= N1) by lia. assert (HN2 : 0 <= N2) by lia.
  destruct (Z.eq_dec N1 N2) as [E | NE].
  - rewrite E. apply Z.mul_le_mono_nonneg_r; [apply Z.pow_nonneg; lia |].
    apply RNE_mono; lia.
  - assert (HN : N1 + 1 <= N2) by lia.
    assert (HN2' : N2 = Zdigits2 M2 - 53) by lia.
    assert (Q1 : RNE M1 N1 <= 2 ^ 53).
    { pose proof (RNE_bounds M1 N1 HN1) as B.
      assert (M1 / 2 ^ N1 < 2 ^ 53); [| lia].
      apply Z.div_lt_upper_bound; [apply Z.pow_pos_nonneg; lia |].
      rewrite <- pow2_split by lia.
      eapply Z.lt_le_trans; [exact U1 | apply Z.pow_le_mono_r; lia]. }
    assert (Q2 : 2 ^ 52 <= RNE M2 N2).
    { pose proof (RNE_bounds M2 N2 HN2) as B.
      assert (2 ^ 52 <= M2 / 2 ^ N2); [| lia].
      apply Z.div_le_lower_bound; [apply Z.pow_pos_nonneg; lia |].
      rewrite <- pow2_split by lia.
      eapply Z.le_trans; [apply Z.pow_le_mono_r | exact L2]; lia. }
    assert (G : 2 * 2 ^ (N1 - c) <= 2 ^ (N2 - c)).
    { replace (N2 - c) with ((N2 - N1 - 1) + (1 + (N1 - c))) by lia.
      rewrite (pow2_split (N2 - N1 - 1)), (pow2_split 1) by lia.
      change (2 ^ 1) with 2.
      assert (1 <= 2 ^ (N2 - N1 - 1)) by (apply (Z.pow_le_mono_r 2 0); lia).
      assert (0 < 2 ^ (N1 - c)) by (apply Z.pow_pos_nonneg; lia).
      nia. }
    assert (0 < 2 ^ (N1 - c)) by (apply Z.pow_pos_nonneg; lia).
    assert (0 <= RNE M1 N1) by (apply RNE_nonneg; lia).
    change (2 ^ 53) with (2 * 2 ^ 52) in Q1.
    set (h := 2 ^ 52) in *. set (a := RNE M1 N1) in *. set (b := RNE M2 N2) in *.
    set (g1 := 2 ^ (N1 - c)) in *. set (g2 := 2 ^ (N2 - c)) in *.
    assert (0 < h) by (unfold h; lia).
    assert (a * g1 <= 2 * h * g1) by nia.
    assert (h * (2 * g1) <= h * g2) by nia.
    assert (h * g2 <= b * g2) by nia.
    lia.
Qed.

(** A binary64 is its own rounding. *)
Lemma Rnd_exact (s : bool) (m : positive) (e : Z) :
  valid_binary (S754_finite s m e) = true ->
  Rnd 0 (Zpos m * 2 ^ (e + 1074)) = Zpos m * 2 ^ (e + 1074).
Proof.
  unfold SpecFloat.valid_binary, bounded, canonical_mantissa. intros H.
  apply andb_true_iff in H. destruct H as [H _]. apply Z.eqb_eq in H.
  rewrite fexp_64 in H.
  unfold Rnd. cbv zeta. rewrite Zdigits2_scale by lia. cbn [Zdigits2].
  replace (Z.max (Zpos (digits2_pos m) + (e + 1074) - 53) 0) with (0 + (e + 1074)) by lia.
  rewrite RNE_scale, RNE_0 by lia. f_equal. f_equal. lia.
Qed.

Lemma top_pos : 0 < 2 ^ 2098.
Proof. apply Z.pow_pos_nonneg; lia. Qed.

Lemma round_to_0 (c : Z) : round_to c 0 = 0.
Proof. reflexivity. Qed.

Lemma round_to_pos (c S : Z) :
  0 < S -> round_to c S = Z.min (2 ^ 2098) (Rnd c S).
Proof.
  intros H. unfold round_to. rewrite Z.sgn_pos, Z.abs_eq by lia.
  apply Z.mul_1_l.
Qed.

Lemma round_to_neg (c S : Z) :
  S < 0 -> round_to c S = - Z.min (2 ^ 2098) (Rnd c (- S)).
Proof.
  intros H. unfold round_to. rewrite Z.sgn_neg, Z.abs_neq by lia.
  hide_pow 2098%Z T. lia.
Qed.

Lemma round_to_bounds (c S : Z) :
  0 <= c -> - 2 ^ 2098 <= round_to c S <= 2 ^ 2098.
Proof.
  intros Hc.
  destruct (Z.lt_trichotomy S 0) as [Hn | [-> | Hp]].
  - rewrite round_to_neg by lia. pose proof (Rnd_nonneg c (- S) Hc ltac:(lia)).
    hide_pow 2098%Z T. lia.
  - rewrite round_to_0. hide_pow 2098%Z T. lia.
  - rewrite round_to_pos by lia. pose proof (Rnd_nonneg c S Hc ltac:(lia)).
    hide_pow 2098%Z T. lia.
Qed.

Lemma round_to_mono (c S1 S2 : Z) :
  0 <= c -> S1 <= S2 -> round_to c S1 <= round_to c S2.
Proof.
  intros Hc H.
  destruct (Z.lt_trichotomy S1 0) as [Hn1 | [-> | Hp1]];
    destruct (Z.lt_trichotomy S2 0) as [Hn2 | [-> | Hp2]]; try lia.
  - rewrite !round_to_neg by lia.
    pose proof (Rnd_mono c (- S2) (- S1) Hc ltac:(lia)).
    hide_pow 2098%Z T. lia.
  - rewrite round_to_neg, round_to_0 by lia.
    pose proof (Rnd_nonneg c (- S1) Hc ltac:(lia)).
    hide_pow 2098%Z T. lia.
  - rewrite round_to_neg, round_to_pos by lia.
    pose proof (Rnd_nonneg c (- S1) Hc ltac:(lia)).
    pose proof (Rnd_nonneg c S2 Hc ltac:(lia)).
    hide_pow 2098%Z T. lia.
  - rewrite round_to_0, round_to_pos by lia.
    pose proof (Rnd_nonneg c S2 Hc ltac:(lia)).
    hide_pow 2098%Z T. lia.
  - rewrite !round_to_pos by lia.
    pose proof (Rnd_mono c S1 S2 Hc ltac:(lia)).
    hide_pow 2098%Z T. lia.
Qed.

Lemma fin_value_bounds (x : spec_float) :
  valid_binary x = true -> fin x -> - 2 ^ 2098 < B64_value x < 2 ^ 2098.
Proof.
  intros V F.
  destruct x as [s | s | | s m e]; cbn in F; try contradiction; cbn [B64_value].
  - hide_pow 2098%Z T. lia.
  - pose proof (magnitude_bounds s m e V) as B. unfold magnitude in B.
    hide_pow 2098%Z T. destruct s; cbn [cond_Zopp]; lia.
Qed.

Lemma round_to_exact (x : spec_float) :
  valid_binary x = true -> fin x -> round_to 0 (B64_value x) = B64_value x.
Proof.
  intros V F. pose proof (fin_value_bounds x V F) as B.
  destruct x as [s | s | | s m e]; cbn in F; try contradiction;
    cbn [B64_value] in *.
  - apply round_to_0.
  - pose proof (Rnd_exact s m e V) as R.
    assert (0 < Zpos m * 2 ^ (e + 1074)).
    { apply Z.mul_pos_pos; [lia | apply Z.pow_pos_nonneg; [lia |]].
      apply valid_finite in V. clear B. lia. }
    set (X := Zpos m * 2 ^ (e + 1074)) in *.
    destruct s; cbn [cond_Zopp] in *.
    + rewrite round_to_neg by (clear B; lia). rewrite Z.opp_involutive, R.
      hide_pow 2098%Z T. lia.
    + rewrite round_to_pos by (clear B; lia). rewrite R.
      hide_pow 2098%Z T. lia.
Qed.

(** [binary_normalize]: the integer [S] at exponent [e], rounded. *)
Lemma normalize_value (S e c : Z) (sz : bool) :
  0 <= c -> - 1074 - e <= c ->
  let r := binary_normalize prec emax S e sz in
  valid_binary r = true /\ r <> S754_nan /\
  B64_value r = round_to c (S * 2 ^ (e + 1074 + c)).
Proof.
  intros Hc Hce r. subst r.
  assert (P : 0 < 2 ^ (e + 1074 + c)) by (apply Z.pow_pos_nonneg; lia).
  destruct S as [| p | p]; cbn [binary_normalize].
  - split; [reflexivity |]. split; [discriminate |]. reflexivity.
  - destruct (round_value false p e c Hc Hce) as (V1 & V2 & V3).
    split; [exact V1 |]. split; [exact V2 |].
    rewrite V3. cbn [cond_Zopp]. rewrite round_to_pos by lia. reflexivity.
  - destruct (round_value true p e c Hc Hce) as (V1 & V2 & V3).
    split; [exact V1 |]. split; [exact V2 |].
    rewrite V3. cbn [cond_Zopp].
    rewrite round_to_neg by lia. do 3 f_equal.
    rewrite <- Z.mul_opp_l. reflexivity.
Qed.

Lemma aligned_value (s : bool) (m : positive) (e ez : Z) :
  -1074 <= ez <= e ->
  cond_Zopp s (Zpos (fst (shl_align m e ez))) * 2 ^ (ez + 1074) =
  cond_Zopp s (Zpos m * 2 ^ (e + 1074)).
Proof.
  intros H. destruct (shl_align_spec m e ez) as [_ E]. rewrite E.
  rewrite Z.min_r by lia.
  replace (e + 1074) with ((e - ez) + (ez + 1074)) by lia.
  rewrite (pow2_split (e - ez)) by lia.
  destruct s; cbn [cond_Zopp]; ring.
Qed.

(** Sum, difference and product of two floats that are zero or finite. *)
Lemma SFadd_fin (x y : spec_float) :
  valid_binary x = true -> valid_binary y = true -> fin x -> fin y ->
  SFadd prec emax x y <> S754_nan /\
  B64_value (SFadd prec emax x y) = round_to 0 (B64_value x + B64_value y).
Proof.
  intros Vx Vy Fx Fy.
  destruct x as [sx | sx | | sx mx ex]; cbn in Fx; try contradiction;
    destruct y as [sy | sy | | sy my ey]; cbn in Fy; try contradiction.
  - split; [destruct sx, sy; discriminate | destruct sx, sy; reflexivity].
  - split; [discriminate |]. cbn [SFadd].
    change (B64_value (S754_zero sx)) with 0. rewrite Z.add_0_l.
    symmetry. apply round_to_exact; [assumption | exact I].
  - split; [discriminate |]. cbn [SFadd].
    change (B64_value (S754_zero sy)) with 0. rewrite Z.add_0_r.
    symmetry. apply round_to_exact; [assumption | exact I].
  - cbn [SFadd]. cbv zeta.
    pose proof (valid_finite _ _ _ Vx) as (Hex & _).
    pose proof (valid_finite _ _ _ Vy) as (Hey & _).
    set (ez := Z.min ex ey).
    destruct (normalize_value
                (cond_Zopp sx (Zpos (fst (shl_align mx ex ez))) +
                 cond_Zopp sy (Zpos (fst (shl_align my ey ez)))) ez 0 false
                ltac:(lia) ltac:(unfold ez; lia)) as (_ & N & V).
    split; [exact N |]. rewrite V. f_equal. rewrite Z.add_0_r.
    rewrite Z.mul_add_distr_r, !aligned_value by (unfold ez; lia).
    reflexivity.
Qed.

Lemma SFsub_fin (x y : spec_float) :
  valid_binary x = true -> valid_binary y = true -> fin x -> fin y ->
  SFsub prec emax x y <> S754_nan /\
  B64_value (SFsub prec emax x y) = round_to 0 (B64_value x - B64_value y).
Proof.
  intros Vx Vy Fx Fy.
  destruct x as [sx | sx | | sx mx ex]; cbn in Fx; try contradiction;
    destruct y as [sy | sy | | sy my ey]; cbn in Fy; try contradiction.
  - split; [destruct sx, sy; discriminate | destruct sx, sy; reflexivity].
  - split; [discriminate |]. cbn [SFsub].
    change (B64_value (S754_zero sx)) with 0. rewrite Z.sub_0_l.
    replace (- B64_value (S754_finite sy my ey))
      with (B64_value (S754_finite (negb sy) my ey))
      by (cbn [B64_value]; destruct sy; cbn [cond_Zopp negb];
          [symmetry; apply Z.opp_involutive | reflexivity]).
    symmetry. apply round_to_exact; [exact Vy | exact I].
  - split; [discriminate |]. cbn [SFsub].
    change (B64_value (S754_zero sy)) with 0. rewrite Z.sub_0_r.
    symmetry. apply round_to_exact; [assumption | exact I].
  - cbn [SFsub]. cbv zeta.
    pose proof (valid_finite _ _ _ Vx) as (Hex & _).
    pose proof (valid_finite _ _ _ Vy) as (Hey & _).
    set (ez := Z.min ex ey).
    destruct (normalize_value
                (cond_Zopp sx (Zpos (fst (shl_align mx ex ez))) -
                 cond_Zopp sy (Zpos (fst (shl_align my ey ez)))) ez 0 false
                ltac:(lia) ltac:(unfold ez; lia)) as (_ & N & V).
    split; [exact N |]. rewrite V. f_equal. rewrite Z.add_0_r.
    rewrite Z.mul_sub_distr_r, !aligned_value by (unfold ez; lia).
    reflexivity.
Qed.

Lemma digits2_mul (mx my : positive) :
  Zpos (digits2_pos mx) + Zpos (digits2_pos my) - 1 <=
  Zpos (digits2_pos (mx * my)).
Proof.
  pose proof (digits2_pos_bounds mx) as [Lx _].
  pose proof (digits2_pos_bounds my) as [Ly _].
  pose proof (digits2_pos_bounds (mx * my)) as [_ U].
  set (dx := Zpos (digits2_pos mx)) in *. set (dy := Zpos (digits2_pos my)) in *.
  set (D := Zpos (digits2_pos (mx * my))) in *.
  assert (dx >= 1) by (unfold dx; lia). assert (dy >= 1) by (unfold dy; lia).
  assert (HP : 2 ^ (dx - 1 + (dy - 1)) < 2 ^ D).
  { rewrite pow2_split by lia. rewrite Pos2Z.inj_mul in U.
    assert (0 < 2 ^ (dx - 1)) by (apply Z.pow_pos_nonneg; lia).
    assert (0 < 2 ^ (dy - 1)) by (apply Z.pow_pos_nonneg; lia).
    nia. }
  apply Z.pow_lt_mono_r_iff in HP; unfold D in *; lia.
Qed.

Lemma SFmul_fin (x y : spec_float) :
  valid_binary x = true -> valid_binary y = true -> fin x -> fin y ->
  SFmul prec emax x y <> S754_nan /\
  B64_value (SFmul prec emax x y) = round_to 1074 (B64_value x * B64_value y).
Proof.
  intros Vx Vy Fx Fy.
  destruct x as [sx | sx | | sx mx ex]; cbn in Fx; try contradiction;
    destruct y as [sy | sy | | sy my ey]; cbn in Fy; try contradiction;
    try (split; [discriminate | cbn [SFmul B64_value];
                 rewrite ?Z.mul_0_l, ?Z.mul_0_r; reflexivity]).
  cbn [SFmul].
  pose proof (valid_finite _ _ _ Vx) as (Hex & _).
  pose proof (valid_finite _ _ _ Vy) as (Hey & _).
  assert (Cx : Z.max (Zpos (digits2_pos mx) + ex - 53) (-1074) = ex).
  { unfold SpecFloat.valid_binary, bounded, canonical_mantissa in Vx.
    apply andb_true_iff in Vx. destruct Vx as [Vx _].
    apply Z.eqb_eq in Vx. rewrite fexp_64 in Vx. exact Vx. }
  assert (Cy : Z.max (Zpos (digits2_pos my) + ey - 53) (-1074) = ey).
  { unfold SpecFloat.valid_binary, bounded, canonical_mantissa in Vy.
    apply andb_true_iff in Vy. destruct Vy as [Vy _].
    apply Z.eqb_eq in Vy. rewrite fexp_64 in Vy. exact Vy. }
  pose proof (digits2_mul mx my) as HD.
  assert (Hn : 0 <= fexp prec emax (Zpos (digits2_pos (mx * my)) + (ex + ey)) - (ex + ey)).
  { rewrite fexp_64. lia. }
  destruct (round_aux_value (xorb sx sy) (mx * my) (ex + ey) Hn) as (_ & N & V).
  split; [exact N |]. rewrite V.
  rewrite (RNE_Rnd (mx * my) (ex + ey) 1074 Hn ltac:(lia) ltac:(lia)).
  cbn [B64_value].
  set (A := Zpos mx * 2 ^ (ex + 1074)). set (B := Zpos my * 2 ^ (ey + 1074)).
  assert (PA : 0 < A)
    by (apply Z.mul_pos_pos; [lia | apply Z.pow_pos_nonneg; lia]).
  assert (PB : 0 < B)
    by (apply Z.mul_pos_pos; [lia | apply Z.pow_pos_nonneg; lia]).
  assert (E : Zpos (mx * my) * 2 ^ (ex + ey + 1074 + 1074) = A * B).
  { unfold A, B. replace (ex + ey + 1074 + 1074) with ((ex + 1074) + (ey + 1074)) by lia.
    rewrite pow2_split by lia. rewrite Pos2Z.inj_mul. ring. }
  rewrite E.
  assert (0 < A * B) by (apply Z.mul_pos_pos; assumption).
  destruct sx, sy; cbn [xorb cond_Zopp].
  - replace (- A * - B) with (A * B) by ring. rewrite round_to_pos by lia. reflexivity.
  - replace (- A * B) with (- (A * B)) by ring. rewrite round_to_neg by lia.
    rewrite Z.opp_involutive. reflexivity.
  - replace (A * - B) with (- (A * B)) by ring. rewrite round_to_neg by lia.
    rewrite Z.opp_involutive. reflexivity.
  - rewrite round_to_pos by lia. reflexivity.
Qed.

(** ** Arithmetic on the line, infinities included *)

Lemma fin_not_top (x : spec_float) :
  valid_binary x = true -> fin x -> (Z.abs (B64_value x) =? 2 ^ 2098) = false.
Proof.
  intros V F. pose proof (fin_value_bounds x V F). apply Z.eqb_neq.
  hide_pow 2098%Z T. lia.
Qed.

Lemma infinity_top (s : bool) :
  (Z.abs (B64_value (S754_infinity s)) =? 2 ^ 2098) = true.
Proof.
  apply Z.eqb_eq. cbn [B64_value]. hide_pow 2098%Z T.
  destruct s; cbn [cond_Zopp]; lia.
Qed.

Lemma SFadd_value (x y : spec_float) :
  valid_binary x = true -> valid_binary y = true ->
  x <> S754_nan -> y <> S754_nan -> SFadd prec emax x y <> S754_nan ->
  B64_value (SFadd prec emax x y) = add_ext (B64_value x) (B64_value y).
Proof.
  intros Vx Vy Nx Ny N. unfold add_ext.
  destruct x as [sx | sx | | sx mx ex] eqn:Ex; try congruence;
    destruct y as [sy | sy | | sy my ey] eqn:Ey; try congruence;
    try (rewrite <- Ex, <- Ey in *;
         rewrite (fin_not_top x) by (subst x; auto; exact I);
         rewrite (fin_not_top y) by (subst y; auto; exact I);
         apply SFadd_fin; subst x y; auto; exact I).
  - rewrite (fin_not_top (S754_zero sx) Vx I), infinity_top. reflexivity.
  - rewrite infinity_top. reflexivity.
  - rewrite infinity_top. destruct sx, sy; cbn in N |- *; congruence.
  - rewrite infinity_top. reflexivity.
  - rewrite (fin_not_top (S754_finite sx mx ex) Vx I), infinity_top. reflexivity.
Qed.

Lemma SFsub_value (x y : spec_float) :
  valid_binary x = true -> valid_binary y = true ->
  x <> S754_nan -> y <> S754_nan -> SFsub prec emax x y <> S754_nan ->
  B64_value (SFsub prec emax x y) = sub_ext (B64_value x) (B64_value y).
Proof.
  intros Vx Vy Nx Ny N. unfold sub_ext.
  destruct x as [sx | sx | | sx mx ex] eqn:Ex; try congruence;
    destruct y as [sy | sy | | sy my ey] eqn:Ey; try congruence;
    try (rewrite <- Ex, <- Ey in *;
         rewrite (fin_not_top x) by (subst x; auto; exact I);
         rewrite (fin_not_top y) by (subst y; auto; exact I);
         apply SFsub_fin; subst x y; auto; exact I).
  - rewrite (fin_not_top (S754_zero sx) Vx I), infinity_top.
    cbn [SFsub B64_value]. hide_pow 2098%Z T.
    destruct sy; cbn [cond_Zopp negb]; lia.
  - rewrite infinity_top. reflexivity.
  - rewrite infinity_top. destruct sx, sy; cbn in N |- *; congruence.
  - rewrite infinity_top. reflexivity.
  - rewrite (fin_not_top (S754_finite sx mx ex) Vx I), infinity_top.
    cbn [SFsub B64_value]. hide_pow 2098%Z T.
    destruct sy; cbn [cond_Zopp negb]; lia.
Qed.

(** Multiplication by a positive finite float. *)
Lemma SFmul_value (x c : spec_float) :
  valid_binary x = true -> valid_binary c = true ->
  x <> S754_nan -> fin c -> 0 < B64_value c ->
  SFmul prec emax x c <> S754_nan /\
  B64_value (SFmul prec emax x c) = mul_ext (B64_value x) (B64_value c).
Proof.
  intros Vx Vc Nx Fc Pc. unfold mul_ext.
  destruct x as [sx | sx | | sx mx ex] eqn:Ex; try congruence.
  - rewrite <- Ex in *. rewrite (fin_not_top x) by (subst x; auto; exact I).
    apply SFmul_fin; subst x; auto; exact I.
  - rewrite infinity_top.
    destruct c as [sc | sc | | sc mc ec]; cbn in Fc; try contradiction.
    + cbn in Pc. lia.
    + destruct sc.
      * cbn [B64_value cond_Zopp] in Pc.
        assert (0 < Zpos mc * 2 ^ (ec + 1074)); [| lia].
        apply Z.mul_pos_pos; [lia | apply Z.pow_pos_nonneg; [lia |]].
        apply valid_finite in Vc. lia.
      * split; [discriminate |]. cbn [SFmul]. rewrite xorb_false_r. reflexivity.
  - rewrite <- Ex in *. rewrite (fin_not_top x) by (subst x; auto; exact I).
    apply SFmul_fin; subst x; auto; exact I.
Qed.

Lemma add_ext_bounds (a b : Z) :
  - 2 ^ 2098 <= a <= 2 ^ 2098 -> - 2 ^ 2098 <= b <= 2 ^ 2098 ->
  - 2 ^ 2098 <= add_ext a b <= 2 ^ 2098.
Proof.
  intros Ha Hb. unfold add_ext.
  pose proof (round_to_bounds 0 (a + b) (Z.le_refl 0)) as R.
  hide_pow 2098%Z T.
  destruct (Z.abs a =? T); [lia |].
  destruct (Z.abs b =? T); [lia |].
  exact R.
Qed.

Lemma add_ext_mono_l (a b y : Z) :
  - 2 ^ 2098 <= a -> b <= 2 ^ 2098 -> - 2 ^ 2098 <= y <= 2 ^ 2098 ->
  a <= b -> add_ext a y <= add_ext b y.
Proof.
  intros Ha Hb Hy H. unfold add_ext.
  pose proof (round_to_bounds 0 (a + y) (Z.le_refl 0)).
  pose proof (round_to_bounds 0 (b + y) (Z.le_refl 0)).
  pose proof (round_to_mono 0 (a + y) (b + y) (Z.le_refl 0)) as M.
  hide_pow 2098%Z T. specialize (M ltac:(lia)).
  destruct (Z.eqb_spec (Z.abs a) T), (Z.eqb_spec (Z.abs b) T),
    (Z.eqb_spec (Z.abs y) T); lia.
Qed.

Lemma add_ext_mono_r (x a b : Z) :
  - 2 ^ 2098 <= x <= 2 ^ 2098 -> - 2 ^ 2098 <= a -> b <= 2 ^ 2098 ->
  a <= b -> add_ext x a <= add_ext x b.
Proof.
  intros Hx Ha Hb H. unfold add_ext.
  pose proof (round_to_bounds 0 (x + a) (Z.le_refl 0)).
  pose proof (round_to_bounds 0 (x + b) (Z.le_refl 0)).
  pose proof (round_to_mono 0 (x + a) (x + b) (Z.le_refl 0)) as M.
  hide_pow 2098%Z T. specialize (M ltac:(lia)).
  destruct (Z.eqb_spec (Z.abs x) T), (Z.eqb_spec (Z.abs a) T),
    (Z.eqb_spec (Z.abs b) T); lia.
Qed.

Lemma sub_ext_mono_l (a b y : Z) :
  - 2 ^ 2098 <= a -> b <= 2 ^ 2098 -> - 2 ^ 2098 <= y <= 2 ^ 2098 ->
  a <= b -> sub_ext a y <= sub_ext b y.
Proof.
  intros Ha Hb Hy H. unfold sub_ext.
  pose proof (round_to_bounds 0 (a - y) (Z.le_refl 0)).
  pose proof (round_to_bounds 0 (b - y) (Z.le_refl 0)).
  pose proof (round_to_mono 0 (a - y) (b - y) (Z.le_refl 0)) as M.
  hide_pow 2098%Z T. specialize (M ltac:(lia)).
  destruct (Z.eqb_spec (Z.abs a) T), (Z.eqb_spec (Z.abs b) T),
    (Z.eqb_spec (Z.abs y) T); lia.
Qed.

Lemma sub_ext_anti_r (x a b : Z) :
  - 2 ^ 2098 <= x <= 2 ^ 2098 -> - 2 ^ 2098 <= a -> b <= 2 ^ 2098 ->
  a <= b -> sub_ext x b <= sub_ext x a.
Proof.
  intros Hx Ha Hb H. unfold sub_ext.
  pose proof (round_to_bounds 0 (x - a) (Z.le_refl 0)).
  pose proof (round_to_bounds 0 (x - b) (Z.le_refl 0)).
  pose proof (round_to_mono 0 (x - b) (x - a) (Z.le_refl 0)) as M.
  hide_pow 2098%Z T. specialize (M ltac:(lia)).
  destruct (Z.eqb_spec (Z.abs x) T), (Z.eqb_spec (Z.abs a) T),
    (Z.eqb_spec (Z.abs b) T); lia.
Qed.

Lemma mul_ext_mono (a b c : Z) :
  - 2 ^ 2098 <= a -> b <= 2 ^ 2098 -> 0 < c ->
  a <= b -> mul_ext a c <= mul_ext b c.
Proof.
  intros Ha Hb Hc H. unfold mul_ext.
  assert (L : 0 <= 1074) by discriminate.
  pose proof (round_to_bounds 1074 (a * c) L).
  pose proof (round_to_bounds 1074 (b * c) L).
  pose proof (round_to_mono 1074 (a * c) (b * c) L) as M.
  hide_pow 2098%Z T. specialize (M ltac:(nia)).
  destruct (Z.eqb_spec (Z.abs a) T), (Z.eqb_spec (Z.abs b) T); lia.
Qed.

(** ** The hardware operations keep the order *)

Lemma add_value (x y : float) :
  number (x + y)%float ->
  number x /\ number y /\ value (x + y)%float = add_ext (value x) (value y).
Proof.
  intros N. apply number_iff in N. rewrite add_spec in N. unfold SF64add in N.
  assert (Nx : Prim2SF x <> S754_nan) by (intros E; rewrite E in N; auto).
  assert (Ny : Prim2SF y <> S754_nan)
    by (intros E; rewrite E in N; destruct (Prim2SF x); auto).
  split; [now apply number_iff |]. split; [now apply number_iff |].
  unfold value. rewrite add_spec. unfold SF64add.
  apply SFadd_value; auto using Prim2SF_valid.
Qed.

Lemma sub_value (x y : float) :
  number (x - y)%float ->
  number x /\ number y /\ value (x - y)%float = sub_ext (value x) (value y).
Proof.
  intros N. apply number_iff in N. rewrite sub_spec in N. unfold SF64sub in N.
  assert (Nx : Prim2SF x <> S754_nan) by (intros E; rewrite E in N; auto).
  assert (Ny : Prim2SF y <> S754_nan)
    by (intros E; rewrite E in N; destruct (Prim2SF x); auto).
  split; [now apply number_iff |]. split; [now apply number_iff |].
  unfold value. rewrite sub_spec. unfold SF64sub.
  apply SFsub_value; auto using Prim2SF_valid.
Qed.

Lemma mul_value (x c : float) :
  fin (Prim2SF c) -> 0 < value c -> number (x * c)%float ->
  number x /\ value (x * c)%float = mul_ext (value x) (value c).
Proof.
  intros Fc Pc N. apply number_iff in N. rewrite mul_spec in N. unfold SF64mul in N.
  assert (Nx : Prim2SF x <> S754_nan) by (intros E; rewrite E in N; auto).
  split; [now apply number_iff |].
  unfold value. rewrite mul_spec. unfold SF64mul.
  apply SFmul_value; auto using Prim2SF_valid.
Qed.

Lemma add_below_l (a b y : float) :
  below a b -> below (a + y)%float (b + y)%float.
Proof.
  intros H Na Nb.
  destruct (add_value a y Na) as (Ha & Hy & ->).
  destruct (add_value b y Nb) as (Hb & _ & ->).
  apply add_ext_mono_l;
    [apply value_bounds | apply value_bounds | apply value_bounds |].
  exact (H Ha Hb).
Qed.

Lemma add_below_r (x a b : float) :
  below a b -> below (x + a)%float (x + b)%float.
Proof.
  intros H Na Nb.
  destruct (add_value x a Na) as (Hx & Ha & ->).
  destruct (add_value x b Nb) as (_ & Hb & ->).
  apply add_ext_mono_r;
    [apply value_bounds | apply value_bounds | apply value_bounds |].
  exact (H Ha Hb).
Qed.

Lemma sub_below_l (a b y : float) :
  below a b -> below (a - y)%float (b - y)%float.
Proof.
  intros H Na Nb.
  destruct (sub_value a y Na) as (Ha & Hy & ->).
  destruct (sub_value b y Nb) as (Hb & _ & ->).
  apply sub_ext_mono_l;
    [apply value_bounds | apply value_bounds | apply value_bounds |].
  exact (H Ha Hb).
Qed.

Lemma sub_below_r (x a b : float) :
  below a b -> below (x - b)%float (x - a)%float.
Proof.
  intros H Nb Na.
  destruct (sub_value x a Na) as (Hx & Ha & ->).
  destruct (sub_value x b Nb) as (_ & Hb & ->).
  apply sub_ext_anti_r;
    [apply value_bounds | apply value_bounds | apply value_bounds |].
  exact (H Ha Hb).
Qed.

Lemma mul_below (a b c : float) :
  fin (Prim2SF c) -> 0 < value c ->
  below a b -> below (a * c)%float (b * c)%float.
Proof.
  intros Fc Pc H Na Nb.
  destruct (mul_value a c Fc Pc Na) as (Ha & ->).
  destruct (mul_value b c Fc Pc Nb) as (Hb & ->).
  apply mul_ext_mono;
    [apply value_bounds | apply value_bounds | exact Pc |].
  exact (H Ha Hb).
Qed.

(** The conversion of an integer. *)
Lemma float64_value (n : Z) :
  number (float64 n) /\ value (float64 n) = round_to 0 (n * 2 ^ 1074).
Proof.
  destruct (normalize_value n 0 0 false ltac:(lia) ltac:(lia)) as (V & N & E).
  assert (P : Prim2SF (float64 n) = binary_normalize prec emax n 0 false)
    by (apply Prim2SF_SF2Prim; exact V).
  split; [apply number_iff; rewrite P; exact N |].
  unfold value. rewrite P, E. reflexivity.
Qed.

Lemma float64_below (n n' : Z) : n <= n' -> below (float64 n) (float64 n').
Proof.
  intros H _ _.
  destruct (float64_value n) as [_ ->]. destruct (float64_value n') as [_ ->].
  apply round_to_mono; [lia |]. pose proof pow2_1074_pos. nia.
Qed.

(** The clamp of [score]. *)
Lemma clamp_below (a b : float) :
  below a b ->
  below (math.Max 0 (math.Min 100 a)) (math.Max 0 (math.Min 100 b)).
Proof.
  intros H Na Nb.
  assert (Ha : number a).
  { destruct (math.IsNaN a) eqn:E; [| exact E].
    rewrite (not_number a E), clamp_nan in Na. discriminate Na. }
  assert (Hb : number b).
  { destruct (math.IsNaN b) eqn:E; [| exact E].
    rewrite (not_number b E), clamp_nan in Nb. discriminate Nb. }
  destruct (Max_Min_number a Ha) as [_ ->].
  destruct (Max_Min_number b Hb) as [_ ->].
  specialize (H Ha Hb). lia.
Qed.

Lemma leb_below (a b : float) : (a <=? b)%float = true -> below a b.
Proof.
  intros H _ _. apply leb_true_value in H. tauto.
Qed.

(** What [below] says in the comparisons of the code. *)
Lemma below_ltb (a b : float) :
  below a b ->
  (b <? a)%float = false /\
  (number a -> number b -> (a <=? b)%float = true).
Proof.
  intros H. split.
  - destruct (b <? a)%float eqn:E; [| reflexivity].
    apply ltb_true_value in E. destruct E as (Nb & Na & E).
    specialize (H Na Nb). lia.
  - intros Na Nb. rewrite (leb_value a b Na Nb). apply Z.leb_le. auto.
Qed.

(** ** The score is monotone *)

Lemma fin_3 : fin (Prim2SF 3).
Proof. exact I. Qed.

Lemma fin_8 : fin (Prim2SF 8).
Proof. exact I. Qed.

Lemma fin_10 : fin (Prim2SF 10).
Proof. exact I. Qed.

Lemma fin_12 : fin (Prim2SF 12).
Proof. exact I. Qed.

Lemma rawScore_below_deadlines sleep studyHours deadlines deadlines' stress exercise :
  deadlines <= deadlines' ->
  below (rawScore sleep studyHours deadlines stress exercise)
        (rawScore sleep studyHours deadlines' stress exercise).
Proof.
  intros H. unfold rawScore.
  apply sub_below_l, add_below_l, add_below_l, add_below_l.
  apply mul_below; [exact fin_10 | reflexivity |].
  apply float64_below, H.
Qed.

Lemma rawScore_below_stress sleep studyHours deadlines stress stress' exercise :
  stress <= stress' ->
  below (rawScore sleep studyHours deadlines stress exercise)
        (rawScore sleep studyHours deadlines stress' exercise).
Proof.
  intros H. unfold rawScore.
  apply sub_below_l, add_below_l, add_below_l, add_below_r.
  apply mul_below; [exact fin_12 | reflexivity |].
  apply float64_below, H.
Qed.

Lemma rawScore_below_studyHours sleep studyHours studyHours' deadlines stress exercise :
  below studyHours studyHours' ->
  below (rawScore sleep studyHours deadlines stress exercise)
        (rawScore sleep studyHours' deadlines stress exercise).
Proof.
  intros H. unfold rawScore.
  apply sub_below_l, add_below_r.
  apply mul_below; [exact fin_3 | reflexivity | exact H].
Qed.

Lemma rawScore_below_sleep sleep sleep' studyHours deadlines stress exercise :
  below sleep sleep' ->
  below (rawScore sleep' studyHours deadlines stress exercise)
        (rawScore sleep studyHours deadlines stress exercise).
Proof.
  intros H. unfold rawScore, sleepPenalty.
  apply sub_below_l, add_below_l, add_below_r.
  apply mul_below; [exact fin_8 | reflexivity |].
  apply sub_below_r, H.
Qed.

Lemma rawScore_below_exercise sleep studyHours deadlines stress :
  below (rawScore sleep studyHours deadlines stress true)
        (rawScore sleep studyHours deadlines stress false).
Proof.
  unfold rawScore, exerciseBonus.
  apply sub_below_r, leb_below. reflexivity.
Qed.

Lemma score_not_above sleep1 study1 d1 s1 e1 sleep2 study2 d2 s2 e2 :
  below (rawScore sleep1 study1 d1 s1 e1) (rawScore sleep2 study2 d2 s2 e2) ->
  not_above (score sleep1 study1 d1 s1 e1) (score sleep2 study2 d2 s2 e2).
Proof.
  intros H. apply below_ltb. unfold score. apply clamp_below, H.
Qed.

(** C10.  With the other fields fixed, more deadlines, more stress or more
    study hours never give a lower score, more sleep never gives a higher
    one, and the score with exercise is never higher than without: the
    comparison that would say otherwise is false, and where both scores are
    numbers the expected [<=] holds.  Every rounding of the formula and the
    clamp keep the order. *)
Theorem score_monotone :
  forall (sleep studyHours : float) (deadlines stress : Z) (exercise : bool),
    (forall deadlines', deadlines <= deadlines' ->
       not_above (score sleep studyHours deadlines stress exercise)
                 (score sleep studyHours deadlines' stress exercise)) /\
    (forall stress', stress <= stress' ->
       not_above (score sleep studyHours deadlines stress exercise)
                 (score sleep studyHours deadlines stress' exercise)) /\
    (forall studyHours', (studyHours <=? studyHours')%float = true ->
       not_above (score sleep studyHours deadlines stress exercise)
                 (score sleep studyHours' deadlines stress exercise)) /\
    (forall sleep', (sleep <=? sleep')%float = true ->
       not_above (score sleep' studyHours deadlines stress exercise)
                 (score sleep studyHours deadlines stress exercise)) /\
    not_above (score sleep studyHours deadlines stress true)
              (score sleep studyHours deadlines stress false).
Proof.
  intros sleep studyHours deadlines stress exercise.
  split; [| split; [| split; [| split]]].
  - intros d' H. apply score_not_above, rawScore_below_deadlines, H.
  - intros s' H. apply score_not_above, rawScore_below_stress, H.
  - intros h' H. apply score_not_above, rawScore_below_studyHours, leb_below, H.
  - intros sl' H. apply score_not_above, rawScore_below_sleep, leb_below, H.
  - apply score_not_above, rawScore_below_exercise.
Qed.

(** [score_monotone] around sleep 6.5, study 5, 3 deadlines, stress 4: one
    more deadline, one more stress point, 2.5 more hours of study, 1.5 more
    hours of sleep. *)
Lemma score_monotone_witness :
  not_above (score 6.5 5 3 4 false) (score 6.5 5 4 4 false) /\
  not_above (score 6.5 5 3 4 false) (score 6.5 5 3 5 false) /\
  not_above (score 6.5 5 3 4 false) (score 6.5 7.5 3 4 false) /\
  not_above (score 8 5 3 4 false) (score 6.5 5 3 4 false) /\
  not_above (score 6.5 5 3 4 true) (score 6.5 5 3 4 false).
Proof.
  destruct (score_monotone 6.5 5 3 4 false) as (H1 & H2 & H3 & H4 & H5).
  split; [apply H1; lia |].
  split; [apply H2; lia |].
  split; [apply H3; reflexivity |].
  split; [apply H4; reflexivity |].
  exact H5.
Defined.

(** * Further properties *)

(** ** The advice and the level *)

Lemma category_cases (s : float) :
  number s ->
  let v := value s in
  (v <= 30 * 2 ^ 1074 /\ category s = category 0) \/
  (30 * 2 ^ 1074 < v <= 60 * 2 ^ 1074 /\ category s = category 45) \/
  (60 * 2 ^ 1074 < v <= 80 * 2 ^ 1074 /\ category s = category 70) \/
  (80 * 2 ^ 1074 < v /\ category s = category 100).
Proof.
  intros N v. unfold category at 1 3 5 7.
  rewrite (leb_value s 30 N number_30), (leb_value s 60 N number_60),
    (leb_value s 80 N number_80), value_30, value_60, value_80. fold v.
  hide_pow 1074%Z U.
  destruct (Z.leb_spec v (30 * U)); [left; split; [lia | reflexivity] |].
  destruct (Z.leb_spec v (60 * U)); [right; left; split; [lia | reflexivity] |].
  destruct (Z.leb_spec v (80 * U)); [right; right; left; split; [lia | reflexivity] |].
  right; right; right. split; [lia | reflexivity].
Qed.

Lemma body_cases (d : Z) (s : float) :
  number s ->
  let v := value s in
  (v <= 30 * 2 ^ 1074 /\ body d s = body_optimal) \/
  (30 * 2 ^ 1074 < v <= 60 * 2 ^ 1074 /\ body d s = body_friction) \/
  (60 * 2 ^ 1074 < v <= 80 * 2 ^ 1074 /\ body d s = body_pressure d) \/
  (80 * 2 ^ 1074 < v /\ body d s = body_overdrive).
Proof.
  intros N v. unfold body.
  rewrite (ltb_value 30 s number_30 N), (ltb_value 60 s number_60 N),
    (ltb_value 80 s number_80 N), value_30, value_60, value_80. fold v.
  hide_pow 1074%Z U.
  destruct (Z.ltb_spec (80 * U) v); [right; right; right; split; [lia | reflexivity] |].
  destruct (Z.ltb_spec (60 * U) v); [right; right; left; split; [lia | reflexivity] |].
  destruct (Z.ltb_spec (30 * U) v); [right; left; split; [lia | reflexivity] |].
  left. split; [lia | reflexivity].
Qed.

(** X1. The body of the advice follows the level: for a score that is a
    number, generateAIAdvice picks its sentence by the same bands the level
    is picked by (optimal with Healthy, friction with At Risk, pressure with
    High Risk, overdrive with Severe Burnout), although one chain tests
    [<=] upwards and the other [>] downwards.  For a NaN score the two part:
    the level is Severe Burnout and the body is the optimal one. *)
Theorem body_agrees_with_level :
  (forall (deadlines : Z) (s : float),
     number s ->
     (level (category s) = "🟢 Healthy" /\ body deadlines s = body_optimal) \/
     (level (category s) = "🟡 At Risk" /\ body deadlines s = body_friction) \/
     (level (category s) = "🟠 High Risk" /\ body deadlines s = body_pressure deadlines) \/
     (level (category s) = "🔴 Severe Burnout" /\ body deadlines s = body_overdrive)) /\
  (forall deadlines : Z,
     level (category nan) = "🔴 Severe Burnout" /\ body deadlines nan = body_optimal).
Proof.
  split; [| intros d; split; reflexivity].
  intros d s N.
  pose proof (category_cases s N) as C. pose proof (body_cases d s N) as B.
  cbv zeta in C, B. hide_pow 1074%Z U.
  destruct C as [[H1 E1] | [[H1 E1] | [[H1 E1] | [H1 E1]]]];
    destruct B as [[H2 E2] | [[H2 E2] | [[H2 E2] | [H2 E2]]]];
    try lia; rewrite E1, E2.
  - left. split; reflexivity.
  - right; left. split; reflexivity.
  - right; right; left. split; reflexivity.
  - right; right; right. split; reflexivity.
Qed.

Lemma body_agrees_with_level_witness :
  (level (category 70) = "🟢 Healthy" /\ body 3 70 = body_optimal) \/
  (level (category 70) = "🟡 At Risk" /\ body 3 70 = body_friction) \/
  (level (category 70) = "🟠 High Risk" /\ body 3 70 = body_pressure 3) \/
  (level (category 70) = "🔴 Severe Burnout" /\ body 3 70 = body_overdrive).
Proof.
  apply (proj1 body_agrees_with_level 3 70%float). reflexivity.
Defined.

(** ** The characters of the advice *)

Lemma plain_app (a b : string) : plain (a ++ b) = plain a && plain b.
Proof.
  induction a as [| c a IH]; cbn [plain append]; [reflexivity |].
  rewrite IH, andb_assoc. reflexivity.
Qed.

Lemma plain_uint (d : Decimal.uint) : plain (NilEmpty.string_of_uint d) = true.
Proof. induction d; cbn [NilEmpty.string_of_uint plain]; auto. Qed.

Lemma plain_string_of_int (n : Z) : plain (string_of_int n) = true.
Proof.
  unfold string_of_int, NilZero.string_of_int.
  destruct (Z.to_int n) as [d | d]; unfold NilZero.string_of_uint.
  - destruct d; try reflexivity; apply plain_uint.
  - cbn [plain]. destruct d; try reflexivity; apply plain_uint.
Qed.

Lemma plain_selectedIntro (draw : nat) : plain (selectedIntro draw) = true.
Proof.
  unfold selectedIntro, Intn. cbn [List.length intro].
  pose proof (Nat.mod_upper_bound draw 4 ltac:(lia)) as B.
  destruct (Nat.modulo draw 4) as [| [| [| [| k]]]]; try reflexivity. lia.
Qed.

Lemma plain_body (deadlines : Z) (score : float) :
  plain (body deadlines score) = true.
Proof.
  unfold body.
  destruct (80 <? score)%float; [reflexivity |].
  destruct (60 <? score)%float.
  - rewrite !plain_app, plain_string_of_int. reflexivity.
  - destruct (30 <? score)%float; reflexivity.
Qed.

Lemma plain_action (sleep : float) (deadlines stress : Z) :
  plain (action sleep deadlines stress) = true.
Proof.
  unfold action. destruct (sleep <? 5)%float; [reflexivity |].
  destruct (3 <? stress); [reflexivity |].
  destruct (4 <? deadlines); reflexivity.
Qed.

Lemma plain_mentions (c : ascii) (s : string) :
  plain_char c = false -> plain s = true -> mentions c s = false.
Proof.
  intros Hc. induction s as [| c' s IH]; cbn [plain mentions]; [reflexivity |].
  intros H. apply andb_true_iff in H. destruct H as [H1 H2].
  rewrite (IH H2), orb_false_r.
  destruct (Ascii.eqb_spec c' c) as [-> | ]; [congruence | reflexivity].
Qed.

(** X2. The advice is plain text: whatever the draw and the inputs,
    generateAIAdvice returns only letters, digits, spaces and the
    punctuation , . : ; ( ) / - ; in particular no quote, backslash,
    double quote, angle bracket, ampersand or newline, so that the
    fragment, which pastes the advice unescaped into markup and into a
    quoted argument of an inline script, stays well formed.  No level
    contains a quote, a backslash or a double quote either. *)
Theorem advice_is_plain_text :
  forall (draw : nat) (sleep : float) (deadlines stress : Z) (score : float),
    let advice := generateAIAdvice draw sleep deadlines stress score in
    plain advice = true /\
    mentions (ascii_of_nat 39) advice = false /\
    mentions (ascii_of_nat 92) advice = false /\
    mentions (ascii_of_nat 34) advice = false /\
    mentions (ascii_of_nat 60) advice = false /\
    mentions (ascii_of_nat 38) advice = false /\
    mentions (ascii_of_nat 10) advice = false /\
    mentions (ascii_of_nat 39) (level (category score)) = false /\
    mentions (ascii_of_nat 92) (level (category score)) = false /\
    mentions (ascii_of_nat 34) (level (category score)) = false.
Proof.
  intros draw sleep deadlines stress score advice.
  assert (P : plain advice = true).
  { unfold advice, generateAIAdvice.
    rewrite !plain_app, plain_selectedIntro, plain_body, plain_action.
    reflexivity. }
  split; [exact P |].
  do 6 (split; [apply plain_mentions; [reflexivity | exact P] |]).
  unfold category.
  destruct (score <=? 30)%float; [split; [| split]; reflexivity |].
  destruct (score <=? 60)%float; [split; [| split]; reflexivity |].
  destruct (score <=? 80)%float; split; [| split | | split]; reflexivity.
Qed.

(** ** What the handlers do to the table *)

Lemma insert_row_rows (t : Table) (created : Z) (v : Values) :
  rows (insert_row t created v) = (rows t ++ [new_row t created v])%list /\
  autoincrement (insert_row t created v) = autoincrement t + 1.
Proof. split; reflexivity. Qed.

(** What [calculate] does to the world, case by case. *)
Lemma calculate_cases sleep studyHours deadlines mood stress exercise (w : World) :
  let res := calculate sleep studyHours deadlines mood stress exercise w in
  let v := inserted sleep studyHours deadlines mood stress exercise w in
  now (snd res) = now w /\ draw (snd res) = draw w /\
  faults (snd res) = tl (faults w) /\
  ((exists err, hd None (faults w) = Some err /\
                fst res = http_Error err StatusInternalServerError /\
                entries (snd res) = entries w) \/
   (hd None (faults w) = None /\ entries w = None /\
    fst res = http_Error no_such_table StatusInternalServerError /\
    entries (snd res) = None) \/
   (exists t, hd None (faults w) = None /\ entries w = Some t /\
              status (fst res) = StatusOK /\
              entries (snd res) = Some (insert_row t (now w) v))).
Proof.
  cbv zeta. unfold calculate, db_Exec, next_fault.
  destruct w as [e n d fs]. cbn [faults entries now draw].
  destruct fs as [| [err |] fs]; cbn [hd tl with_faults entries now draw faults].
  - destruct e as [t |]; cbn.
    + repeat split. right; right. exists t. repeat split.
    + repeat split. right; left. repeat split.
  - cbn. repeat split. left. exists err. repeat split.
  - destruct e as [t |]; cbn.
    + repeat split. right; right. exists t. repeat split.
    + repeat split. right; left. repeat split.
Qed.

(** X3. handleCalculate only appends to the table: an answer other than
    200 leaves the table as it was; an answer 200 was a POST on an
    existing table, and the table afterwards is the old one with exactly
    one row added at the end, with the next id and the current time. *)
Theorem handleCalculate_only_appends :
  forall (strconv : Strconv) (r : Request) (w : World),
    let res := handleCalculate r w in
    (status (fst res) <> StatusOK -> entries (snd res) = entries w) /\
    (status (fst res) = StatusOK ->
       exists t row,
         entries w = Some t /\ Method r = "POST" /\
         entries (snd res) =
           Some {| rows := rows t ++ [row];
                   autoincrement := autoincrement t + 1 |} /\
         col_id row = autoincrement t + 1 /\
         col_created_at row = now w).
Proof.
  intros strconv r w res. subst res. unfold handleCalculate.
  destruct (String.eqb_spec (Method r) "POST") as [EM | NM]; cbn [negb].
  2:{ cbn. repeat split; try reflexivity. intros H. discriminate H. }
  match goal with |- context [calculate ?a ?b ?c ?d ?e ?f w] =>
    pose proof (calculate_cases a b c d e f w) as C;
    set (res := calculate a b c d e f w) in * end.
  cbv zeta in C. destruct C as (_ & _ & _ & C).
  destruct C as [(err & _ & R & E) | [(_ & E0 & R & E) | (t & _ & E0 & R & E)]].
  - split; [intros _; exact E |]. rewrite R. intros H. discriminate H.
  - split; [intros _; congruence |]. rewrite R. intros H. discriminate H.
  - split; [intros H; contradiction |]. intros _.
    eexists t, _. split; [exact E0 |]. split; [exact EM |].
    split; [exact E |]. split; reflexivity.
Qed.

Lemma StronglySorted_snoc {A : Type} (R : A -> A -> Prop) (l : list A) (x : A) :
  StronglySorted R l -> Forall (fun a => R a x) l -> StronglySorted R (l ++ [x]).
Proof.
  induction 1 as [| a l Hs IH Ha]; intros Hx; cbn [app].
  - constructor; constructor.
  - inversion Hx; subst. constructor; [apply IH; assumption |].
    apply Forall_app. split; [assumption | constructor; [assumption | constructor]].
Qed.

Lemma StronglySorted_lt_NoDup (l : list Z) : StronglySorted Z.lt l -> NoDup l.
Proof.
  induction 1 as [| a l Hs IH Ha]; constructor; [| exact IH].
  intros Hin. rewrite Forall_forall in Ha. specialize (Ha a Hin). lia.
Qed.

Lemma ids_ok_insert (t : Table) (created : Z) (v : Values) :
  StronglySorted Z.lt (map col_id (rows t)) ->
  Forall (fun r => col_id r <= autoincrement t) (rows t) ->
  StronglySorted Z.lt (map col_id (rows (insert_row t created v))) /\
  Forall (fun r => col_id r <= autoincrement (insert_row t created v))
         (rows (insert_row t created v)).
Proof.
  intros S B. cbn [insert_row rows autoincrement]. split.
  - rewrite map_app. cbn [map col_id]. apply StronglySorted_snoc; [exact S |].
    rewrite Forall_map. eapply Forall_impl; [| exact B]. cbn. intros; lia.
  - apply Forall_app. split.
    + eapply Forall_impl; [| exact B]. cbn. intros; lia.
    + constructor; [cbn; lia | constructor].
Qed.

Lemma handleChartData_world (w : World) :
  entries (snd (handleChartData w)) = entries w /\
  now (snd (handleChartData w)) = now w /\
  draw (snd (handleChartData w)) = draw w /\
  faults (snd (handleChartData w)) = tl (faults w).
Proof.
  unfold handleChartData, db_Query, next_fault.
  destruct w as [e n d [| [err |] fs]]; cbn [faults entries with_faults].
  - destruct e as [t |]; cbn.
    + destruct (scan_rows _ _ _) as [l dt].
      destruct (forallb json_number dt); cbn; auto.
    + auto.
  - cbn. auto.
  - destruct e as [t |]; cbn.
    + destruct (scan_rows _ _ _) as [l dt].
      destruct (forallb json_number dt); cbn; auto.
    + auto.
Qed.

Lemma runMigrations_ok (w w' : World) :
  runMigrations w = (None, w') -> entries w' = Some empty_table.
Proof.
  unfold runMigrations, db_Exec. intros H.
  destruct (next_fault w) as [[err |] w1]; [discriminate H |].
  cbn [entries with_entries] in H.
  destruct (next_fault (with_entries w1 None)) as [[err |] w2] eqn:E2;
    [discriminate H |].
  apply next_fault_entries in E2. destruct E2 as [E2 _].
  cbn [entries with_entries] in E2. rewrite E2 in H.
  inversion H. reflexivity.
Qed.

Lemma handleCalculate_entries (strconv : Strconv) (r : Request) (w : World) :
  entries (snd (handleCalculate r w)) = entries w \/
  exists t sleep studyHours deadlines mood stress exercise,
    entries w = Some t /\
    entries (snd (handleCalculate r w)) =
      Some (insert_row t (now w)
              (inserted sleep studyHours deadlines mood stress exercise w)).
Proof.
  unfold handleCalculate.
  destruct (negb (Method r =? "POST")%string); [left; reflexivity |].
  match goal with |- context [calculate ?a ?b ?c ?d ?e ?f w] =>
    pose proof (calculate_cases a b c d e f w) as C;
    set (res := calculate a b c d e f w) in * end.
  cbv zeta in C. destruct C as (_ & _ & _ & C).
  destruct C as [(err & _ & _ & E) | [(_ & E0 & _ & E) | (t & _ & E0 & _ & E)]].
  - left. exact E.
  - left. congruence.
  - right. eexists t, _, _, _, _, _, _. split; [exact E0 | exact E].
Qed.

(** X4. Ids stay unique: that the ids increase along the rows and none
    exceeds the counter is kept by handleCalculate, by handleChartData and
    by a successful migration, and it makes the ids of the table pairwise
    different. *)
Theorem ids_stay_unique :
  forall (strconv : Strconv) (w : World),
    ids_ok w ->
    (forall r, ids_ok (snd (handleCalculate r w))) /\
    ids_ok (snd (handleChartData w)) /\
    (forall w', runMigrations w = (None, w') -> ids_ok w') /\
    (forall t, entries w = Some t -> NoDup (map col_id (rows t))).
Proof.
  intros strconv w H. split; [| split; [| split]].
  - intros r. unfold ids_ok in *.
    destruct (handleCalculate_entries strconv r w) as [E | (t & a & b & c & d & e & f & E0 & E)].
    + rewrite E. exact H.
    + rewrite E. rewrite E0 in H. destruct H as [S B].
      apply ids_ok_insert; assumption.
  - unfold ids_ok in *. destruct (handleChartData_world w) as [E _].
    rewrite E. exact H.
  - intros w' M. unfold ids_ok. rewrite (runMigrations_ok w w' M).
    split; constructor.
  - intros t E. unfold ids_ok in H. rewrite E in H.
    apply StronglySorted_lt_NoDup, H.
Qed.

Lemma ids_stay_unique_witness :
  ids_ok (snd (handleCalculate (POST_mood "3") sample_world)).
Proof.
  apply (proj1 (ids_stay_unique go_strconv sample_world
                  ltac:(cbn; split; repeat constructor; cbn; lia))).
Defined.

(** ** The rows handleCalculate writes, and the chart of them *)

Lemma clamp_in_range (raw : float) :
  number (math.Max 0 (math.Min 100 raw)) ->
  in_range (math.Max 0 (math.Min 100 raw)).
Proof.
  intros N.
  assert (Hr : number raw).
  { destruct (math.IsNaN raw) eqn:E; [| exact E].
    rewrite (not_number raw E), clamp_nan in N. discriminate N. }
  destruct (Max_Min_number raw Hr) as [_ V].
  unfold in_range.
  rewrite (leb_value _ _ number_0 N), (leb_value _ _ N number_100), V,
    value_0, value_100.
  hide_pow 1074%Z U. split; apply Z.leb_le; lia.
Qed.

Lemma inserted_row_ok sleep studyHours deadlines mood stress exercise
    (w : World) (t : Table) (created : Z) :
  row_ok (new_row t created
            (inserted sleep studyHours deadlines mood stress exercise w)).
Proof.
  unfold row_ok, new_row, inserted. cbn [col_score col_level v_score v_level].
  unfold sql_real.
  destruct (math.IsNaN (score sleep studyHours deadlines stress exercise)) eqn:E.
  - rewrite (not_number _ E). reflexivity.
  - split; [apply clamp_in_range; exact E | reflexivity].
Qed.

(** X5. Stored rows stay classified: a row written by handleCalculate has a
    score within [0, 100] together with the level of that score, or a NULL
    score (the score was NaN) together with Severe Burnout; a table of
    such rows stays one under handleCalculate, handleChartData and a
    successful migration. *)
Theorem rows_stay_classified :
  forall (strconv : Strconv) (w : World),
    rows_ok w ->
    (forall r, rows_ok (snd (handleCalculate r w))) /\
    rows_ok (snd (handleChartData w)) /\
    (forall w', runMigrations w = (None, w') -> rows_ok w').
Proof.
  intros strconv w H. split; [| split].
  - intros r. unfold rows_ok in *.
    destruct (handleCalculate_entries strconv r w)
      as [E | (t & a & b & c & d & e & f & E0 & E)].
    + rewrite E. exact H.
    + rewrite E. rewrite E0 in H.
      destruct (insert_row_rows t (now w) (inserted a b c d e f w)) as [-> _].
      apply Forall_app. split; [exact H |].
      constructor; [apply inserted_row_ok | constructor].
  - unfold rows_ok in *. destruct (handleChartData_world w) as [E _].
    rewrite E. exact H.
  - intros w' M. unfold rows_ok. rewrite (runMigrations_ok w w' M). constructor.
Qed.

Lemma rows_stay_classified_witness :
  rows_ok (snd (handleCalculate (POST_mood "3") fresh_world)).
Proof.
  apply (proj1 (rows_stay_classified go_strconv fresh_world
    ltac:(cbn; constructor))).
Defined.

Lemma in_range_json_number (s : float) : in_range s -> json_number s = true.
Proof.
  intros [H0 H100]. apply leb_true_value in H0. apply leb_true_value in H100.
  destruct H0 as (_ & N & L0). destruct H100 as (_ & _ & L100).
  rewrite value_0 in L0. rewrite value_100 in L100.
  unfold json_number, math.IsInf_pos, math.IsInf_neg.
  rewrite N, (eqb_value _ _ N number_infinity),
    (eqb_value _ _ N number_neg_infinity), value_infinity, value_neg_infinity.
  assert (100 * 2 ^ 1074 < 2 ^ 2098).
  { change (2 ^ 2098) with (2 ^ 1024 * 2 ^ 1074).
    apply Z.mul_lt_mono_pos_r; [exact pow2_1074_pos | reflexivity]. }
  hide_pow 2098%Z T. hide_pow 1074%Z U.
  destruct (Z.eqb_spec (value s) T); [lia |].
  destruct (Z.eqb_spec (value s) (- T)); [lia |]. reflexivity.
Qed.

Lemma decoded_In (rs : list (Z * option float)) (t : Z) (s : float) :
  In (t, s) (decoded rs) <-> In (t, Some s) rs.
Proof.
  unfold decoded. rewrite in_flat_map. split.
  - intros ([t' o] & Hin & H). unfold Scan in H. cbn [fst snd] in H.
    destruct o as [s' |]; [| contradiction].
    destruct H as [H | []]. inversion H; subst. exact Hin.
  - intros Hin. exists (t, Some s). split; [exact Hin |]. left. reflexivity.
Qed.

Lemma decoded_length (rs : list (Z * option float)) :
  (List.length (decoded rs) <= List.length rs)%nat.
Proof.
  induction rs as [| r rs IH]; cbn [decoded flat_map List.length]; [lia |].
  fold (decoded rs). rewrite length_app. destruct (Scan r); cbn; lia.
Qed.

Lemma RecentSeries_In (limit : nat) (t : Table) (p : Z * option float) :
  In p (RecentSeries limit t) -> In p (series t).
Proof.
  intros H. destruct (RecentSeries_spec limit t) as (_ & _ & older & P & _).
  apply (Permutation_in _ P). apply in_or_app. left. exact H.
Qed.

Lemma handleChartData_ok (w : World) (t : Table) :
  entries w = Some t -> hd None (faults w) = None ->
  let ds := decoded (RecentSeries 10 t) in
  handleChartData w =
    (if forallb json_number (map snd ds) then
       {| status := StatusOK;
          header := [("Content-Type", "application/json")];
          resp_body := JSON {| Labels := map (fun p => Format_15_04 (fst p)) ds;
                               Data := map snd ds |} |}
     else http_Error (json_unsupported (map snd ds)) StatusInternalServerError,
     with_faults w (tl (faults w))).
Proof.
  intros Ht Hf ds. unfold handleChartData, db_Query.
  rewrite (next_fault_none w Hf). cbn [entries with_faults]. rewrite Ht.
  rewrite scan_rows_decoded. cbn [app]. fold ds.
  destruct (forallb json_number (map snd ds)); reflexivity.
Qed.

(** X6. On a table of rows as handleCalculate writes them, with a healthy
    storage, handleChartData answers 200 with JSON: the encoder never
    meets an infinity or a NaN, there are at most ten points, and each
    lies within [0, 100]. *)
Theorem chart_of_classified_rows :
  forall (w : World) (t : Table),
    rows_ok w -> entries w = Some t -> hd None (faults w) = None ->
    exists c,
      fst (handleChartData w) =
        {| status := StatusOK;
           header := [("Content-Type", "application/json")];
           resp_body := JSON c |} /\
      (List.length (Data c) <= 10)%nat /\
      Forall in_range (Data c).
Proof.
  intros w t H Ht Hf. unfold rows_ok in H. rewrite Ht in H.
  set (ds := decoded (RecentSeries 10 t)).
  assert (R : Forall in_range (map snd ds)).
  { apply Forall_forall. intros s Hs. apply in_map_iff in Hs.
    destruct Hs as ([ts s'] & <- & Hin). cbn [snd].
    apply decoded_In, RecentSeries_In in Hin. unfold series in Hin.
    apply in_map_iff in Hin. destruct Hin as (row & E & Hrow).
    rewrite Forall_forall in H. specialize (H row Hrow). unfold row_ok in H.
    inversion E as [[E1 E2]]. rewrite E2 in H. apply H. }
  assert (J : forallb json_number (map snd ds) = true).
  { apply forallb_forall. intros s Hs. rewrite Forall_forall in R.
    apply in_range_json_number, R, Hs. }
  rewrite (handleChartData_ok w t Ht Hf). cbv zeta. fold ds. rewrite J.
  eexists. split; [reflexivity |]. cbn [Data]. split; [| exact R].
  rewrite length_map. eapply Nat.le_trans; [apply decoded_length |].
  destruct (RecentSeries_spec 10 t) as (L & _). rewrite L. apply Nat.le_min_l.
Qed.

Lemma one_entry_world_ok : rows_ok one_entry_world.
Proof.
  vm_compute. repeat constructor.
Qed.

Lemma chart_of_classified_rows_witness :
  exists c,
    fst (handleChartData one_entry_world) =
      {| status := StatusOK;
         header := [("Content-Type", "application/json")];
         resp_body := JSON c |} /\
    (List.length (Data c) <= 10)%nat /\
    Forall in_range (Data c).
Proof.
  apply (chart_of_classified_rows one_entry_world _
           one_entry_world_ok eq_refl eq_refl).
Defined.

(** ** The newest row in the chart *)

Section NewestRow.

Variable A : Type.
Variable key : A -> Z.

Lemma order_by_DESC_newest (l : list A) (x : A) :
  Forall (fun y => key y < key x) l ->
  order_by key DESC (l ++ [x]) = x :: order_by key DESC l.
Proof.
  intros H. unfold order_by. rewrite fold_right_app. cbn [fold_right insert_by].
  induction H as [| a l Ha Hl IH]; cbn [fold_right]; [reflexivity |].
  rewrite IH. cbn [insert_by]. unfold DESC at 1.
  replace (key a >=? key x) with false; [reflexivity |].
  symmetry. rewrite Z.geb_leb. apply Z.leb_gt. exact Ha.
Qed.

Lemma insert_by_ASC_newest (l : list A) (x : A) :
  Forall (fun y => key y < key x) l ->
  insert_by key ASC x l = (l ++ [x])%list.
Proof.
  induction 1 as [| a l Ha Hl IH]; cbn [insert_by app]; [reflexivity |].
  unfold ASC at 1. replace (key x <=? key a) with false by (symmetry; apply Z.leb_gt; exact Ha).
  rewrite IH. reflexivity.
Qed.

Lemma order_by_ASC_newest (l : list A) (x : A) :
  Forall (fun y => key y < key x) l ->
  order_by key ASC (x :: l) = (order_by key ASC l ++ [x])%list.
Proof.
  intros H. unfold order_by at 1. cbn [fold_right]. fold (order_by key ASC l).
  apply insert_by_ASC_newest.
  eapply Permutation_Forall; [apply Permutation_sym, order_by_Permutation | exact H].
Qed.

End NewestRow.

Lemma Forall_firstn {A : Type} (P : A -> Prop) (n : nat) (l : list A) :
  Forall P l -> Forall P (firstn n l).
Proof.
  intros H. rewrite Forall_forall in *. intros x Hx. apply H.
  rewrite <- (firstn_skipn n l). apply in_or_app. left. exact Hx.
Qed.

(** The query after an insertion later than every stored row: the new row
    comes last, after the [n] latest of the others. *)
Lemma RecentSeries_after_insert (n : nat) (t : Table) (created : Z) (v : Values) :
  Forall (fun r => col_created_at r < created) (rows t) ->
  RecentSeries (S n) (insert_row t created v) =
    (RecentSeries n t ++ [(created, sql_real (v_score v))])%list.
Proof.
  intros H. unfold RecentSeries. cbn [insert_row rows].
  rewrite map_app. cbn [map col_created_at col_score].
  set (x := (created, sql_real (v_score v))).
  set (l := map (fun r => (col_created_at r, col_score r)) (rows t)).
  assert (Hl : Forall (fun y => fst y < fst x) l).
  { unfold l. rewrite Forall_map. eapply Forall_impl; [| exact H]. cbn. auto. }
  rewrite (order_by_DESC_newest _ fst l x Hl). cbn [firstn].
  apply order_by_ASC_newest. apply Forall_firstn.
  eapply Permutation_Forall; [apply Permutation_sym, order_by_Permutation | exact Hl].
Qed.

Lemma decoded_app (a b : list (Z * option float)) :
  decoded (a ++ b) = (decoded a ++ decoded b)%list.
Proof. unfold decoded. apply flat_map_app. Qed.

(** X7. A submission shows up at the end of the chart: after a calculate
    that succeeds at a time later than every stored row, with a score that
    is a number, the next handleChartData answers 200 and its last data
    point is that score, its last label the time of the submission. *)
Theorem newest_entry_closes_the_chart :
  forall (sleep studyHours : float) (deadlines mood stress : Z) (exercise : bool)
         (w : World) (t : Table),
    entries w = Some t -> rows_ok w ->
    hd None (faults w) = None -> hd None (tl (faults w)) = None ->
    Forall (fun r => col_created_at r < now w) (rows t) ->
    number (score sleep studyHours deadlines stress exercise) ->
    let w' := snd (calculate sleep studyHours deadlines mood stress exercise w) in
    exists c,
      fst (handleChartData w') =
        {| status := StatusOK;
           header := [("Content-Type", "application/json")];
           resp_body := JSON c |} /\
      last (Data c) 0%float = score sleep studyHours deadlines stress exercise /\
      last (Labels c) "" = Format_15_04 (now w).
Proof.
  intros sleep studyHours deadlines mood stress exercise w t Ht Hok F1 F2 Hnew N w'.
  pose proof (calculate_cases sleep studyHours deadlines mood stress exercise w) as C.
  cbv zeta in C. fold w' in C. destruct C as (_ & _ & Hf & C).
  destruct C as [(err & E & _) | [(_ & E & _) | (t' & _ & E & _ & Ew')]];
    [congruence | congruence |].
  assert (t' = t) by congruence. subst t'.
  set (v := inserted sleep studyHours deadlines mood stress exercise w) in *.
  assert (Hok' : rows_ok w').
  { unfold rows_ok. rewrite Ew'.
    destruct (insert_row_rows t (now w) v) as [-> _].
    unfold rows_ok in Hok. rewrite Ht in Hok.
    apply Forall_app. split; [exact Hok |].
    constructor; [apply inserted_row_ok | constructor]. }
  assert (F' : hd None (faults w') = None) by (rewrite Hf; exact F2).
  rewrite (handleChartData_ok w' _ Ew' F'). cbv zeta.
  rewrite (RecentSeries_after_insert 9 t (now w) v Hnew).
  assert (Es : sql_real (v_score v) = Some (score sleep studyHours deadlines stress exercise)).
  { unfold v, inserted. cbn [v_score]. unfold sql_real.
    unfold number in N. rewrite N. reflexivity. }
  rewrite Es, decoded_app. cbn [decoded flat_map Scan snd fst app].
  set (ds := decoded (RecentSeries 9 t)).
  assert (J : forallb json_number
                (map snd (ds ++ [(now w, score sleep studyHours deadlines stress exercise)])) = true).
  { rewrite map_app, forallb_app. apply andb_true_iff. split.
    - apply forallb_forall. intros s Hs. apply in_map_iff in Hs.
      destruct Hs as ([ts s'] & <- & Hin). cbn [snd].
      apply decoded_In, RecentSeries_In in Hin. unfold series in Hin.
      apply in_map_iff in Hin. destruct Hin as (row & Er & Hrow).
      unfold rows_ok in Hok. rewrite Ht in Hok.
      rewrite Forall_forall in Hok. specialize (Hok row Hrow). unfold row_ok in Hok.
      inversion Er as [[E1 E2]]. rewrite E2 in Hok.
      apply in_range_json_number, Hok.
    - cbn [map forallb snd]. rewrite andb_true_r.
      apply in_range_json_number, clamp_in_range, N. }
  rewrite J. eexists. split; [reflexivity |]. cbn [Data Labels].
  rewrite !map_app. cbn [map fst snd]. rewrite !last_last. split; reflexivity.
Qed.

Lemma newest_entry_closes_the_chart_witness :
  exists c,
    fst (handleChartData (snd (calculate 6.5 5 3 2 4 false later_world))) =
      {| status := StatusOK;
         header := [("Content-Type", "application/json")];
         resp_body := JSON c |} /\
    last (Data c) 0%float = score 6.5 5 3 4 false /\
    last (Labels c) "" = Format_15_04 (now later_world).
Proof.
  refine (newest_entry_closes_the_chart 6.5 5 3 2 4 false
            later_world _ eq_refl _ eq_refl eq_refl _ eq_refl).
  - exact one_entry_world_ok.
  - cbn. repeat constructor.
Defined.

(** X8. How the migration fails.  If the DROP fails, runMigrations returns
    its error with the table untouched and the program does not start; if
    the CREATE fails, the error comes back with the table already
    dropped, and the program does not start either.  Without a table, on
    a healthy storage, calculate and handleChartData both answer 500 with
    the error of the missing table. *)
Theorem migration_failures :
  forall (w : World) (err : string) (fs : list (option string)),
    (faults w = Some err :: fs ->
       runMigrations w = (Some err, with_faults w fs) /\ startup w = None) /\
    (faults w = None :: Some err :: fs ->
       runMigrations w = (Some err, with_faults (with_entries w None) fs) /\
       startup w = None) /\
    (entries w = None -> hd None (faults w) = None ->
       (forall sleep studyHours deadlines mood stress exercise,
          fst (calculate sleep studyHours deadlines mood stress exercise w) =
            http_Error no_such_table StatusInternalServerError) /\
       fst (handleChartData w) =
         http_Error no_such_table StatusInternalServerError).
Proof.
  intros w err fs. split; [| split].
  - intros F. unfold startup, runMigrations, db_Exec, next_fault. rewrite F.
    split; reflexivity.
  - intros F.
    assert (R : runMigrations w = (Some err, with_faults (with_entries w None) fs)).
    { unfold runMigrations, db_Exec, next_fault. rewrite F.
      cbn [with_faults with_entries entries faults now draw]. reflexivity. }
    split; [exact R |]. unfold startup. rewrite R. reflexivity.
  - intros E F. split.
    + intros. unfold calculate, db_Exec. rewrite (next_fault_none w F).
      cbn [entries with_faults]. rewrite E. reflexivity.
    + unfold handleChartData, db_Query. rewrite (next_fault_none w F).
      cbn [entries with_faults]. rewrite E. reflexivity.
Qed.

Lemma migration_failures_witness :
  runMigrations failing_create_world =
    (Some "disk I/O error",
     with_faults (with_entries failing_create_world None) []) /\
  startup failing_create_world = None.
Proof.
  apply (proj1 (proj2 (migration_failures failing_create_world
                         "disk I/O error" []))).
  reflexivity.
Defined.

(** ** The labels *)

Lemma length_append (a b : string) :
  String.length (a ++ b) = (String.length a + String.length b)%nat.
Proof.
  induction a as [| c a IH]; cbn [append String.length]; [reflexivity |].
  rewrite IH. reflexivity.
Qed.

Lemma two_digits_length (n : Z) :
  0 <= n < 60 -> String.length (two_digits n) = 2%nat.
Proof.
  intros H.
  assert (E : n = Z.of_nat (Z.to_nat n)) by lia. rewrite E.
  assert (B : (Z.to_nat n < 60)%nat) by lia.
  generalize dependent (Z.to_nat n). intros k _ B.
  do 60 (destruct k as [| k]; [reflexivity |]). lia.
Qed.

(** X9. The label of a chart point is a time of day: five characters
    hh:mm with hh below 24 and mm below 60, the same for two entries a
    whole day apart, so labels do not tell days apart. *)
Theorem label_is_time_of_day :
  forall t : Z,
    Format_15_04 (t + 86400) = Format_15_04 t /\
    String.length (Format_15_04 t) = 5%nat /\
    exists h m, 0 <= h < 24 /\ 0 <= m < 60 /\
                Format_15_04 t = two_digits h ++ ":" ++ two_digits m.
Proof.
  intros t. split; [| split].
  - unfold Format_15_04.
    replace ((t + 86400) mod 86400) with (t mod 86400)
      by (replace (t + 86400) with (t + 1 * 86400) by lia;
          rewrite Z.mod_add by lia; reflexivity).
    replace ((t + 86400) mod 3600) with (t mod 3600)
      by (replace (t + 86400) with (t + 24 * 3600) by lia;
          rewrite Z.mod_add by lia; reflexivity).
    reflexivity.
  - unfold Format_15_04.
    pose proof (Z.mod_pos_bound t 86400 ltac:(lia)).
    pose proof (Z.mod_pos_bound t 3600 ltac:(lia)).
    assert (0 <= t mod 86400 / 3600 < 24)
      by (split; [apply Z.div_pos; lia | apply Z.div_lt_upper_bound; lia]).
    assert (0 <= t mod 3600 / 60 < 60)
      by (split; [apply Z.div_pos; lia | apply Z.div_lt_upper_bound; lia]).
    rewrite !length_append, !two_digits_length by lia. reflexivity.
  - pose proof (Z.mod_pos_bound t 86400 ltac:(lia)).
    pose proof (Z.mod_pos_bound t 3600 ltac:(lia)).
    exists (t mod 86400 / 3600), (t mod 3600 / 60).
    split; [split; [apply Z.div_pos; lia | apply Z.div_lt_upper_bound; lia] |].
    split; [split; [apply Z.div_pos; lia | apply Z.div_lt_upper_bound; lia] |].
    reflexivity.
Qed.

(** ** The level, ordered *)

Lemma severity_category (s : float) :
  number s ->
  let v := value s in
  severity (level (category s)) =
    if v <=? 30 * 2 ^ 1074 then 0%nat
    else if v <=? 60 * 2 ^ 1074 then 1%nat
    else if v <=? 80 * 2 ^ 1074 then 2%nat else 3%nat.
Proof.
  intros N v. unfold category.
  rewrite (leb_value s 30 N number_30), (leb_value s 60 N number_60),
    (leb_value s 80 N number_80), value_30, value_60, value_80. fold v.
  destruct (v <=? 30 * 2 ^ 1074); [reflexivity |].
  destruct (v <=? 60 * 2 ^ 1074); [reflexivity |].
  destruct (v <=? 80 * 2 ^ 1074); reflexivity.
Qed.

Lemma severity_nan (s : float) :
  (severity (level (category s)) <= severity (level (category nan)))%nat.
Proof.
  unfold category at 1.
  destruct (s <=? 30)%float; [cbn; lia |].
  destruct (s <=? 60)%float; [cbn; lia |].
  destruct (s <=? 80)%float; cbn; lia.
Qed.

Lemma severity_below (s s' : float) :
  number s -> below s s' ->
  (severity (level (category s)) <= severity (level (category s')))%nat.
Proof.
  intros N B. destruct (math.IsNaN s') eqn:E'.
  { rewrite (not_number _ E'). apply severity_nan. }
  specialize (B N E').
  rewrite (severity_category s N), (severity_category s' E'). cbv zeta.
  hide_pow 1074%Z U.
  destruct (Z.leb_spec (value s) (30 * U)), (Z.leb_spec (value s') (30 * U));
    [reflexivity | apply Nat.le_0_l | exfalso; lia |].
  destruct (Z.leb_spec (value s) (60 * U)), (Z.leb_spec (value s') (60 * U));
    [reflexivity | | exfalso; lia |].
  { destruct (value s' <=? 80 * U); repeat constructor. }
  destruct (Z.leb_spec (value s) (80 * U)), (Z.leb_spec (value s') (80 * U));
    [reflexivity | repeat constructor | exfalso; lia | reflexivity].
Qed.

(** X10. The level follows the score upwards: a score that compares [<=]
    to another has a level at most as severe; so more deadlines, or more
    stress, never give a milder level (the lower submission's score being
    a number). *)
Theorem higher_score_never_lowers_the_level :
  forall (sleep studyHours : float) (deadlines stress : Z) (exercise : bool),
    (forall s s' : float,
       (s <=? s')%float = true ->
       (severity (level (category s)) <= severity (level (category s')))%nat) /\
    (forall deadlines', deadlines <= deadlines' ->
       number (score sleep studyHours deadlines stress exercise) ->
       (severity (level (category (score sleep studyHours deadlines stress exercise))) <=
        severity (level (category (score sleep studyHours deadlines' stress exercise))))%nat) /\
    (forall stress', stress <= stress' ->
       number (score sleep studyHours deadlines stress exercise) ->
       (severity (level (category (score sleep studyHours deadlines stress exercise))) <=
        severity (level (category (score sleep studyHours deadlines stress' exercise))))%nat).
Proof.
  intros sleep studyHours deadlines stress exercise. split; [| split].
  - intros s s' H. pose proof (leb_numbers _ _ H) as [N _].
    apply severity_below; [exact N | apply leb_below, H].
  - intros d' H N. apply severity_below; [exact N |].
    unfold score. apply clamp_below, rawScore_below_deadlines, H.
  - intros s' H N. apply severity_below; [exact N |].
    unfold score. apply clamp_below, rawScore_below_stress, H.
Qed.

Lemma higher_score_never_lowers_the_level_witness :
  (severity (level (category (score 6.5 5 3 4 false))) <=
   severity (level (category (score 6.5 5 9 4 false))))%nat.
Proof.
  apply (proj1 (proj2 (higher_score_never_lowers_the_level 6.5 5 3 4 false)));
    [lia | reflexivity].
Defined.

(** ** The score on whole numbers *)

(** An integer of at most 53 bits is its own rounding. *)
Lemma Rnd_integer (c k : Z) :
  0 <= c -> 0 < k < 2 ^ 53 ->
  Rnd c (k * 2 ^ (1074 + c)) = k * 2 ^ 1074.
Proof.
  intros Hc Hk. unfold Rnd. cbv zeta.
  rewrite Zdigits2_scale by lia.
  pose proof (Zdigits2_pos k ltac:(lia)) as Dp.
  pose proof (Zdigits2_le k 53 ltac:(lia) ltac:(lia)) as Dl.
  set (d := Zdigits2 k) in *.
  replace (Z.max (d + (1074 + c) - 53) c) with (d + 1021 + c) by lia.
  replace (k * 2 ^ (1074 + c)) with (k * 2 ^ (53 - d) * 2 ^ (d + 1021 + c)).
  2:{ rewrite <- Z.mul_assoc, <- pow2_split by lia. do 2 f_equal. lia. }
  replace (d + 1021 + c) with (0 + (d + 1021 + c)) at 2 by lia.
  rewrite RNE_scale, RNE_0 by lia.
  replace (0 + (d + 1021 + c) - c) with (d + 1021) by lia.
  rewrite <- Z.mul_assoc, <- pow2_split by lia. do 2 f_equal. lia.
Qed.

Lemma integer_below_top (k : Z) : 0 <= k < 2 ^ 53 -> k * 2 ^ 1074 < 2 ^ 2098.
Proof.
  intros H. change (2 ^ 2098) with (2 ^ 1024 * 2 ^ 1074).
  apply Z.mul_lt_mono_pos_r; [exact pow2_1074_pos |].
  eapply Z.lt_le_trans; [apply H |]. apply Z.pow_le_mono_r; lia.
Qed.

Lemma round_to_integer (c k : Z) :
  0 <= c -> - 2 ^ 53 < k < 2 ^ 53 ->
  round_to c (k * 2 ^ (1074 + c)) = k * 2 ^ 1074.
Proof.
  intros Hc Hk.
  assert (P : 0 < 2 ^ (1074 + c)) by (apply Z.pow_pos_nonneg; lia).
  destruct (Z.lt_trichotomy k 0) as [Hn | [-> | Hp]].
  - rewrite round_to_neg by nia.
    replace (- (k * 2 ^ (1074 + c))) with ((- k) * 2 ^ (1074 + c)) by ring.
    rewrite Rnd_integer by lia.
    rewrite Z.min_r by (apply Z.lt_le_incl, integer_below_top; lia).
    rewrite Z.mul_opp_l. apply Z.opp_involutive.
  - rewrite !Z.mul_0_l. apply round_to_0.
  - rewrite round_to_pos by nia. rewrite Rnd_integer by lia.
    rewrite Z.min_r by (apply Z.lt_le_incl, integer_below_top; lia).
    reflexivity.
Qed.

Lemma integral_fin (x : float) (k : Z) :
  integral x k -> - 2 ^ 53 < k < 2 ^ 53 -> fin (Prim2SF x).
Proof.
  intros [N V] Hk. apply number_iff in N. unfold value in V.
  destruct (Prim2SF x) as [s | s | | s m e]; try exact I; [| congruence].
  exfalso. cbn [B64_value] in V.
  assert (B : Z.abs k * 2 ^ 1074 < 2 ^ 2098) by (apply integer_below_top; lia).
  hide_pow 2098%Z T. hide_pow 1074%Z U.
  destruct s; cbn [cond_Zopp] in V; nia.
Qed.

Lemma float64_integral (k : Z) :
  - 2 ^ 53 < k < 2 ^ 53 -> integral (float64 k) k.
Proof.
  intros Hk. destruct (float64_value k) as [N V]. split; [exact N |].
  rewrite V. apply (round_to_integer 0 k); lia.
Qed.

Lemma add_integral (x y : float) (a b : Z) :
  integral x a -> integral y b ->
  - 2 ^ 53 < a < 2 ^ 53 -> - 2 ^ 53 < b < 2 ^ 53 -> - 2 ^ 53 < a + b < 2 ^ 53 ->
  integral (x + y)%float (a + b).
Proof.
  intros Hx Hy Ha Hb Hab.
  pose proof (integral_fin x a Hx Ha) as Fx. pose proof (integral_fin y b Hy Hb) as Fy.
  destruct Hx as [_ Vx], Hy as [_ Vy]. unfold value in *.
  destruct (SFadd_fin (Prim2SF x) (Prim2SF y) (Prim2SF_valid x) (Prim2SF_valid y) Fx Fy)
    as [N V].
  split; [apply number_iff; rewrite add_spec; exact N |].
  unfold value. rewrite add_spec. unfold SF64add. rewrite V, Vx, Vy.
  rewrite <- Z.mul_add_distr_r. apply (round_to_integer 0 (a + b)); lia.
Qed.

Lemma sub_integral (x y : float) (a b : Z) :
  integral x a -> integral y b ->
  - 2 ^ 53 < a < 2 ^ 53 -> - 2 ^ 53 < b < 2 ^ 53 -> - 2 ^ 53 < a - b < 2 ^ 53 ->
  integral (x - y)%float (a - b).
Proof.
  intros Hx Hy Ha Hb Hab.
  pose proof (integral_fin x a Hx Ha) as Fx. pose proof (integral_fin y b Hy Hb) as Fy.
  destruct Hx as [_ Vx], Hy as [_ Vy]. unfold value in *.
  destruct (SFsub_fin (Prim2SF x) (Prim2SF y) (Prim2SF_valid x) (Prim2SF_valid y) Fx Fy)
    as [N V].
  split; [apply number_iff; rewrite sub_spec; exact N |].
  unfold value. rewrite sub_spec. unfold SF64sub. rewrite V, Vx, Vy.
  rewrite <- Z.mul_sub_distr_r. apply (round_to_integer 0 (a - b)); lia.
Qed.

Lemma mul_integral (x y : float) (a b : Z) :
  integral x a -> integral y b ->
  - 2 ^ 53 < a < 2 ^ 53 -> - 2 ^ 53 < b < 2 ^ 53 -> - 2 ^ 53 < a * b < 2 ^ 53 ->
  integral (x * y)%float (a * b).
Proof.
  intros Hx Hy Ha Hb Hab.
  pose proof (integral_fin x a Hx Ha) as Fx. pose proof (integral_fin y b Hy Hb) as Fy.
  destruct Hx as [_ Vx], Hy as [_ Vy]. unfold value in *.
  destruct (SFmul_fin (Prim2SF x) (Prim2SF y) (Prim2SF_valid x) (Prim2SF_valid y) Fx Fy)
    as [N V].
  split; [apply number_iff; rewrite mul_spec; exact N |].
  unfold value. rewrite mul_spec. unfold SF64mul. rewrite V, Vx, Vy.
  replace (a * 2 ^ 1074 * (b * 2 ^ 1074)) with (a * b * 2 ^ (1074 + 1074))
    by (rewrite (pow2_split 1074 1074) by lia; set (U := 2 ^ 1074); ring).
  apply (round_to_integer 1074 (a * b)); lia.
Qed.

Lemma integral_3 : integral 3 3.
Proof. split; reflexivity. Qed.
Lemma integral_8 : integral 8 8.
Proof. split; reflexivity. Qed.
Lemma integral_10 : integral 10 10.
Proof. split; reflexivity. Qed.
Lemma integral_12 : integral 12 12.
Proof. split; reflexivity. Qed.
Lemma integral_0 : integral 0 0.
Proof. split; reflexivity. Qed.

Lemma rawScore_integral (sleep studyHours deadlines stress : Z) (exercise : bool) :
  Z.abs sleep <= 2 ^ 40 -> Z.abs studyHours <= 2 ^ 40 ->
  Z.abs deadlines <= 2 ^ 40 -> Z.abs stress <= 2 ^ 40 ->
  integral (rawScore (float64 sleep) (float64 studyHours) deadlines stress exercise)
           (rawScore_Z sleep studyHours deadlines stress exercise).
Proof.
  intros H1 H2 H3 H4. unfold rawScore, rawScore_Z, sleepPenalty, exerciseBonus.
  change (2 ^ 40) with 1099511627776 in *.
  assert (B : 2 ^ 53 = 9007199254740992) by reflexivity.
  assert (Hb : integral (if exercise then 10 else 0)%float (if exercise then 10 else 0))
    by (destruct exercise; [exact integral_10 | exact integral_0]).
  apply sub_integral; [| exact Hb | rewrite B; destruct exercise; lia ..].
  apply add_integral; [| | rewrite B; lia ..].
  - apply add_integral; [| | rewrite B; lia ..].
    + apply add_integral; [| | rewrite B; lia ..].
      * apply mul_integral; [apply float64_integral | exact integral_10 | ..]; rewrite B; lia.
      * apply mul_integral; [apply float64_integral | exact integral_12 | ..]; rewrite B; lia.
    + apply mul_integral; [| exact integral_8 | rewrite B; lia ..].
      apply sub_integral; [exact integral_8 | apply float64_integral | ..]; rewrite B; lia.
  - apply mul_integral; [apply float64_integral | exact integral_3 | ..]; rewrite B; lia.
Qed.

(** X11. On whole numbers the floating-point formula is exact: for sleep,
    study hours, deadlines and stress that are integers of magnitude at
    most 2^40, the raw score computed in float64 equals the integer
    formula 10 d + 12 s + 8 (8 - sleep) + 3 study - (10 if exercise), and
    the score equals that integer clamped to [0, 100]; no rounding takes
    place. *)
Theorem score_of_whole_numbers_is_exact :
  forall (sleep studyHours deadlines stress : Z) (exercise : bool),
    Z.abs sleep <= 2 ^ 40 -> Z.abs studyHours <= 2 ^ 40 ->
    Z.abs deadlines <= 2 ^ 40 -> Z.abs stress <= 2 ^ 40 ->
    (rawScore (float64 sleep) (float64 studyHours) deadlines stress exercise =?
     float64 (rawScore_Z sleep studyHours deadlines stress exercise))%float = true /\
    (score (float64 sleep) (float64 studyHours) deadlines stress exercise =?
     float64 (score_Z sleep studyHours deadlines stress exercise))%float = true.
Proof.
  intros sleep studyHours deadlines stress exercise H1 H2 H3 H4.
  pose proof (rawScore_integral sleep studyHours deadlines stress exercise H1 H2 H3 H4)
    as [N V].
  set (raw := rawScore (float64 sleep) (float64 studyHours) deadlines stress exercise) in *.
  set (F := rawScore_Z sleep studyHours deadlines stress exercise) in *.
  assert (BF : - 2 ^ 53 < F < 2 ^ 53).
  { unfold F, rawScore_Z. change (2 ^ 40) with 1099511627776 in *.
    change (2 ^ 53) with 9007199254740992. destruct exercise; lia. }
  destruct (float64_integral F BF) as [NF VF].
  split.
  - rewrite (eqb_value _ _ N NF), V, VF. apply Z.eqb_refl.
  - unfold score. fold raw.
    destruct (Max_Min_number raw N) as [Ns Vs].
    assert (BS : - 2 ^ 53 < score_Z sleep studyHours deadlines stress exercise < 2 ^ 53).
    { unfold score_Z. fold F. change (2 ^ 53) with 9007199254740992. lia. }
    destruct (float64_integral _ BS) as [NS VS].
    rewrite (eqb_value _ _ Ns NS), Vs, VS, V. unfold score_Z. fold F.
    apply Z.eqb_eq. pose proof pow2_1074_pos as P.
    set (p := 2 ^ 1074) in *. clearbody p. nia.
Qed.

Lemma score_of_whole_numbers_is_exact_witness :
  (rawScore (float64 7) (float64 4) 2 3 true =?
   float64 (rawScore_Z 7 4 2 3 true))%float = true /\
  (score (float64 7) (float64 4) 2 3 true =?
   float64 (score_Z 7 4 2 3 true))%float = true.
Proof.
  apply (score_of_whole_numbers_is_exact 7 4 2 3 true); cbn; lia.
Defined.

(** ** Short tables, and the handlers once more *)

(** X12. A table of at most ten rows comes back whole from the query of
    handleChartData: the result is a rearrangement of all its rows. *)
Theorem short_table_comes_back_whole :
  forall t : Table,
    (List.length (rows t) <= 10)%nat ->
    Permutation (RecentSeries 10 t) (series t) /\
    List.length (RecentSeries 10 t) = List.length (rows t).
Proof.
  intros t H. destruct (RecentSeries_spec 10 t) as (L & _ & older & P & _).
  assert (L' : List.length (RecentSeries 10 t) = List.length (rows t))
    by (rewrite L; apply Nat.min_r; exact H).
  split; [| exact L'].
  pose proof (Permutation_length P) as PL.
  rewrite length_app in PL. unfold series in PL. rewrite length_map in PL.
  rewrite L' in PL.
  assert (older = [])
    by (destruct older; [reflexivity | cbn [Datatypes.length] in PL; lia]).
  subst older. rewrite app_nil_r in P. exact P.
Qed.

Lemma short_table_comes_back_whole_witness :
  Permutation (RecentSeries 10 {| rows := [sample_row 1 50 None; sample_row 2 40 None];
                                  autoincrement := 2 |})
              (series {| rows := [sample_row 1 50 None; sample_row 2 40 None];
                         autoincrement := 2 |}) /\
  List.length (RecentSeries 10 {| rows := [sample_row 1 50 None; sample_row 2 40 None];
                                  autoincrement := 2 |}) = 2%nat.
Proof.
  apply (short_table_comes_back_whole
           {| rows := [sample_row 1 50 None; sample_row 2 40 None];
              autoincrement := 2 |}).
  cbn. lia.
Defined.

(** X13. Right after a successful migration, on a healthy storage, the
    chart is empty: handleChartData answers 200 with JSON of no labels
    and no data. *)
Theorem chart_after_migration_is_empty :
  forall w w' : World,
    runMigrations w = (None, w') -> hd None (faults w') = None ->
    fst (handleChartData w') =
      {| status := StatusOK;
         header := [("Content-Type", "application/json")];
         resp_body := JSON {| Labels := []; Data := [] |} |}.
Proof.
  intros w w' M F.
  rewrite (handleChartData_ok w' empty_table (runMigrations_ok w w' M) F).
  reflexivity.
Qed.

Lemma chart_after_migration_is_empty_witness :
  fst (handleChartData (snd (runMigrations sample_world))) =
    {| status := StatusOK;
       header := [("Content-Type", "application/json")];
       resp_body := JSON {| Labels := []; Data := [] |} |}.
Proof.
  apply (chart_after_migration_is_empty sample_world); reflexivity.
Defined.

(** X14. handleChartData only reads: it leaves the table, the clock and the
    source of draws as they were, and a JSON answer holds at most ten
    labels and ten data points. *)
Theorem handleChartData_only_reads :
  forall w : World,
    entries (snd (handleChartData w)) = entries w /\
    now (snd (handleChartData w)) = now w /\
    draw (snd (handleChartData w)) = draw w /\
    (forall c, resp_body (fst (handleChartData w)) = JSON c ->
       (List.length (Labels c) <= 10)%nat /\ (List.length (Data c) <= 10)%nat).
Proof.
  intros w. destruct (handleChartData_world w) as (E & N & D & _).
  split; [exact E |]. split; [exact N |]. split; [exact D |].
  intros c. unfold handleChartData, db_Query.
  destruct (next_fault w) as [[err |] w1]; [discriminate |].
  destruct (entries w1) as [t |]; [| discriminate].
  rewrite scan_rows_decoded. cbn [app].
  destruct (forallb json_number (map snd (decoded (RecentSeries 10 t))));
    [| discriminate].
  cbn [fst resp_body]. intros H. injection H as <-. cbn [Labels Data].
  rewrite !length_map.
  pose proof (decoded_length (RecentSeries 10 t)).
  destruct (RecentSeries_spec 10 t) as (L & _). lia.
Qed.

(** X15. The reset plan goes with the Severe Burnout level: in the fragment
    of a successful calculate, the level sits in the seventh argument and
    the reset plan in the thirteenth; the plan is shown only with level
    Severe Burnout, and for a score that is a number always with it.  For
    a NaN score the level is Severe Burnout and the plan is not shown. *)
Theorem reset_plan_goes_with_severe_level :
  forall (sleep studyHours : float) (deadlines mood stress : Z) (exercise : bool)
         (w : World) (t : Table),
    entries w = Some t -> hd None (faults w) = None ->
    let s := score sleep studyHours deadlines stress exercise in
    exists args,
      resp_body (fst (calculate sleep studyHours deadlines mood stress exercise w)) =
        Fragment args /\
      nth 6 args (Str "") = Str (level (category s)) /\
      nth 12 args (Str "") = Str (resetPlanHTML s) /\
      (resetPlanHTML s = resetPlan -> level (category s) = "🔴 Severe Burnout") /\
      (number s -> level (category s) = "🔴 Severe Burnout" ->
         resetPlanHTML s = resetPlan) /\
      (math.IsNaN s = true ->
         level (category s) = "🔴 Severe Burnout" /\ resetPlanHTML s = "").
Proof.
  intros sleep studyHours deadlines mood stress exercise w t Ht Hf s.
  unfold calculate, db_Exec. rewrite (next_fault_none w Hf).
  cbn [entries with_faults]. rewrite Ht. cbn [fst resp_body].
  eexists. split; [reflexivity |]. cbn [nth]. fold s.
  split; [reflexivity |]. split; [reflexivity |].
  unfold resetPlanHTML. split; [| split].
  - destruct (80 <? s)%float eqn:E; [| discriminate].
    intros _. apply ltb_true_value in E. destruct E as (_ & N & E).
    rewrite value_80 in E.
    pose proof (category_cases s N) as C. cbv zeta in C. hide_pow 1074%Z U.
    destruct C as [[H1 E1] | [[H1 E1] | [[H1 E1] | [H1 E1]]]];
      try lia. rewrite E1. reflexivity.
  - intros N L. rewrite (ltb_value 80 s number_80 N), value_80.
    pose proof (category_cases s N) as C. cbv zeta in C. hide_pow 1074%Z U.
    destruct C as [[H1 E1] | [[H1 E1] | [[H1 E1] | [H1 E1]]]];
      rewrite E1 in L; try discriminate L.
    replace (80 * U <? value s) with true by (symmetry; apply Z.ltb_lt; lia).
    reflexivity.
  - intros E. rewrite (not_number s E). split; reflexivity.
Qed.

Lemma reset_plan_goes_with_severe_level_witness :
  exists args,
    resp_body (fst (calculate 3 12 9 1 5 false fresh_world)) = Fragment args /\
    nth 6 args (Str "") = Str "🔴 Severe Burnout" /\
    nth 12 args (Str "") = Str resetPlan.
Proof.
  destruct (reset_plan_goes_with_severe_level 3 12 9 1 5 false fresh_world
              empty_table eq_refl eq_refl) as (args & B & L & R & _).
  exists args. split; [exact B |]. split; [exact L | exact R].
Defined.

(** X16. The answer to a submission does not depend on what is stored: two
    worlds that both have a table, at the same time, with the same draw
    and the same storage faults, give the same response to the same
    request, whatever their rows. *)
Theorem answer_does_not_depend_on_history :
  forall (strconv : Strconv) (r : Request) (w1 w2 : World) (t1 t2 : Table),
    entries w1 = Some t1 -> entries w2 = Some t2 ->
    now w1 = now w2 -> draw w1 = draw w2 -> faults w1 = faults w2 ->
    fst (handleCalculate r w1) = fst (handleCalculate r w2).
Proof.
  intros strconv r w1 w2 t1 t2 E1 E2 N D F. unfold handleCalculate.
  destruct (negb (Method r =? "POST")%string); [reflexivity |].
  unfold calculate, db_Exec, next_fault. rewrite <- F, <- D.
  destruct (faults w1) as [| [err |] fs]; cbn [entries with_faults now].
  - rewrite E1, E2. cbn. rewrite N. reflexivity.
  - reflexivity.
  - rewrite E1, E2. cbn. rewrite N. reflexivity.
Qed.

Lemma answer_does_not_depend_on_history_witness :
  fst (handleCalculate (POST_mood "3") sample_world) =
  fst (handleCalculate (POST_mood "3") fresh_world).
Proof.
  apply (answer_does_not_depend_on_history go_strconv (POST_mood "3")
           sample_world fresh_world _ _ eq_refl eq_refl eq_refl eq_refl eq_refl).
Defined.

(** ** A NaN entry in the chart *)

(** X17. A submission whose score is NaN is stored but never drawn.  With
    the table in place, its rows as handleCalculate writes them, and the
    storage answering, the answer is 200 and the table gains a row whose
    score is NULL, with the level Severe Burnout; the next handleChartData
    answers 200 and every point it draws is the score of a row stored
    before.  If moreover the submission is strictly later than every
    stored row, the NULL row takes one of the ten places of the query
    all the same: the chart holds what decodes of the nine latest rows
    stored before, at most nine points. *)
Theorem nan_entry_takes_a_slot :
  forall (sleep studyHours : float) (deadlines mood stress : Z) (exercise : bool)
         (w : World) (t : Table),
    entries w = Some t -> rows_ok w ->
    hd None (faults w) = None -> hd None (tl (faults w)) = None ->
    math.IsNaN (score sleep studyHours deadlines stress exercise) = true ->
    let res := calculate sleep studyHours deadlines mood stress exercise w in
    status (fst res) = 200 /\
    (exists row,
       entries (snd res) =
         Some {| rows := rows t ++ [row];
                 autoincrement := autoincrement t + 1 |} /\
       col_score row = None /\
       col_created_at row = now w /\
       col_level row = "🔴 Severe Burnout") /\
    (exists c,
       fst (handleChartData (snd res)) =
         {| status := 200;
            header := [("Content-Type", "application/json")];
            resp_body := JSON c |} /\
       forall s, In s (Data c) ->
                 exists r, In r (rows t) /\ col_score r = Some s) /\
    (Forall (fun r => col_created_at r < now w) (rows t) ->
     let shown := decoded (RecentSeries 9 t) in
     fst (handleChartData (snd res)) =
       {| status := 200;
          header := [("Content-Type", "application/json")];
          resp_body := JSON {| Labels := map (fun p => Format_15_04 (fst p)) shown;
                               Data := map snd shown |} |} /\
     (List.length shown <= 9)%nat).
Proof.
  intros sleep studyHours deadlines mood stress exercise w t Ht Hok F1 F2 N res.
  pose proof (calculate_cases sleep studyHours deadlines mood stress exercise w) as C.
  cbv zeta in C. fold res in C. destruct C as (_ & _ & Hf & C).
  destruct C as [(err & E & _) | [(_ & E & _) | (t' & _ & E & St & Ew')]];
    [congruence | congruence |].
  assert (t' = t) by congruence. subst t'.
  set (v := inserted sleep studyHours deadlines mood stress exercise w) in *.
  assert (Es : sql_real (v_score v) = None).
  { unfold v, inserted. cbn [v_score]. unfold sql_real. rewrite N. reflexivity. }
  assert (F' : hd None (faults (snd res)) = None) by (rewrite Hf; exact F2).
  unfold rows_ok in Hok. rewrite Ht in Hok.
  (* a point of the chart is a row stored before *)
  assert (Old : forall limit ts s,
            In (ts, s) (decoded (RecentSeries limit (insert_row t (now w) v))) ->
            exists r, In r (rows t) /\ col_score r = Some s).
  { intros limit ts s Hin.
    apply decoded_In, RecentSeries_In in Hin. unfold series in Hin.
    apply in_map_iff in Hin. destruct Hin as (row & Er & Hrow).
    destruct (insert_row_rows t (now w) v) as [Rw _]. rewrite Rw in Hrow.
    apply in_app_or in Hrow. destruct Hrow as [Hrow | [<- | []]].
    - exists row. split; [exact Hrow |]. congruence.
    - cbn [new_row col_score] in Er. rewrite Es in Er. discriminate Er. }
  assert (J : forall limit,
            forallb json_number
              (map snd (decoded (RecentSeries limit (insert_row t (now w) v)))) = true).
  { intros limit. apply forallb_forall. intros s Hs. apply in_map_iff in Hs.
    destruct Hs as ([ts s'] & <- & Hin). cbn [snd].
    destruct (Old limit ts s' Hin) as (r & Hr & Sr).
    rewrite Forall_forall in Hok. specialize (Hok r Hr). unfold row_ok in Hok.
    rewrite Sr in Hok. apply in_range_json_number, Hok. }
  split; [exact St |]. split; [| split].
  - eexists. split; [exact Ew' |]. cbn [col_score col_created_at col_level].
    split; [exact Es |]. split; [reflexivity |].
    unfold v, inserted. cbn [v_level]. rewrite (not_number _ N). reflexivity.
  - rewrite (handleChartData_ok (snd res) _ Ew' F'). cbv zeta. rewrite (J 10%nat).
    eexists. split; [reflexivity |]. cbn [Data]. intros s Hs.
    apply in_map_iff in Hs. destruct Hs as ([ts s'] & <- & Hin).
    exact (Old 10%nat ts s' Hin).
  - intros Hnew shown.
    rewrite (handleChartData_ok (snd res) _ Ew' F'). cbv zeta. rewrite (J 10%nat).
    rewrite (RecentSeries_after_insert 9 t (now w) v Hnew).
    rewrite Es, decoded_app. cbn [decoded flat_map Scan snd fst app].
    rewrite app_nil_r. fold (decoded (RecentSeries 9 t)). fold shown.
    split; [reflexivity |].
    eapply Nat.le_trans; [apply decoded_length |].
    destruct (RecentSeries_spec 9 t) as (L & _). rewrite L. apply Nat.le_min_l.
Qed.

Lemma nan_entry_takes_a_slot_witness :
  status (fst (calculate nan 5 3 2 4 false later_world)) = 200 /\
  (exists row,
     option_map (fun t => List.length (rows t))
       (entries (snd (calculate nan 5 3 2 4 false later_world))) = Some 2%nat /\
     option_map (fun t => last (rows t) row)
       (entries (snd (calculate nan 5 3 2 4 false later_world))) = Some row /\
     col_score row = None /\ col_level row = "🔴 Severe Burnout") /\
  exists shown,
    fst (handleChartData (snd (calculate nan 5 3 2 4 false later_world))) =
      {| status := 200;
         header := [("Content-Type", "application/json")];
         resp_body := JSON {| Labels := map (fun p => Format_15_04 (fst p)) shown;
                              Data := map snd shown |} |} /\
    (List.length shown <= 9)%nat.
Proof.
  pose proof (fun t Ht =>
                nan_entry_takes_a_slot nan 5 3 2 4 false later_world t Ht
                  one_entry_world_ok eq_refl eq_refl eq_refl) as H.
  specialize (H _ eq_refl).
  cbv zeta in H. destruct H as (S & (row & T & R1 & _ & R2) & _ & C).
  destruct (C ltac:(cbn; repeat constructor)) as [C1 C2].
  split; [exact S |]. split.
  - exists row. rewrite T. cbn [option_map rows].
    split; [reflexivity |]. split; [| split; [exact R1 | exact R2]].
    rewrite last_last. reflexivity.
  - eexists. split; [exact C1 | exact C2].
Defined.

(** ** The rotation of the gauge

    The division of binary64 rounds from a quotient and a location; the
    location is read as two more bits of the quotient, which brings the
    rounding back to the one of an exact mantissa. *)

Lemma loc_code_bounds (l : location) : 0 <= loc_code l <= 3.
Proof. destruct l as [| []]; cbn; lia. Qed.

Lemma shr_1_twice (q : Z) (l : location) :
  0 <= q ->
  shr_1 (shr_1 (Build_shr_record (4 * q + loc_code l) false false)) =
  shr_record_of_loc q l.
Proof.
  intros H. destruct q as [| p | p]; [| | lia]; destruct l as [| []]; reflexivity.
Qed.

Lemma Zdigits2_sticky (q t : Z) :
  0 < q -> 0 <= t <= 3 -> Zdigits2 (4 * q + t) = Zdigits2 q + 2.
Proof.
  intros Hq Ht. pose proof (Zdigits2_bounds q Hq) as [Lo Hi].
  pose proof (Zdigits2_pos q Hq) as Dp.
  set (d := Zdigits2 q) in *.
  apply Zdigits2_unique; [| lia].
  replace (d + 2 - 1) with (2 + (d - 1)) by lia.
  rewrite (pow2_split 2 (d - 1)) by lia.
  replace (d + 2) with (2 + d) by lia. rewrite (pow2_split 2 d) by lia.
  change (2 ^ 2) with 4. lia.
Qed.

(** Rounding from a location is rounding, from an exact mantissa, of the
    mantissa with the two bits of the location appended. *)
Lemma round_aux_sticky (s : bool) (q e : Z) (l : location) :
  0 <= q ->
  0 <= fexp prec emax (Zdigits2 q + e) - e ->
  binary_round_aux prec emax s q e l =
  binary_round_aux prec emax s (4 * q + loc_code l) (e - 2) loc_Exact /\
  0 <= fexp prec emax (Zdigits2 (4 * q + loc_code l) + (e - 2)) - (e - 2).
Proof.
  intros Hq Hn. pose proof (loc_code_bounds l) as Ht.
  set (n := fexp prec emax (Zdigits2 q + e) - e) in *.
  assert (En : fexp prec emax (Zdigits2 (4 * q + loc_code l) + (e - 2)) - (e - 2) = n + 2).
  { unfold n. destruct (Z.eq_dec q 0) as [-> | Nq].
    - assert (He : e <= -1074).
      { unfold n in Hn. rewrite fexp_64 in Hn. change (Zdigits2 0) with 0 in Hn. lia. }
      assert (D : 0 <= Zdigits2 (4 * 0 + loc_code l) <= 2)
        by (destruct l as [| []]; cbn; lia).
      rewrite !fexp_64. change (Zdigits2 0) with 0. lia.
    - rewrite Zdigits2_sticky by lia. rewrite !fexp_64. lia. }
  split; [| rewrite En; lia].
  unfold binary_round_aux, shr_fexp. rewrite En. fold n.
  cbn [shr_record_of_loc].
  assert (E : shr (Build_shr_record (4 * q + loc_code l) false false) (e - 2) (n + 2) =
              shr (shr_record_of_loc q l) e n).
  { unfold shr. destruct n as [| p | p] eqn:Ep; [| | lia].
    - change (0 + 2) with (Z.pos 2). cbv beta iota. rewrite iter_pos_nat.
      change (Pos.to_nat 2) with 2%nat. cbn [Nat.iter nat_rect].
      rewrite shr_1_twice by lia. f_equal. lia.
    - replace (Z.pos p + 2) with (Z.pos (p + 2)) by lia.
      rewrite !iter_pos_nat. rewrite Pos2Nat.inj_add.
      rewrite Nat.iter_add. change (Pos.to_nat 2) with 2%nat.
      cbn [Nat.iter nat_rect]. rewrite shr_1_twice by lia. f_equal. lia. }
  rewrite E. reflexivity.
Qed.

Lemma new_location_code (m r : Z) :
  0 <= loc_code (new_location m r) <= 3 /\
  (loc_code (new_location m r) = 0 <-> r = 0).
Proof.
  split; [apply loc_code_bounds |].
  unfold new_location.
  destruct (Z.even m); unfold new_location_even, new_location_odd;
    (destruct (Z.eqb_spec r 0) as [-> | N]; [cbn [loc_code]; tauto |]);
    [destruct (2 * r ?= m) | destruct (2 * r + 1 ?= m)]; cbn [loc_code];
    (split; intros H; [discriminate H | contradiction]).
Qed.

(** The quotient of two positive finite floats, the first at most the
    second: a number between 0 and 1. *)
Lemma SFdiv_unit (mx : positive) (ex : Z) (mc : positive) (ec : Z) :
  valid_binary (S754_finite false mx ex) = true ->
  valid_binary (S754_finite false mc ec) = true ->
  magnitude mx ex <= magnitude mc ec ->
  SFdiv prec emax (S754_finite false mx ex) (S754_finite false mc ec) <> S754_nan /\
  0 <= B64_value (SFdiv prec emax (S754_finite false mx ex) (S754_finite false mc ec))
    <= 2 ^ 1074.
Proof.
  intros Vx Vc Hle.
  assert (Hex : ex <= ec).
  { destruct (Z.le_gt_cases ex ec) as [H | H]; [exact H |].
    pose proof (magnitude_lt_exp false mc ec false mx ex Vc Vx ltac:(lia)). lia. }
  pose proof (valid_finite _ _ _ Vx) as (Bex & Bmx & _).
  pose proof (valid_finite _ _ _ Vc) as (Bec & Bmc & _).
  pose proof (digits2_pos_bounds mx) as [Lx Ux].
  pose proof (digits2_pos_bounds mc) as [Lc Uc].
  cbn [SFdiv xorb]. unfold SFdiv_core_binary. cbn [Zdigits2].
  set (d1 := Zpos (digits2_pos mx)) in *. set (d2 := Zpos (digits2_pos mc)) in *.
  rewrite fexp_64.
  set (e' := Z.min (Z.max (d1 + ex - (d2 + ec) - 53) (-1074)) (ex - ec)).
  set (s := ex - ec - e').
  assert (Hs : 0 <= s) by (unfold s, e'; lia).
  assert (He' : e' <= 0) by (unfold e'; lia).
  assert (He'' : - 2045 <= e') by (unfold e'; lia).
  set (m' := match s with Zpos _ => Z.shiftl (Zpos mx) s | 0 => Zpos mx | Zneg _ => 0 end).
  assert (Em : m' = Zpos mx * 2 ^ s).
  { unfold m'. destruct s as [| p | p] eqn:Es; [rewrite Z.pow_0_r; lia | | lia].
    apply Z.shiftl_mul_pow2. lia. }
  clearbody m'.
  assert (Ps : 0 < 2 ^ s) by (apply Z.pow_pos_nonneg; lia).
  assert (Pm : 0 < m') by (rewrite Em; apply Z.mul_pos_pos; lia).
  pose proof (Z_div_mod m' (Zpos mc) ltac:(lia)) as DM.
  destruct (Z.div_eucl m' (Zpos mc)) as [q r]. destruct DM as [DM Br].
  assert (Hq0 : 0 <= q) by nia.
  (* the quotient has its 53 digits, or sits at the least exponent *)
  assert (Hn : 0 <= fexp prec emax (Zdigits2 q + e') - e').
  { rewrite fexp_64. destruct (Z_le_gt_dec e' (-1074)) as [H | H]; [lia |].
    assert (Hs53 : 53 + d2 - d1 <= s) by (unfold s, e' in *; lia).
    assert (D1 : 1 <= d1) by (unfold d1; lia).
    assert (H52 : 2 ^ 52 * 2 ^ d2 <= m').
    { rewrite Em. rewrite <- pow2_split by lia.
      apply Z.le_trans with (2 ^ (d1 - 1) * 2 ^ s);
        [| apply Z.mul_le_mono_nonneg_r; lia].
      rewrite <- pow2_split by lia. apply Z.pow_le_mono_r; lia. }
    assert (Hq52 : 2 ^ 52 <= q).
    { set (c52 := 2 ^ 52) in *. set (pd2 := 2 ^ d2) in *.
      assert (c52 * Zpos mc < Zpos mc * (q + 1)) by nia.
      assert (0 < c52) by (unfold c52; lia). nia. }
    pose proof (Zdigits2_bounds q ltac:(lia)) as [_ Uq].
    assert (52 < Zdigits2 q).
    { apply (Z.pow_lt_mono_r_iff 2); [lia | apply Zdigits2_nonneg | lia]. }
    lia. }
  set (l := new_location (Zpos mc) r).
  destruct (new_location_code (Zpos mc) r) as [Bt Et]. fold l in Bt, Et.
  destruct (round_aux_sticky false q e' l Hq0 Hn) as [-> Hn'].
  assert (PM : 0 < 4 * q + loc_code l).
  { destruct (Z.eq_dec (loc_code l) 0) as [E0 | N0]; [| lia].
    apply Et in E0. subst r. nia. }
  (* the quotient is at most 2^(-e') *)
  set (A := 2 ^ (- e')).
  assert (EA : A = 2 ^ s * 2 ^ (ec - ex)).
  { unfold A. rewrite <- pow2_split by lia. f_equal. unfold s. lia. }
  assert (Hmx : Zpos mx <= Zpos mc * 2 ^ (ec - ex)).
  { unfold magnitude in Hle.
    replace (ec + 1074) with ((ec - ex) + (ex + 1074)) in Hle by lia.
    rewrite (pow2_split (ec - ex) (ex + 1074)), Z.mul_assoc in Hle by lia.
    apply Z.mul_le_mono_pos_r in Hle; [exact Hle |].
    apply Z.pow_pos_nonneg; lia. }
  assert (Hm' : m' <= Zpos mc * A).
  { rewrite Em, EA. set (B := 2 ^ (ec - ex)) in *. nia. }
  assert (HM : 4 * q + loc_code l <= 4 * A).
  { destruct (Z.eq_dec r 0) as [E0 | N0].
    - apply Et in E0. rewrite E0. nia.
    - assert (q < A) by nia. lia. }
  destruct (4 * q + loc_code l) as [| pM | pM] eqn:EM; try lia.
  pose proof (round_aux_value false pM (e' - 2)) as RA. cbv zeta in RA.
  specialize (RA Hn'). destruct RA as (_ & N & V).
  split; [exact N |]. rewrite V. cbn [cond_Zopp].
  rewrite (RNE_Rnd pM (e' - 2) 1000 Hn' ltac:(lia) ltac:(lia)).
  set (S := Zpos pM * 2 ^ (e' - 2 + 1074 + 1000)).
  assert (HS : 0 <= S <= 1 * 2 ^ (1074 + 1000)).
  { unfold S. split; [apply Z.mul_nonneg_nonneg; [lia | apply Z.pow_nonneg; lia] |].
    replace (1074 + 1000) with (2 + (- e') + (e' - 2 + 1074 + 1000)) by lia.
    rewrite (pow2_split (2 + - e')), (pow2_split 2 (- e')) by lia. fold A.
    change (2 ^ 2) with 4. rewrite Z.mul_1_l.
    apply Z.mul_le_mono_nonneg_r; [apply Z.pow_nonneg; lia | exact HM]. }
  pose proof (Rnd_nonneg 1000 S ltac:(lia) ltac:(lia)) as R0.
  pose proof (Rnd_mono 1000 S _ ltac:(lia) HS) as R1.
  rewrite (Rnd_integer 1000 1 ltac:(lia) ltac:(lia)) in R1. rewrite Z.mul_1_l in R1.
  assert (LT : 2 ^ 1074 < 2 ^ 2098) by (apply Z.pow_lt_mono_r; lia).
  hide_pow 2098%Z T. hide_pow 1074%Z U. lia.
Qed.

Lemma div_unit (x c : float) :
  fin (Prim2SF c) -> 0 < value c -> number x -> 0 <= value x <= value c ->
  number (x / c)%float /\ 0 <= value (x / c)%float <= 2 ^ 1074.
Proof.
  intros Fc Pc Nx [H0 H1].
  pose proof (Prim2SF_valid x) as Vx. pose proof (Prim2SF_valid c) as Vc.
  apply number_iff in Nx. unfold value in *.
  assert (R : SF64div (Prim2SF x) (Prim2SF c) <> S754_nan /\
              0 <= B64_value (SF64div (Prim2SF x) (Prim2SF c)) <= 2 ^ 1074).
  { unfold SF64div.
    destruct (Prim2SF c) as [sc | sc | | sc mc ec]; cbn in Fc; try contradiction.
    { cbn [B64_value] in Pc. lia. }
    pose proof (magnitude_bounds _ _ _ Vc) as Bc. unfold magnitude in Bc.
    destruct sc.
    { exfalso. cbn [B64_value cond_Zopp] in Pc. lia. }
    cbn [B64_value cond_Zopp] in H1.
    destruct (Prim2SF x) as [sx | sx | | sx mx ex]; try congruence.
    - cbn [SFdiv B64_value]. split; [discriminate |].
      split; [lia | apply Z.pow_nonneg; lia].
    - exfalso. cbn [B64_value] in H0, H1. hide_pow 2098%Z T.
      destruct sx; cbn [cond_Zopp] in H0, H1; lia.
    - pose proof (magnitude_bounds _ _ _ Vx) as Bx. unfold magnitude in Bx.
      cbn [B64_value] in H0, H1.
      destruct sx; [exfalso; cbn [cond_Zopp] in H0; lia |].
      apply SFdiv_unit; assumption. }
  split; [apply number_iff |]; rewrite div_spec; apply R.
Qed.

Lemma number_mul (x c : float) :
  number x -> fin (Prim2SF c) -> 0 < value c -> number (x * c)%float.
Proof.
  intros Nx Fc Pc. apply number_iff. rewrite mul_spec. unfold SF64mul.
  apply SFmul_value; auto using Prim2SF_valid. apply number_iff, Nx.
Qed.

Lemma bounded_fin (x : float) :
  number x -> - 2 ^ 2098 < value x < 2 ^ 2098 -> fin (Prim2SF x).
Proof.
  intros N B. apply number_iff in N. unfold value in B.
  destruct (Prim2SF x) as [s | s | | s m e]; try exact I; [| congruence].
  exfalso. cbn [B64_value] in B. hide_pow 2098%Z T.
  destruct s; cbn [cond_Zopp] in B; lia.
Qed.

Lemma number_sub (x y : float) :
  fin (Prim2SF x) -> fin (Prim2SF y) -> number (x - y)%float.
Proof.
  intros Fx Fy. apply number_iff. rewrite sub_spec. unfold SF64sub.
  apply SFsub_fin; auto using Prim2SF_valid.
Qed.

(** The needle of a score within [0, 100] stays between -180 and 0. *)
Lemma rotation_bounds (s : float) :
  in_range s ->
  (-180 <=? rotation s)%float = true /\ (rotation s <=? 0)%float = true.
Proof.
  intros [L0 L100]. apply leb_true_value in L0. apply leb_true_value in L100.
  destruct L0 as (_ & Ns & V0). destruct L100 as (_ & _ & V100).
  rewrite value_0 in V0.
  assert (F180 : fin (Prim2SF 180)) by exact I.
  assert (P180 : 0 < value 180) by reflexivity.
  destruct (div_unit s 100 I ltac:(reflexivity) Ns (conj V0 V100)) as [Ny [Y0 Y1]].
  set (y := (s / 100)%float) in *.
  pose proof (number_mul y 180 Ny F180 P180) as Nz.
  assert (B0 : below 0 y) by (intros _ _; rewrite value_0; exact Y0).
  assert (B1 : below y 1) by (intros _ _; exact Y1).
  pose proof (mul_below 0 y 180 F180 P180 B0) as Z0.
  pose proof (mul_below y 1 180 F180 P180 B1) as Z1.
  set (z := (y * 180)%float) in *.
  assert (Fz : fin (Prim2SF z)).
  { apply bounded_fin; [exact Nz |].
    specialize (Z0 eq_refl Nz). specialize (Z1 Nz eq_refl).
    change (value (0 * 180)) with 0 in Z0.
    change (value (1 * 180)) with (180 * 2 ^ 1074) in Z1.
    assert (180 * 2 ^ 1074 < 2 ^ 2098).
    { change (2 ^ 2098) with (2 ^ 1024 * 2 ^ 1074).
      apply Z.mul_lt_mono_pos_r; [exact pow2_1074_pos | reflexivity]. }
    hide_pow 2098%Z T. hide_pow 1074%Z U. lia. }
  pose proof (number_sub z 180 Fz F180) as Nr.
  pose proof (sub_below_l _ _ 180 Z0 eq_refl Nr) as R0.
  pose proof (sub_below_l _ _ 180 Z1 Nr eq_refl) as R1.
  unfold rotation. fold y. fold z.
  split.
  - rewrite (leb_value _ _ (eq_refl : number (-180)) Nr). apply Z.leb_le. exact R0.
  - rewrite (leb_value _ _ Nr number_0). apply Z.leb_le. exact R1.
Qed.

(** X18. The needle stays on the dial: in the fragment of a successful
    calculate the third argument is the rotation (score / 100) * 180 - 180,
    computed in float64; for a score that is a number it lies between
    -180 and 0, both included: the quotient, the product and the
    difference are each rounded, and none of the roundings leaves the
    range.  For a NaN score the rotation is NaN. *)
Theorem needle_stays_on_the_dial :
  forall (sleep studyHours : float) (deadlines mood stress : Z) (exercise : bool)
         (w : World) (t : Table),
    entries w = Some t -> hd None (faults w) = None ->
    let s := score sleep studyHours deadlines stress exercise in
    exists args,
      resp_body (fst (calculate sleep studyHours deadlines mood stress exercise w)) =
        Fragment args /\
      nth 2 args (Str "") = Float (rotation s) /\
      (number s ->
         (-180 <=? rotation s)%float = true /\ (rotation s <=? 0)%float = true) /\
      (math.IsNaN s = true -> math.IsNaN (rotation s) = true).
Proof.
  intros sleep studyHours deadlines mood stress exercise w t Ht Hf s.
  unfold calculate, db_Exec. rewrite (next_fault_none w Hf).
  cbn [entries with_faults]. rewrite Ht. cbn [fst resp_body].
  eexists. split; [reflexivity |]. cbn [nth]. fold s.
  split; [reflexivity |]. split.
  - intros N. apply rotation_bounds. unfold s, score in *. apply clamp_in_range, N.
  - intros E. rewrite (not_number s E). reflexivity.
Qed.

Lemma needle_stays_on_the_dial_witness :
  exists args,
    resp_body (fst (calculate 6.5 5 3 2 4 false fresh_world)) = Fragment args /\
    nth 2 args (Str "") = Float (rotation (score 6.5 5 3 4 false)) /\
    (-180 <=? rotation (score 6.5 5 3 4 false))%float = true /\
    (rotation (score 6.5 5 3 4 false) <=? 0)%float = true.
Proof.
  destruct (needle_stays_on_the_dial 6.5 5 3 2 4 false fresh_world
              empty_table eq_refl eq_refl) as (args & B & R & H & _).
  exists args. split; [exact B |]. split; [exact R |]. exact (H eq_refl).
Defined.
